(** * InfoScraper2: a shallow embedding of the scrape pipeline

    The development follows [InfoScraper2.py]: the storage manager, the
    content extractor, the image downloader and the [AIDataScraper]
    orchestrator.  Python's exceptions, the log, the network and the file
    system are made explicit: every method is a function from a state to an
    outcome (a value or a raised exception) and a new state; the answers of
    the outside world are read from a [World] of oracles. *)

From Stdlib Require Import ZArith List Bool Lia Arith.
From Stdlib.Strings Require Import String Ascii Byte.
From Stdlib Require Import DecimalString.
Import ListNotations.
Open Scope Z_scope.

(** ** hashlib.sha256

    [hashlib.sha256(content).hexdigest()] is the SHA-256 function of
    FIPS 180-4 on the raw bytes, rendered as 64 lower-case hexadecimal
    digits.  32-bit words are integers with their wrap-around written out. *)
Module Hashlib.

Definition mask32 : Z := 0xFFFFFFFF.

Definition add32 (a b : Z) : Z := (a + b) mod 2 ^ 32.

Definition rotr (n x : Z) : Z :=
  Z.lor (Z.shiftr x n) (Z.land (Z.shiftl x (32 - n)) mask32).

Definition shr (n x : Z) : Z := Z.shiftr x n.

Definition Ch (x y z : Z) : Z :=
  Z.lxor (Z.land x y) (Z.land (Z.lxor x mask32) z).

Definition Maj (x y z : Z) : Z :=
  Z.lxor (Z.lxor (Z.land x y) (Z.land x z)) (Z.land y z).

Definition Sigma0 (x : Z) : Z := Z.lxor (Z.lxor (rotr 2 x) (rotr 13 x)) (rotr 22 x).
Definition Sigma1 (x : Z) : Z := Z.lxor (Z.lxor (rotr 6 x) (rotr 11 x)) (rotr 25 x).
Definition sigma0 (x : Z) : Z := Z.lxor (Z.lxor (rotr 7 x) (rotr 18 x)) (shr 3 x).
Definition sigma1 (x : Z) : Z := Z.lxor (Z.lxor (rotr 17 x) (rotr 19 x)) (shr 10 x).

(** The constants of the standard are defined from the first primes: the
    round constants are the first 32 bits of the fractional parts of their
    cube roots, the initial hash value those of their square roots. *)
Fixpoint has_divisor (fuel : nat) (d n : Z) : bool :=
  match fuel with
  | O => false
  | S fuel' =>
      if n <? d * d then false
      else if n mod d =? 0 then true
      else has_divisor fuel' (d + 1) n
  end.

Definition is_prime (n : Z) : bool :=
  (2 <=? n) && negb (has_divisor (Z.to_nat n) 2 n).

(** The first [count] primes from [n] on, looking at [fuel] numbers. *)
Fixpoint primes_from (fuel count : nat) (n : Z) : list Z :=
  match fuel, count with
  | O, _ => []
  | _, O => []
  | S fuel', S count' =>
      if is_prime n then n :: primes_from fuel' count' (n + 1)
      else primes_from fuel' count (n + 1)
  end.

Definition first_primes (count : nat) : list Z := primes_from 400 count 2.

(** Integer cube root, one bit after the other from bit [bits - 1] down. *)
Fixpoint cube_root_bits (bits : nat) (n r : Z) : Z :=
  match bits with
  | O => r
  | S bits' =>
      let r' := r + 2 ^ Z.of_nat bits' in
      cube_root_bits bits' n (if r' * r' * r' <=? n then r' else r)
  end.

Definition cube_root (n : Z) : Z := cube_root_bits 48 n 0.

Definition frac_cube_root (p : Z) : Z := cube_root (p * 2 ^ 96) mod 2 ^ 32.

Definition frac_square_root (p : Z) : Z := Z.sqrt (p * 2 ^ 64) mod 2 ^ 32.

Definition K : list Z :=
  Eval vm_compute in map frac_cube_root (first_primes 64).

(** The eight working words of the hash. *)
Record Words8 : Type := mkWords8 {
  wa : Z; wb : Z; wc : Z; wd : Z; we : Z; wf : Z; wg : Z; wh : Z
}.

Definition words8_of_list (l : list Z) : Words8 :=
  mkWords8 (nth 0 l 0) (nth 1 l 0) (nth 2 l 0) (nth 3 l 0)
           (nth 4 l 0) (nth 5 l 0) (nth 6 l 0) (nth 7 l 0).

Definition IV : Words8 :=
  Eval vm_compute in words8_of_list (map frac_square_root (first_primes 8)).

Definition round (k w : Z) (s : Words8) : Words8 :=
  let t1 := add32 (add32 (add32 (add32 (wh s) (Sigma1 (we s)))
                                (Ch (we s) (wf s) (wg s))) k) w in
  let t2 := add32 (Sigma0 (wa s)) (Maj (wa s) (wb s) (wc s)) in
  mkWords8 (add32 t1 t2) (wa s) (wb s) (wc s)
           (add32 (wd s) t1) (we s) (wf s) (wg s).

(** One pass over the round constants; [w] is the sliding window
    W[t], ..., W[t+15] of the message schedule. *)
Fixpoint rounds (ks : list Z) (w : list Z) (s : Words8) : Words8 :=
  match ks with
  | [] => s
  | k :: ks' =>
      let wt := nth 0 w 0 in
      let next := add32 (add32 (add32 (sigma1 (nth 14 w 0)) (nth 9 w 0))
                               (sigma0 (nth 1 w 0))) wt in
      rounds ks' (tl w ++ [next]) (round k wt s)
  end.

Definition compress (s : Words8) (block : list Z) : Words8 :=
  let r := rounds K block s in
  mkWords8 (add32 (wa s) (wa r)) (add32 (wb s) (wb r))
           (add32 (wc s) (wc r)) (add32 (wd s) (wd r))
           (add32 (we s) (we r)) (add32 (wf s) (wf r))
           (add32 (wg s) (wg r)) (add32 (wh s) (wh r)).

(** Big-endian 32-bit words of a byte list. *)
Fixpoint be_words (n : nat) (l : list Z) : list Z :=
  match n with
  | O => []
  | S n' =>
      (nth 0 l 0 * 2 ^ 24 + nth 1 l 0 * 2 ^ 16 + nth 2 l 0 * 2 ^ 8 + nth 3 l 0)
        :: be_words n' (skipn 4 l)
  end.

Fixpoint chunks (n : nat) (l : list Z) : list (list Z) :=
  match n with
  | O => []
  | S n' => be_words 16 (firstn 64 l) :: chunks n' (skipn 64 l)
  end.

Fixpoint be_bytes (n : nat) (v : Z) : list Z :=
  match n with
  | O => []
  | S n' => (Z.shiftr v (8 * Z.of_nat n')) mod 256 :: be_bytes n' v
  end.

Definition pad (msg : list Z) : list Z :=
  let len := Z.of_nat (List.length msg) in
  msg ++ [0x80] ++ repeat 0 (Z.to_nat ((55 - len) mod 64))
      ++ be_bytes 8 ((8 * len) mod 2 ^ 64).

Definition sha256_words (msg : list byte) : Words8 :=
  let p := pad (map (fun b => Z.of_N (Byte.to_N b)) msg) in
  fold_left compress (chunks (Nat.div (List.length p) 64) p) IV.

(** The digest as one 256-bit number (big-endian). *)
Definition words_int (s : Words8) : Z :=
  wa s * 2 ^ 224 + wb s * 2 ^ 192 + wc s * 2 ^ 160 + wd s * 2 ^ 128
  + we s * 2 ^ 96 + wf s * 2 ^ 64 + wg s * 2 ^ 32 + wh s.

Definition sha256_int (msg : list byte) : Z := words_int (sha256_words msg).

Definition hex_digit (d : Z) : ascii :=
  nth (Z.to_nat d)
      ["0"; "1"; "2"; "3"; "4"; "5"; "6"; "7";
       "8"; "9"; "a"; "b"; "c"; "d"; "e"; "f"]%char "0"%char.

Fixpoint hex_of (n : nat) (v : Z) : string :=
  match n with
  | O => EmptyString
  | S n' => String (hex_digit (Z.land (Z.shiftr v (4 * Z.of_nat n')) 15))
                   (hex_of n' v)
  end.

Definition hexdigest (msg : list byte) : string := hex_of 64 (sha256_int msg).

End Hashlib.

Arguments Hashlib.hexdigest : simpl never.
Arguments Hashlib.sha256_int : simpl never.

(** ** Python strings

    [str] values are strings of 8-bit characters, the code points below
    256.  On such text [str.lower] works character by character: it maps
    A-Z to a-z and the capitals U+00C0-U+00DE (but the sign U+00D7) to the
    letters 32 places further, and leaves every other character as it is.
    [in] is the substring test, [split] cuts at every separator. *)
Module Str.

Open Scope string_scope.

Definition lower_char (c : ascii) : ascii :=
  let n := nat_of_ascii c in
  if ((Nat.leb 65 n && Nat.leb n 90)
      || (Nat.leb 192 n && Nat.leb n 222 && negb (Nat.eqb n 215)))%bool
  then ascii_of_nat (n + 32) else c.

Fixpoint lower (s : string) : string :=
  match s with
  | EmptyString => EmptyString
  | String c s' => String (lower_char c) (lower s')
  end.

(** [str.upper] of one character: a-z and U+00E0-U+00FE (but the sign
    U+00F7) go 32 places back, U+00DF becomes the two letters SS; the
    capitals of U+00B5 and U+00FF are not 8-bit characters. *)
Definition upper_char (c : ascii) : option string :=
  let n := nat_of_ascii c in
  if ((Nat.leb 97 n && Nat.leb n 122)
      || (Nat.leb 224 n && Nat.leb n 254 && negb (Nat.eqb n 247)))%bool
  then Some (String (ascii_of_nat (n - 32)) EmptyString)
  else if Nat.eqb n 223 then Some "SS"
  else if (Nat.eqb n 181 || Nat.eqb n 255)%bool then None
  else Some (String c EmptyString).

(** [str.upper], for a text whose upper-casing is 8-bit text again.  The
    program does not call it: it tells what the capitals of a phrase
    are. *)
Fixpoint upper (s : string) : option string :=
  match s with
  | EmptyString => Some EmptyString
  | String c s' =>
      match upper_char c, upper s' with
      | Some u, Some us => Some (u ++ us)
      | _, _ => None
      end
  end.

Definition startswith (s p : string) : bool := String.prefix p s.

(** [p in t] *)
Fixpoint str_in (p t : string) : bool :=
  match t with
  | EmptyString => String.prefix p EmptyString
  | String _ t' => String.prefix p t || str_in p t'
  end.

(** [s.split(sep)] for a one-character separator *)
Fixpoint split (sep : ascii) (s : string) : list string :=
  match s with
  | EmptyString => [EmptyString]
  | String c s' =>
      if Ascii.eqb c sep then EmptyString :: split sep s'
      else match split sep s' with
           | [] => [String c EmptyString]
           | w :: ws => String c w :: ws
           end
  end.

Definition endswith_char (s : string) (c : ascii) : bool :=
  match String.length s with
  | O => false
  | S n => match String.get n s with
           | Some d => Ascii.eqb c d
           | None => false
           end
  end.

(** [os.path.join(a, b)] on POSIX paths *)
Definition os_path_join (a b : string) : string :=
  if startswith b "/" then b
  else if (String.eqb a "" || endswith_char a "/"%char)%bool then a ++ b
  else a ++ "/" ++ b.

(** Whitespace as [\s] and [str.strip] see it, on 8-bit characters. *)
Definition is_space (c : ascii) : bool :=
  let n := nat_of_ascii c in
  ((Nat.leb 9 n && Nat.leb n 13) || (Nat.leb 28 n && Nat.leb n 32)
   || Nat.eqb n 133 || Nat.eqb n 160)%bool.

(** [re.sub(r'\s+', ' ', s)]; [pending] tells that a run of whitespace
    has been read and its single blank not yet written. *)
Fixpoint collapse_ws (pending : bool) (s : string) : string :=
  match s with
  | EmptyString => if pending then " " else ""
  | String c s' =>
      if is_space c then collapse_ws true s'
      else if pending then String " " (String c (collapse_ws false s'))
      else String c (collapse_ws false s')
  end.

Fixpoint lstrip (s : string) : string :=
  match s with
  | EmptyString => EmptyString
  | String c s' => if is_space c then lstrip s' else s
  end.

Fixpoint rstrip (s : string) : string :=
  match s with
  | EmptyString => EmptyString
  | String c s' =>
      match rstrip s' with
      | EmptyString => if is_space c then EmptyString else String c EmptyString
      | r => String c r
      end
  end.

Definition strip (s : string) : string := rstrip (lstrip s).

Definition dquote : string := String (ascii_of_nat 34) EmptyString.

End Str.

(** ** Configuration *)

Record ContentFilters : Type := mkContentFilters {
  min_text_length : Z;
  allowed_languages : list string;
  blocklist_phrases : list string
}.

Record Config : Type := mkConfig {
  output_dir : string;
  max_workers : Z;
  request_timeout : Z;
  rate_limit_delay : Z;
  user_agents : list string;
  content_filters : ContentFilters;
  storage_formats : list string;
  max_text_storage : Z;
  retry_attempts : Z;
  retry_backoff : Z
}.

Definition CONFIG : Config := {|
  output_dir := "ai_training_data";
  max_workers := 5;
  request_timeout := 15;
  rate_limit_delay := 1;
  user_agents :=
    [ "Mozilla/5.0 (Windows NT 10.0; Win64; x64) ...";
      "Mozilla/5.0 (Macintosh; Intel Mac OS X 10_15_7) ..." ]%string;
  content_filters := {|
    min_text_length := 500;
    allowed_languages := ["en"%string];
    blocklist_phrases := ["lorem ipsum"; "test content"]%string |};
  storage_formats := ["jsonl"; "parquet"]%string;
  max_text_storage := 1000;
  retry_attempts := 3;
  retry_backoff := 2
|}.

(** ** Exceptions, records, events *)

Inductive Exn : Type :=
| IndexError                 (* list index out of range *)
| URLError                   (* urllib could not reach the host *)
| UnicodeDecodeError         (* robots.txt is not UTF-8 *)
| ConnectionError            (* requests: network failure, retries exhausted *)
| RetryError                 (* requests: forced-retry status, retries exhausted *)
| HTTPError (status : Z)     (* raise_for_status *)
| UnidentifiedImageError     (* Image.open *)
| ImageVerifyError           (* img.verify *)
| OSError                    (* a file could not be written *)
| LangDetectException
| MaximumRetryAttempts.      (* Exception("Maximum retry attempts reached.") *)

Record TextRecord : Type := mkTextRecord {
  text_url : string;
  text_content : string;
  text_timestamp : string;
  text_source_domain : string
}.

Record ImageRecord : Type := mkImageRecord {
  image_url : string;
  image_filename : string;
  image_dimensions : Z * Z;
  image_format : string;
  image_source_domain : string;
  image_timestamp : string
}.

Inductive Level : Type := INFO | WARNING | ERROR.

Inductive LogMsg : Type :=
| FlushedTextTo (path : string)
| SavedImage (filename : string)
| ErrorSavingImage (filename : string) (e : Exn)
| ErrorDownloadingImage (url : string) (e : Exn)
| CouldNotReadRobots (domain : string) (e : Exn)
| LanguageDetectionFailed (e : Exn)
| AttemptFailed (attempt : Z) (e : Exn)
| SkippingRobots (url : string)
| ScrapedAndStored (url : string)
| DidNotPassValidation (url : string)
| ErrorScraping (url : string) (e : Exn)
| ErrorInThread (e : Exn).

Inductive FileData : Type :=
| TextBatch (format : string) (df : list TextRecord)
| ImageBytes (content : list byte).

Inductive Event : Type :=
| Log (level : Level) (msg : LogMsg)
| RobotsGet (url : string)
| HttpGet (url : string) (headers : list (string * string))
| Sleep (seconds : Z)
| FileWrite (path : string) (data : FileData) (ok : bool).

(** ** The outside world *)

Inductive RobotsFetch : Type :=
| RobotsRaises (e : Exn)
| RobotsHTTPError (code : Z)
| RobotsBody (allowance : string -> string -> bool).

Inductive HttpOutcome : Type :=
| NetworkError
| Response (status_code : Z) (content : list byte).

Record Soup : Type := mkSoup {
  select_one : string -> option string;     (* text of the first match *)
  get_text : string;
  find_all_img : list (option string)       (* img.get('src') of every <img> *)
}.

Record ImageInfo : Type := mkImageInfo {
  img_format : string;
  img_size : Z * Z
}.

(** Oracles indexed by a number are asked at most once per index: the
    state's [tick] advances at every question, so the world may answer the
    same question differently over time. *)
Record World : Type := mkWorld {
  robots_txt : nat -> string -> RobotsFetch;
  http : nat -> string -> HttpOutcome;
  fs_write_ok : nat -> string -> bool;
  now : nat -> string;
  rand : nat -> nat;
  beautiful_soup : list byte -> Soup;
  textacy_pipeline : string -> string;
  detect : string -> option string;
  image_open : list byte -> option ImageInfo;
  image_verify : list byte -> bool
}.

(** ** State and the exception monad *)

Record State : Type := mkState {
  tick : nat;
  text_storage : list TextRecord;
  image_storage : list ImageRecord;
  trace : list Event                        (* most recent first *)
}.

Definition initial_state : State := mkState 0 [] [] [].

Inductive Outcome (A : Type) : Type :=
| Ok (a : A)
| Raise (e : Exn).
Arguments Ok {A} a.
Arguments Raise {A} e.

Definition M (A : Type) : Type := State -> Outcome A * State.

Definition ret {A} (a : A) : M A := fun st => (Ok a, st).

Definition raise {A} (e : Exn) : M A := fun st => (Raise e, st).

Definition bind {A B} (m : M A) (k : A -> M B) : M B :=
  fun st =>
    match m st with
    | (Ok a, st') => k a st'
    | (Raise e, st') => (Raise e, st')
    end.

(** [try: m  except Exception as e: h e] *)
Definition try_except {A} (m : M A) (h : Exn -> M A) : M A :=
  fun st =>
    match m st with
    | (Ok a, st') => (Ok a, st')
    | (Raise e, st') => h e st'
    end.

Declare Scope py_scope.
Delimit Scope py_scope with py.
Notation "x <- m ;; k" := (bind m (fun x => k))
  (at level 61, m at next level, right associativity) : py_scope.
Notation "m ;; k" := (bind m (fun _ => k))
  (at level 61, right associativity) : py_scope.
Open Scope py_scope.

Definition emit (e : Event) : M unit :=
  fun st => (Ok tt, mkState (tick st) (text_storage st) (image_storage st)
                            (e :: trace st)).

Definition oracle_tick : M nat :=
  fun st => (Ok (tick st), mkState (S (tick st)) (text_storage st)
                                   (image_storage st) (trace st)).

Definition logging (level : Level) (msg : LogMsg) : M unit :=
  emit (Log level msg).

(** [time.sleep] for a delay that is not negative (on a negative one the
    library raises ValueError): the pause is recorded. *)
Definition time_sleep (seconds : Z) : M unit := emit (Sleep seconds).

(** ** The program *)

Section Scraper.

Variable cfg : Config.
Variable W : World.

Definition datetime_now : M string :=
  t <- oracle_tick ;; ret (now W t).

(** [open(path, 'wb').write(...)], [df.to_json], [df.to_parquet]: the
    attempt is recorded with its result, a failed one raises. *)
Definition write_file (path : string) (data : FileData) : M unit :=
  t <- oracle_tick ;;
  emit (FileWrite path data (fs_write_ok W t path)) ;;
  if fs_write_ok W t path then ret tt else raise OSError.

Definition list_in (x : string) (l : list string) : bool :=
  existsb (String.eqb x) l.

(** *** StorageManager *)

Definition set_text_storage (l : list TextRecord) : M unit :=
  fun st => (Ok tt, mkState (tick st) l (image_storage st) (trace st)).

Definition set_image_storage (l : list ImageRecord) : M unit :=
  fun st => (Ok tt, mkState (tick st) (text_storage st) l (trace st)).

Definition flush_format (format : string) (timestamp : string)
    (df : list TextRecord) : M unit :=
  if list_in format (storage_formats cfg) then
    let path := Str.os_path_join (output_dir cfg)
                  ("text_" ++ timestamp ++ "." ++ format)%string in
    write_file path (TextBatch format df) ;;
    logging INFO (FlushedTextTo path)
  else ret tt.

Definition flush_text_storage : M unit :=
  fun st =>
    match text_storage st with
    | [] => (Ok tt, st)
    | df =>
        (timestamp <- datetime_now ;;
         flush_format "jsonl" timestamp df ;;
         flush_format "parquet" timestamp df ;;
         set_text_storage []) st
    end.

Definition store_text (data : TextRecord) : M unit :=
  fun st =>
    let buffer := (text_storage st ++ [data])%list in
    (set_text_storage buffer ;;
     if Z.of_nat (List.length buffer) >=? max_text_storage cfg
     then flush_text_storage else ret tt) st.

Definition store_image (data : ImageRecord) (image_content : list byte)
    : M unit :=
  fun st =>
    (set_image_storage (image_storage st ++ [data])%list ;;
     let image_folder := Str.os_path_join (output_dir cfg) "images" in
     let image_path := Str.os_path_join image_folder (image_filename data) in
     try_except
       (write_file image_path (ImageBytes image_content) ;;
        logging INFO (SavedImage (image_filename data)))
       (fun e => logging ERROR (ErrorSavingImage (image_filename data) e))) st.

(** *** ContentExtractor *)

Fixpoint extract_from (selectors : list string) (soup : Soup) : string :=
  match selectors with
  | [] => get_text soup
  | selector :: rest =>
      match select_one soup selector with
      | Some element_text => element_text
      | None => extract_from rest soup
      end
  end.

Definition extract (soup : Soup) : string :=
  extract_from
    [ "article"; "main";
      ("[role=" ++ Str.dquote ++ "main" ++ Str.dquote ++ "]") ]%string soup.

Definition clean (text : string) : string :=
  Str.strip (Str.collapse_ws false (textacy_pipeline W text)).

(** *** The session and its retrying adapter

    [_init_session] mounts an [HTTPAdapter] whose [Retry] has
    [total = retry_attempts] and
    [status_forcelist = [429, 500, 502, 503, 504]]: one [session.get] sends
    the request, and sends it again after a network error or a response with
    a listed status while retries are left; when none is left it raises.
    The pauses the adapter makes between its requests are not recorded.
    The model is that of a server which answers without redirects, at an
    address that the library takes: the redirects [session.get] would
    follow and the addresses it would refuse before sending are not part
    of it. *)

Definition status_forcelist : list Z := [429; 500; 502; 503; 504].

Definition forced_retry (status : Z) : bool :=
  existsb (Z.eqb status) status_forcelist.

Fixpoint adapter_send (retries : nat) (url : string)
    (headers : list (string * string)) : M (Z * list byte) :=
  t <- oracle_tick ;;
  emit (HttpGet url headers) ;;
  match http W t url with
  | NetworkError =>
      match retries with
      | O => raise ConnectionError
      | S r => adapter_send r url headers
      end
  | Response status body =>
      if forced_retry status then
        match retries with
        | O => raise RetryError
        | S r => adapter_send r url headers
        end
      else ret (status, body)
  end.

Definition session_get (url : string) (headers : list (string * string))
    : M (Z * list byte) :=
  adapter_send (Z.to_nat (retry_attempts cfg)) url headers.

Definition raise_for_status (response : Z * list byte) : M unit :=
  let status := fst response in
  if (400 <=? status) && (status <? 600) then raise (HTTPError status)
  else ret tt.

(** *** ImageDownloader *)

Definition Image_open (content : list byte) : M ImageInfo :=
  match image_open W content with
  | Some img => ret img
  | None => raise UnidentifiedImageError
  end.

Definition filename_of (domain : string) (content : list byte)
    (format : string) : string :=
  (domain ++ "_" ++ Hashlib.hexdigest content ++ "." ++ Str.lower format)%string.

Definition download (url domain : string) : M unit :=
  try_except
    (response <- session_get url [] ;;
     raise_for_status response ;;
     img <- Image_open (snd response) ;;
     (if image_verify W (snd response) then ret tt
      else raise ImageVerifyError) ;;
     img <- Image_open (snd response) ;;
     let filename := filename_of domain (snd response) (img_format img) in
     timestamp <- datetime_now ;;
     let image_data :=
       mkImageRecord url filename (img_size img) (img_format img) domain
                     timestamp in
     store_image image_data (snd response))
    (fun e => logging ERROR (ErrorDownloadingImage url e)).

(** The part of [download] that follows the request, named for the proofs:
    the body of [download] is the request followed by it. *)
Definition download_response (url domain : string)
    (response : Z * list byte) : M unit :=
  raise_for_status response ;;
  img <- Image_open (snd response) ;;
  (if image_verify W (snd response) then ret tt
   else raise ImageVerifyError) ;;
  img <- Image_open (snd response) ;;
  let filename := filename_of domain (snd response) (img_format img) in
  timestamp <- datetime_now ;;
  let image_data :=
    mkImageRecord url filename (img_size img) (img_format img) domain
                  timestamp in
  store_image image_data (snd response).

(** *** AIDataScraper *)

(** urllib.robotparser.RobotFileParser; [entries] stands for the parsed
    rule lines, kept as the allowance they give to an agent and a URL. *)
Record RobotFileParser : Type := mkRobotFileParser {
  rp_url : string;
  disallow_all : bool;
  allow_all : bool;
  last_checked : nat;
  entries : string -> string -> bool
}.

Definition new_RobotFileParser : RobotFileParser :=
  mkRobotFileParser "" false false 0 (fun _ _ => true).

Definition set_url (rp : RobotFileParser) (url : string) : RobotFileParser :=
  mkRobotFileParser url (disallow_all rp) (allow_all rp) (last_checked rp)
                    (entries rp).

Definition rp_read (rp : RobotFileParser) : M RobotFileParser :=
  t <- oracle_tick ;;
  emit (RobotsGet (rp_url rp)) ;;
  match robots_txt W t (rp_url rp) with
  | RobotsRaises e => raise e
  | RobotsHTTPError code =>
      if (code =? 401) || (code =? 403) then
        ret (mkRobotFileParser (rp_url rp) true (allow_all rp)
                               (last_checked rp) (entries rp))
      else if (400 <=? code) && (code <? 500) then
        ret (mkRobotFileParser (rp_url rp) (disallow_all rp) true
                               (last_checked rp) (entries rp))
      else ret rp
  | RobotsBody allowance =>
      ret (mkRobotFileParser (rp_url rp) (disallow_all rp) (allow_all rp)
                             (S t) allowance)
  end.

Definition can_fetch (rp : RobotFileParser) (useragent url : string) : bool :=
  if disallow_all rp then false
  else if allow_all rp then true
  else if Nat.eqb (last_checked rp) 0 then false
  else entries rp useragent url.

Definition get_robots_parser (domain : string) : M RobotFileParser :=
  let rp := set_url new_RobotFileParser (domain ++ "/robots.txt")%string in
  try_except (rp_read rp)
    (fun e => logging WARNING (CouldNotReadRobots domain e) ;; ret rp).

Fixpoint blocklisted (phrases : list string) (text : string) : bool :=
  match phrases with
  | [] => false
  | phrase :: rest =>
      if Str.str_in (Str.lower phrase) (Str.lower text) then true
      else blocklisted rest text
  end.

Definition validate_content (text : string) : M bool :=
  if Z.of_nat (String.length text) <? min_text_length (content_filters cfg)
  then ret false
  else if blocklisted (blocklist_phrases (content_filters cfg)) text
  then ret false
  else
    try_except
      (match detect W text with
       | Some lang =>
           if negb (list_in lang (allowed_languages (content_filters cfg)))
           then ret false else ret true
       | None => raise LangDetectException
       end)
      (fun e => logging WARNING (LanguageDetectionFailed e) ;; ret false).

Fixpoint retry_loop {A} (func : M A) (attempts backoff : Z)
    (range : list Z) : M A :=
  match range with
  | [] => raise MaximumRetryAttempts
  | attempt :: rest =>
      try_except func
        (fun e =>
           logging ERROR (AttemptFailed attempt e) ;;
           (if attempt <? attempts then time_sleep (backoff ^ attempt)
            else ret tt) ;;
           retry_loop func attempts backoff rest)
  end.

(** [range(1, attempts + 1)] *)
Definition range1 (attempts : Z) : list Z :=
  map Z.of_nat (seq 1 (Z.to_nat attempts)).

Definition retry_request {A} (func : M A) : M A :=
  retry_loop func (retry_attempts cfg) (retry_backoff cfg)
             (range1 (retry_attempts cfg)).

Definition random_choice (l : list string) : M string :=
  t <- oracle_tick ;;
  match nth_error l (Nat.modulo (rand W t) (List.length l)) with
  | Some x => ret x
  | None => raise IndexError
  end.

Definition wants_download (img_url : option string) : bool :=
  match img_url with
  | Some src => negb (String.eqb src "") && Str.startswith src "http"
  | None => false
  end.

Fixpoint process_images (imgs : list (option string)) (domain : string)
    : M unit :=
  match imgs with
  | [] => ret tt
  | img_url :: rest =>
      (match img_url with
       | Some src =>
           if negb (String.eqb src "") && Str.startswith src "http"
           then download src domain else ret tt
       | None => ret tt
       end) ;;
      process_images rest domain
  end.

Definition url_domain (url : string) : option string :=
  nth_error (Str.split "/" url) 2.

Definition scrape_body (url : string) : M unit :=
  domain <- match url_domain url with
            | Some d => ret d
            | None => raise IndexError
            end ;;
  rp <- get_robots_parser ("https://" ++ domain)%string ;;
  if negb (can_fetch rp "*" url) then
    logging WARNING (SkippingRobots url)
  else
    user_agent <- random_choice (user_agents cfg) ;;
    let headers := [ ("User-Agent", user_agent);
                     ("Accept-Language", "en-US,en;q=0.9") ]%string in
    time_sleep (rate_limit_delay cfg) ;;
    response <- retry_request (session_get url headers) ;;
    raise_for_status response ;;
    let soup := beautiful_soup W (snd response) in
    let raw_text := extract soup in
    let cleaned_text := clean raw_text in
    valid <- validate_content cleaned_text ;;
    (if valid then
       timestamp <- datetime_now ;;
       store_text (mkTextRecord url cleaned_text timestamp domain) ;;
       logging INFO (ScrapedAndStored url)
     else logging INFO (DidNotPassValidation url)) ;;
    process_images (find_all_img soup) domain.

Definition scrape_page (url : string) : M unit :=
  try_except (scrape_body url)
             (fun e => logging ERROR (ErrorScraping url e)).

(** The part of [scrape_body] that follows the robots.txt lookup, named for
    the proofs: [scrape_body] is the lookup followed by it. *)
Definition after_robots (url domain : string) (rp : RobotFileParser) : M unit :=
  if negb (can_fetch rp "*" url) then
    logging WARNING (SkippingRobots url)
  else
    user_agent <- random_choice (user_agents cfg) ;;
    let headers := [ ("User-Agent", user_agent);
                     ("Accept-Language", "en-US,en;q=0.9") ]%string in
    time_sleep (rate_limit_delay cfg) ;;
    response <- retry_request (session_get url headers) ;;
    raise_for_status response ;;
    let soup := beautiful_soup W (snd response) in
    let cleaned_text := clean (extract soup) in
    valid <- validate_content cleaned_text ;;
    (if valid then
       timestamp <- datetime_now ;;
       store_text (mkTextRecord url cleaned_text timestamp domain) ;;
       logging INFO (ScrapedAndStored url)
     else logging INFO (DidNotPassValidation url)) ;;
    process_images (find_all_img soup) domain.

(** [run]: the tasks of the pool, taken one after the other in the order
    of the seed list; [future.result()] is guarded for each of them. *)
Fixpoint run (seed_urls : list string) : M unit :=
  match seed_urls with
  | [] => ret tt
  | url :: rest =>
      try_except (scrape_page url)
                 (fun e => logging ERROR (ErrorInThread e)) ;;
      run rest
  end.

(** The main block: the run, then the flush of what is left. *)
Definition main (seed_urls : list string) : M unit :=
  run seed_urls ;;
  flush_text_storage.

End Scraper.

(** ** Observations on states and traces *)

Definition is_robots_get (u : string) (e : Event) : bool :=
  match e with
  | RobotsGet u' => String.eqb u' u
  | _ => false
  end.

Definition is_http_get (u : string) (e : Event) : bool :=
  match e with
  | HttpGet u' _ => String.eqb u' u
  | _ => false
  end.

Definition is_attempt_failed (e : Event) : bool :=
  match e with
  | Log ERROR (AttemptFailed _ _) => true
  | _ => false
  end.

Definition is_image_event (e : Event) : bool :=
  match e with
  | FileWrite _ (ImageBytes _) _ => true
  | Log _ (SavedImage _) => true
  | Log _ (ErrorSavingImage _ _) => true
  | Log _ (ErrorDownloadingImage _ _) => true
  | _ => false
  end.

(** Number of events of the trace that satisfy [p]. *)
Definition count (p : Event -> bool) (st : State) : nat :=
  List.length (filter p (trace st)).

(** The robots.txt address a task asks for, when its URL has a domain. *)
Definition robots_url_of (url : string) : option string :=
  match url_domain url with
  | Some d => Some ("https://" ++ d ++ "/robots.txt")%string
  | None => None
  end.

Definition asks_robots (u url : string) : bool :=
  match robots_url_of url with
  | Some u' => String.eqb u' u
  | None => false
  end.

(** Bytes handed to the file system for images, most recent first. *)
Fixpoint image_writes (tr : list Event) : list (string * list byte) :=
  match tr with
  | [] => []
  | FileWrite path (ImageBytes content) _ :: tr' =>
      (path, content) :: image_writes tr'
  | _ :: tr' => image_writes tr'
  end.

(** Batches handed to the file system, most recent first. *)
Fixpoint text_writes (tr : list Event)
    : list (string * list TextRecord * bool) :=
  match tr with
  | [] => []
  | FileWrite _ (TextBatch format df) ok :: tr' =>
      (format, df, ok) :: text_writes tr'
  | _ :: tr' => text_writes tr'
  end.

(** [download] has stored the record [r] for the bytes [c]: the record is
    appended to the image ledger and [c] is written under its file name. *)
Definition acquired (cfg : Config) (W : World) (url domain : string)
    (st : State) (c : list byte) (r : ImageRecord) : Prop :=
  let st' := snd (download cfg W url domain st) in
  image_storage st' = (image_storage st ++ [r])%list
  /\ image_writes (trace st')
     = (Str.os_path_join (Str.os_path_join (output_dir cfg) "images")
                         (image_filename r), c) :: image_writes (trace st).

(** [phrase] occurs in [text] up to [str.lower]: a part of the text has
    the lower-casing of the phrase. *)
Definition occurs_up_to_lower (phrase text : string) : Prop :=
  exists before s after,
    text = (before ++ s ++ after)%string /\ Str.lower s = Str.lower phrase.

(** ** Concrete worlds

    Small worlds on which the program is run in the examples. *)

Definition article_text : string :=
  String.concat "" (repeat "plain word"%string 60).


Definition png_bytes : list byte :=
  [x89; "P"; "N"; "G"; x0d; x0a; x1a; x0a; x01; x02]%byte.

Definition gif_bytes : list byte :=
  ["G"; "I"; "F"; "8"; "9"; "a"; x01; x02]%byte.

Definition starts_with_bytes (p l : list byte) : bool :=
  if list_eq_dec Byte.byte_eq_dec (firstn (List.length p) l) p
  then true else false.

(** A decoder that looks at the signature only. *)
Definition sniff_image (content : list byte) : option ImageInfo :=
  if starts_with_bytes [x89; "P"; "N"; "G"]%byte content
  then Some (mkImageInfo "PNG" (1, 1))
  else if starts_with_bytes ["G"; "I"; "F"]%byte content
  then Some (mkImageInfo "GIF" (1, 1))
  else None.

Definition permit_all : RobotsFetch := RobotsBody (fun _ _ => true).

Definition article_page (imgs : list (option string)) : Soup :=
  mkSoup (fun selector =>
            if String.eqb selector "article" then Some article_text else None)
         article_text imgs.

(** A world whose robots.txt, server and pages do not change over time;
    every file write succeeds and every text is detected as English. *)
Definition steady_world (robots : string -> RobotsFetch)
    (server : string -> HttpOutcome) (page : list byte -> Soup) : World := {|
  robots_txt := fun _ => robots;
  http := fun _ => server;
  fs_write_ok := fun _ _ => true;
  now := fun t => ("t" ++ NilZero.string_of_uint (Nat.to_uint t))%string;
  rand := fun t => t;
  beautiful_soup := page;
  textacy_pipeline := fun text => text;
  detect := fun _ => Some "en"%string;
  image_open := sniff_image;
  image_verify := fun _ => true
|}.

(** One page answers 200 with an article, everything else answers 404. *)
Definition one_good_page (good : string) (url : string) : HttpOutcome :=
  if String.eqb url good then Response 200 (list_byte_of_string "<article>")
  else Response 404 [].

Definition world_two_pages : World :=
  steady_world (fun _ => permit_all)
               (one_good_page "https://good.example/a")
               (fun _ => article_page []).

(** robots.txt cannot be fetched: the host of robots.txt is unreachable. *)
Definition world_robots_unreachable : World :=
  steady_world (fun _ => RobotsRaises URLError)
               (one_good_page "https://example.com/article1")
               (fun _ => article_page []).

(** The two seed URLs of the main block, both served. *)
Definition world_example_com : World :=
  steady_world (fun _ => permit_all)
               (fun _ => Response 200 (list_byte_of_string "<article>"))
               (fun _ => article_page []).

(** A server that answers 503 to every request. *)
Definition world_503 : World :=
  steady_world (fun _ => permit_all) (fun _ => Response 503 [])
               (fun _ => article_page []).

(** A page with a valid PNG, an image that answers 404, a relative
    source and an <img> without src. *)
Definition server_with_images (url : string) : HttpOutcome :=
  if String.eqb url "https://page.example/post"
  then Response 200 (list_byte_of_string "<article>")
  else if String.eqb url "https://img.example/ok.png"
  then Response 200 png_bytes
  else if String.eqb url "https://img.example/copy.png"
  then Response 200 png_bytes
  else if String.eqb url "https://img.example/anim.gif"
  then Response 200 gif_bytes
  else Response 404 [].


(** ** PNG files

    A decoder after what [Image.open] and [verify] check of a PNG file:
    the eight bytes of the signature, then chunks made of a length, a
    type, the data and the CRC-32 of type and data; the first chunk is
    IHDR with its thirteen bytes, an image data chunk IDAT comes before
    the closing chunk IEND.  The decoder asks for all of this, and for a
    header of an 8-bit image of at least one pixel without interlacing.
    It is used on files of 120 bytes with one text chunk; the limits the
    library puts on large images and large text chunks are not part of
    it. *)
Module Png.

Definition to_Z (b : byte) : Z := Z.of_N (Byte.to_N b).

Definition of_Z (v : Z) : byte :=
  match Byte.of_N (Z.to_N (v mod 256)) with
  | Some b => b
  | None => x00
  end.

(** [zlib.crc32]: the CRC-32 of the PNG standard, one bit at a time. *)
Fixpoint crc_shift (n : nat) (c : Z) : Z :=
  match n with
  | O => c
  | S n' =>
      crc_shift n' (if Z.odd c then Z.lxor (Z.shiftr c 1) 0xEDB88320
                    else Z.shiftr c 1)
  end.

Definition crc_step (c : Z) (b : byte) : Z := crc_shift 8 (Z.lxor c (to_Z b)).

Definition crc32 (data : list byte) : Z :=
  Z.lxor (fold_left crc_step data 0xFFFFFFFF) 0xFFFFFFFF.

(** A 32-bit number as four bytes, most significant first, and back. *)
Definition o32 (v : Z) : list byte :=
  [of_Z (v / 2 ^ 24); of_Z (v / 2 ^ 16); of_Z (v / 2 ^ 8); of_Z v].

Definition i32 (l : list byte) : Z :=
  to_Z (nth 0 l x00) * 2 ^ 24 + to_Z (nth 1 l x00) * 2 ^ 16
  + to_Z (nth 2 l x00) * 2 ^ 8 + to_Z (nth 3 l x00).

Definition magic : list byte := [x89; "P"; "N"; "G"; x0d; x0a; x1a; x0a]%byte.

Definition IHDR : list byte := ["I"; "H"; "D"; "R"]%byte.
Definition IDAT : list byte := ["I"; "D"; "A"; "T"]%byte.
Definition IEND : list byte := ["I"; "E"; "N"; "D"]%byte.
Definition tEXt : list byte := ["t"; "E"; "X"; "t"]%byte.

(** A chunk as it is written in a file. *)
Definition chunk (cid data : list byte) : list byte :=
  (o32 (Z.of_nat (List.length data)) ++ cid ++ data
   ++ o32 (crc32 (cid ++ data)))%list.

Definition same_bytes (a b : list byte) : bool :=
  if list_eq_dec Byte.byte_eq_dec a b then true else false.

(** The chunk at the head of [l]: its type, its data and what follows it,
    when the data is all there and the CRC is right. *)
Definition read_chunk (l : list byte)
    : option (list byte * list byte * list byte) :=
  match l with
  | l0 :: l1 :: l2 :: l3 :: c0 :: c1 :: c2 :: c3 :: body =>
      let n := Z.to_nat (i32 [l0; l1; l2; l3]) in
      let cid := [c0; c1; c2; c3] in
      let data := firstn n body in
      let crc := firstn 4 (skipn n body) in
      if Nat.leb (n + 4) (List.length body)
         && (i32 crc =? crc32 (cid ++ data))
      then Some (cid, data, skipn 4 (skipn n body))
      else None
  | _ => None
  end.

(** The chunks after the header: each one is well formed, and IDAT has
    been met when IEND is. *)
Fixpoint rest_ok (fuel : nat) (seen_idat : bool) (l : list byte) : bool :=
  match fuel with
  | O => false
  | S fuel' =>
      match read_chunk l with
      | None => false
      | Some (cid, data, rest) =>
          if same_bytes cid IEND then seen_idat
          else rest_ok fuel' (seen_idat || same_bytes cid IDAT) rest
      end
  end.

(** The header: thirteen bytes, a width and a height of at least one
    pixel, a bit depth of 8, grey, RGB or RGBA, the one compression method
    and filter method, no interlacing. *)
Definition header_ok (data : list byte) : bool :=
  Nat.eqb (List.length data) 13
  && (1 <=? i32 (firstn 4 data)) && (1 <=? i32 (firstn 4 (skipn 4 data)))
  && (to_Z (nth 8 data x00) =? 8)
  && ((to_Z (nth 9 data x00) =? 0) || (to_Z (nth 9 data x00) =? 2)
      || (to_Z (nth 9 data x00) =? 6))
  && (to_Z (nth 10 data x00) =? 0)
  && (to_Z (nth 11 data x00) =? 0)
  && (to_Z (nth 12 data x00) =? 0).

Definition decode (content : list byte) : option ImageInfo :=
  if same_bytes (firstn 8 content) magic then
    match read_chunk (skipn 8 content) with
    | Some (cid, data, rest) =>
        if same_bytes cid IHDR && header_ok data
           && rest_ok (List.length rest) false rest
        then Some (mkImageInfo "PNG"
                     (i32 (firstn 4 data), i32 (firstn 4 (skipn 4 data))))
        else None
    | None => None
    end
  else None.

Definition verify (content : list byte) : bool :=
  match decode content with
  | Some _ => true
  | None => false
  end.

(** [k] bytes of a number, least significant first, and back. *)
Fixpoint le_bytes (k : nat) (v : Z) : list byte :=
  match k with
  | O => []
  | S k' => of_Z v :: le_bytes k' (v / 256)
  end.

Fixpoint le_value (l : list byte) : Z :=
  match l with
  | [] => 0
  | b :: l' => to_Z b + 256 * le_value l'
  end.

(** The header of a grey image of one pixel, and its image data: the
    compressed scan line of that pixel. *)
Definition header_1x1 : list byte :=
  [x00; x00; x00; x01; x00; x00; x00; x01; x08; x00; x00; x00; x00]%byte.

Definition data_1x1 : list byte :=
  [x78; x9c; x63; x60; x00; x00; x00; x02; x00; x01]%byte.

(** The data of a text chunk: the keyword Comment, a zero byte and a text
    of 33 bytes that holds the number [n]. *)
Definition comment (n : nat) : list byte :=
  (["C"; "o"; "m"; "m"; "e"; "n"; "t"; x00]%byte
   ++ le_bytes 33 (Z.of_nat n))%list.

(** A PNG file of 120 bytes: a grey image of one pixel with a comment. *)
Definition with_comment (n : nat) : list byte :=
  (magic ++ chunk IHDR header_1x1 ++ chunk tEXt (comment n)
   ++ chunk IDAT data_1x1 ++ chunk IEND [])%list.

End Png.

Arguments Png.crc32 : simpl never.

(** A world in which images are decoded as PNG files and two image
    addresses are served with the bytes [c1] and [c2]. *)
Definition world_png_images (c1 c2 : list byte) : World := {|
  robots_txt := fun _ _ => permit_all;
  http := fun _ url => if String.eqb url "https://img.example/one.png"
                       then Response 200 c1 else Response 200 c2;
  fs_write_ok := fun _ _ => true;
  now := fun t => ("t" ++ NilZero.string_of_uint (Nat.to_uint t))%string;
  rand := fun t => t;
  beautiful_soup := fun _ => article_page [];
  textacy_pipeline := fun text => text;
  detect := fun _ => Some "en"%string;
  image_open := Png.decode;
  image_verify := Png.verify
|}.

(** The configuration of the source with a batch of two records. *)
Definition config_batch_of_two : Config :=
  mkConfig (output_dir CONFIG) (max_workers CONFIG) (request_timeout CONFIG)
           (rate_limit_delay CONFIG) (user_agents CONFIG)
           (content_filters CONFIG) (storage_formats CONFIG) 2
           (retry_attempts CONFIG) (retry_backoff CONFIG).

Definition sample_record (n : Z) : TextRecord :=
  mkTextRecord "https://good.example/a" article_text
               (if n =? 1 then "t1" else "t2") "good.example".

(** The batches one flush of [df] hands to the file system when every
    write succeeds, most recent first. *)
Definition flush_batches (cfg : Config) (df : list TextRecord)
    : list (string * list TextRecord * bool) :=
  ((if list_in "parquet" (storage_formats cfg)
    then [("parquet"%string, df, true)] else [])
   ++ (if list_in "jsonl" (storage_formats cfg)
       then [("jsonl"%string, df, true)] else []))%list.

Definition one_buffered : State := mkState 0 [sample_record 1] [] [].

Definition images_of_post : list (option string) :=
  [ Some "https://img.example/ok.png"; Some "https://img.example/gone.png";
    Some "/static/logo.png"; None ]%string.

Definition world_images : World :=
  steady_world (fun _ => permit_all) server_with_images
               (fun _ => article_page images_of_post).

Definition is_error_scraping (e : Event) : bool :=
  match e with
  | Log ERROR (ErrorScraping _ _) => true
  | _ => false
  end.

(** The server answers every request for [url] with status 503. *)
Definition always_503 (W : World) (url : string) : Prop :=
  forall t, exists content, http W t url = Response 503 content.

Definition two_seeds : list string :=
  [ "https://good.example/a"; "https://bad.example/missing" ]%string.

Definition browser_headers : list (string * string) :=
  [ ("User-Agent", "Mozilla/5.0 (Windows NT 10.0; Win64; x64) ...");
    ("Accept-Language", "en-US,en;q=0.9") ]%string.

(** Each working word of a hash state is a 32-bit number. *)
Definition words_ok (s : Hashlib.Words8) : Prop :=
  0 <= Hashlib.wa s < 2 ^ 32 /\ 0 <= Hashlib.wb s < 2 ^ 32
  /\ 0 <= Hashlib.wc s < 2 ^ 32 /\ 0 <= Hashlib.wd s < 2 ^ 32
  /\ 0 <= Hashlib.we s < 2 ^ 32 /\ 0 <= Hashlib.wf s < 2 ^ 32
  /\ 0 <= Hashlib.wg s < 2 ^ 32 /\ 0 <= Hashlib.wh s < 2 ^ 32.

(** The number of values a digest can take. *)
Definition digest_space : Z := 2 ^ 256.

Definition png_record (url : string) : ImageRecord :=
  mkImageRecord url
    "page.example_b7c23e74a00c13aa5dd34e3ec6f1999483a340aeebc4f054fad4c98bc66d3e35.png"
    (1, 1) "PNG" "page.example" "t1".

(** ** Further observations

    Definitions used by the properties of the storage manager, the
    cleaner, the validator and the retry loop. *)

(** A sequence of [store_text] calls, one for each record. *)
Fixpoint store_all (cfg : Config) (W : World) (records : list TextRecord)
    : M unit :=
  match records with
  | [] => ret tt
  | data :: rest => store_text cfg W data ;; store_all cfg W rest
  end.

Definition batch_of (format : string)
    (w : string * list TextRecord * bool) : list TextRecord :=
  if String.eqb (fst (fst w)) format && snd w then snd (fst w) else [].

(** The records written so far in files of [format], oldest first. *)
Definition written (format : string) (tr : list Event) : list TextRecord :=
  List.concat (rev (map (batch_of format) (text_writes tr))).

(** A world in which no file can be written. *)
Definition world_disk_full : World := {|
  robots_txt := robots_txt world_two_pages;
  http := http world_two_pages;
  fs_write_ok := fun _ _ => false;
  now := now world_two_pages;
  rand := rand world_two_pages;
  beautiful_soup := beautiful_soup world_two_pages;
  textacy_pipeline := textacy_pipeline world_two_pages;
  detect := detect world_two_pages;
  image_open := image_open world_two_pages;
  image_verify := image_verify world_two_pages
|}.

(** The configuration of the source with an output format the storage
    manager does not know. *)
Definition config_csv_only : Config :=
  mkConfig (output_dir CONFIG) (max_workers CONFIG) (request_timeout CONFIG)
           (rate_limit_delay CONFIG) (user_agents CONFIG)
           (content_filters CONFIG) ["csv"%string] (max_text_storage CONFIG)
           (retry_attempts CONFIG) (retry_backoff CONFIG).

(** The selectors before the first match all miss. *)
Definition first_match (soup : Soup) (selectors : list string)
    (selector text : string) : Prop :=
  exists before after,
    selectors = (before ++ selector :: after)%list
    /\ Forall (fun s => select_one soup s = None) before
    /\ select_one soup selector = Some text.

(** Every whitespace character of [s] is a blank, no two blanks follow
    each other, and [s] does not start with a blank when [after_space]. *)
Fixpoint single_spaced (after_space : bool) (s : string) : bool :=
  match s with
  | EmptyString => true
  | String c s' =>
      if Str.is_space c
      then Ascii.eqb c " " && negb after_space && single_spaced true s'
      else single_spaced false s'
  end.

(** [s] does not end with a whitespace character. *)
Fixpoint ends_clean (s : string) : bool :=
  match s with
  | EmptyString => true
  | String c EmptyString => negb (Str.is_space c)
  | String _ s' => ends_clean s'
  end.

Definition well_spaced (s : string) : bool :=
  single_spaced true s && ends_clean s.

(** The decision of [validate_content], as a function of the text. *)
Definition accepts (cfg : Config) (W : World) (text : string) : bool :=
  (min_text_length (content_filters cfg) <=? Z.of_nat (String.length text))
  && negb (blocklisted (blocklist_phrases (content_filters cfg)) text)
  && match detect W text with
     | Some lang => list_in lang (allowed_languages (content_filters cfg))
     | None => false
     end.

(** The pauses of the trace, most recent first. *)
Fixpoint sleeps (tr : list Event) : list Z :=
  match tr with
  | [] => []
  | Sleep seconds :: tr' => seconds :: sleeps tr'
  | _ :: tr' => sleeps tr'
  end.

Definition same_sleeps (st st' : State) : Prop :=
  sleeps (trace st') = sleeps (trace st).

Definition not_sleep (e : Event) : Prop :=
  match e with
  | Sleep _ => False
  | _ => True
  end.

(** The configuration of the source with [retry_attempts] set to 0. *)
Definition config_no_attempts : Config :=
  mkConfig (output_dir CONFIG) (max_workers CONFIG) (request_timeout CONFIG)
           (rate_limit_delay CONFIG) (user_agents CONFIG)
           (content_filters CONFIG) (storage_formats CONFIG)
           (max_text_storage CONFIG) 0 (retry_backoff CONFIG).

(** A server that answers 503 to the first request and 200 afterwards. *)
Definition world_flaky : World := {|
  robots_txt := robots_txt world_two_pages;
  http := fun t _ =>
            if Nat.eqb t 0 then Response 503 []
            else Response 200 (list_byte_of_string "<article>");
  fs_write_ok := fs_write_ok world_two_pages;
  now := now world_two_pages;
  rand := rand world_two_pages;
  beautiful_soup := beautiful_soup world_two_pages;
  textacy_pipeline := textacy_pipeline world_two_pages;
  detect := detect world_two_pages;
  image_open := image_open world_two_pages;
  image_verify := image_verify world_two_pages
|}.

(** What [can_fetch] answers once [read] has met the outcome [r]. *)
Definition permitted (r : RobotsFetch) (useragent url : string) : bool :=
  match r with
  | RobotsRaises _ => false
  | RobotsHTTPError code =>
      (400 <=? code) && (code <? 500)
      && negb ((code =? 401) || (code =? 403))
  | RobotsBody allowance => allowance useragent url
  end.

(** robots.txt forbids everything under /private. *)
Definition world_private_area : World :=
  steady_world
    (fun _ => RobotsBody (fun _ url => negb (Str.str_in "/private" url)))
    (fun _ => Response 200 (list_byte_of_string "<article>"))
    (fun _ => article_page []).

(** robots.txt does not exist. *)
Definition world_no_robots : World :=
  steady_world (fun _ => RobotsHTTPError 404)
               (fun _ => Response 200 (list_byte_of_string "<article>"))
               (fun _ => article_page []).

(** [c in s] for a character. *)
Fixpoint has_char (c : ascii) (s : string) : bool :=
  match s with
  | EmptyString => false
  | String d s' => Ascii.eqb d c || has_char c s'
  end.

(** [s.count(c)] for a character. *)
Fixpoint occurrences (c : ascii) (s : string) : nat :=
  match s with
  | EmptyString => 0
  | String d s' => ((if Ascii.eqb d c then 1 else 0) + occurrences c s')%nat
  end.

(** The configuration of the source with an empty pool of user agents. *)
Definition config_no_agents : Config :=
  mkConfig (output_dir CONFIG) (max_workers CONFIG) (request_timeout CONFIG)
           (rate_limit_delay CONFIG) [] (content_filters CONFIG)
           (storage_formats CONFIG) (max_text_storage CONFIG)
           (retry_attempts CONFIG) (retry_backoff CONFIG).

(** The part of a task that follows the response, named for the proofs:
    after [raise_for_status] the body of [scrape_page] goes on with it. *)
Definition text_and_images (cfg : Config) (W : World) (url domain : string)
    (content : list byte) : M unit :=
  let soup := beautiful_soup W content in
  let cleaned_text := clean W (extract soup) in
  valid <- validate_content cfg W cleaned_text ;;
  (if valid then
     timestamp <- datetime_now W ;;
     store_text cfg W (mkTextRecord url cleaned_text timestamp domain) ;;
     logging INFO (ScrapedAndStored url)
   else logging INFO (DidNotPassValidation url)) ;;
  process_images cfg W (find_all_img soup) domain.

(** The text a task obtains from the bytes of a page. *)
Definition page_text (W : World) (content : list byte) : string :=
  clean W (extract (beautiful_soup W content)).

(** A page too short to be kept, with one image. *)
Definition world_short_page : World :=
  steady_world (fun _ => permit_all) server_with_images
    (fun _ => mkSoup (fun _ => None) "too short"
                     [Some "https://img.example/ok.png"%string]).

(** A world in which parquet files cannot be written (the other writes
    succeed). *)
Definition world_no_parquet : World := {|
  robots_txt := robots_txt world_two_pages;
  http := http world_two_pages;
  fs_write_ok := fun _ path => negb (Str.str_in ".parquet" path);
  now := now world_two_pages;
  rand := rand world_two_pages;
  beautiful_soup := beautiful_soup world_two_pages;
  textacy_pipeline := textacy_pipeline world_two_pages;
  detect := detect world_two_pages;
  image_open := image_open world_two_pages;
  image_verify := image_verify world_two_pages
|}.

(** The path of the file of [format] that a flush starting at [st]
    writes. *)
Definition flush_path (cfg : Config) (W : World) (st : State)
    (format : string) : string :=
  Str.os_path_join (output_dir cfg)
    ("text_" ++ now W (tick st) ++ "." ++ format)%string.

(** The language detector is asked about [text] and fails: the text is
    long enough, holds no blocklist phrase, and [detect] raises. *)
Definition detection_fails (cfg : Config) (W : World) (text : string) : bool :=
  (min_text_length (content_filters cfg) <=? Z.of_nat (String.length text))
  && negb (blocklisted (blocklist_phrases (content_filters cfg)) text)
  && match detect W text with
     | Some _ => false
     | None => true
     end.

(** The server answers every request for [url] with [status] and the
    bytes [c]. *)
Definition answers (W : World) (url : string) (status : Z) (c : list byte)
    : Prop :=
  forall t, http W t url = Response status c.

(** A status on which [raise_for_status] raises. *)
Definition error_status (status : Z) : bool :=
  (400 <=? status) && (status <? 600).

(** Why the image at [src] cannot be acquired, with the error [download]
    then meets: the network fails at every request; the server keeps
    answering with a status of the retry list; it answers with another
    error status; it answers 200 with bytes that [Image.open] does not
    identify; it answers 200 with bytes that [verify] refuses. *)
Inductive fails_with (W : World) (src : string) : Exn -> Prop :=
| fails_network :
    (forall t, http W t src = NetworkError) ->
    fails_with W src ConnectionError
| fails_retries :
    (forall t, exists status c,
       http W t src = Response status c /\ forced_retry status = true) ->
    fails_with W src RetryError
| fails_status (status : Z) (c : list byte) :
    answers W src status c ->
    forced_retry status = false ->
    error_status status = true ->
    fails_with W src (HTTPError status)
| fails_open (c : list byte) :
    answers W src 200 c ->
    image_open W c = None ->
    fails_with W src UnidentifiedImageError
| fails_verify (c : list byte) (i : ImageInfo) :
    answers W src 200 c ->
    image_open W c = Some i ->
    image_verify W c = false ->
    fails_with W src ImageVerifyError.

(** The requests one [session.get] has sent when it ends with [e]: all the
    adapter may send when it gives up, one otherwise. *)
Definition requests_sent (cfg : Config) (e : Exn) : nat :=
  match e with
  | ConnectionError | RetryError => S (Z.to_nat (retry_attempts cfg))
  | _ => 1
  end.

(** The sources the image loop downloads from, in the order of the page. *)
Fixpoint sources (imgs : list (option string)) : list string :=
  match imgs with
  | [] => []
  | Some src :: rest =>
      if wants_download (Some src) then src :: sources rest
      else sources rest
  | None :: rest => sources rest
  end.

(** The image errors of the log, most recent first. *)
Fixpoint download_errors (tr : list Event) : list (string * Exn) :=
  match tr with
  | [] => []
  | Log _ (ErrorDownloadingImage url e) :: tr' =>
      (url, e) :: download_errors tr'
  | _ :: tr' => download_errors tr'
  end.

(** The record [download] stores for the image at [url] with the bytes
    [c], decoded as [i], at the time [timestamp]. *)
Definition image_record (url domain : string) (c : list byte)
    (i : ImageInfo) (timestamp : string) : ImageRecord :=
  mkImageRecord url (filename_of domain c (img_format i)) (img_size i)
                (img_format i) domain timestamp.

(** A record without its time. *)
Definition undated (r : ImageRecord) : ImageRecord :=
  mkImageRecord (image_url r) (image_filename r) (image_dimensions r)
                (image_format r) (image_source_domain r) "".

(** robots.txt of the domain permits [url] at whatever time it is read. *)
Definition robots_permit (W : World) (domain url : string) : Prop :=
  forall t,
    permitted (robots_txt W t ("https://" ++ domain ++ "/robots.txt")%string)
              "*" url = true.

(** A page that a task can keep: its URL has a domain, robots.txt permits
    it, the server answers 200 with [content], and the text of the page
    passes [validate_content]. *)
Definition good_page (cfg : Config) (W : World) (url : string)
    (content : list byte) : Prop :=
  (exists domain, url_domain url = Some domain /\ robots_permit W domain url)
  /\ answers W url 200 content
  /\ accepts cfg W (page_text W content) = true.

(** Why the task of [url] fails, with the error raised in it: the URL has
    no domain; the server answers with an error status outside the retry
    list; the network fails at every request; the server keeps answering
    with a status of the retry list. *)
Inductive task_fails_with (W : World) (url : string) : Exn -> Prop :=
| task_no_domain :
    url_domain url = None ->
    task_fails_with W url IndexError
| task_error_status (domain : string) (status : Z) (c : list byte) :
    url_domain url = Some domain ->
    robots_permit W domain url ->
    answers W url status c ->
    forced_retry status = false ->
    error_status status = true ->
    task_fails_with W url (HTTPError status)
| task_unreachable (domain : string) :
    url_domain url = Some domain ->
    robots_permit W domain url ->
    (forall t, http W t url = NetworkError) ->
    task_fails_with W url MaximumRetryAttempts
| task_overloaded (domain : string) :
    url_domain url = Some domain ->
    robots_permit W domain url ->
    (forall t, exists status c,
       http W t url = Response status c /\ forced_retry status = true) ->
    task_fails_with W url MaximumRetryAttempts.

(** The state in which the task of [url] leaves [st]. *)
Definition task (cfg : Config) (W : World) (st : State) (url : string)
    : State :=
  snd (scrape_page cfg W url st).

(** The headers of the request for a page. *)
Definition request_headers (agent : string) : list (string * string) :=
  [ ("User-Agent", agent); ("Accept-Language", "en-US,en;q=0.9") ]%string.

(** The part of a task that follows the request, named for the proofs. *)
Definition after_response (cfg : Config) (W : World) (url domain : string)
    (response : Z * list byte) : M unit :=
  raise_for_status response ;;
  text_and_images cfg W url domain (snd response).

(** A page that a task fetches and does not keep: as a good page, but its
    text does not pass [validate_content]. *)
Definition rejected_page (cfg : Config) (W : World) (url : string)
    (content : list byte) : Prop :=
  (exists domain, url_domain url = Some domain /\ robots_permit W domain url)
  /\ answers W url 200 content
  /\ accepts cfg W (page_text W content) = false.

(** robots.txt of the domain of [url] does not permit it, at whatever time
    it is read. *)
Definition robots_refuse (W : World) (url : string) : Prop :=
  exists domain,
    url_domain url = Some domain
    /\ forall t,
         permitted (robots_txt W t
                      ("https://" ++ domain ++ "/robots.txt")%string)
                   "*" url = false.

(** What becomes of a task: its page is stored, fetched and rejected, not
    fetched for robots.txt, or the task fails with an error. *)
Inductive Fate : Type :=
| Stored (content : list byte)
| Rejected (content : list byte)
| Skipped
| Failed (e : Exn).

(** The world in which the task of [url] meets the fate [f]. *)
Definition meets (cfg : Config) (W : World) (url : string) (f : Fate)
    : Prop :=
  match f with
  | Stored content => good_page cfg W url content
  | Rejected content => rejected_page cfg W url content
  | Skipped => robots_refuse W url
  | Failed e => task_fails_with W url e
  end.

(** The line that closes a task with the fate [f]. *)
Definition closing_line (url : string) (f : Fate) : Event :=
  match f with
  | Stored _ => Log INFO (ScrapedAndStored url)
  | Rejected _ => Log INFO (DidNotPassValidation url)
  | Skipped => Log WARNING (SkippingRobots url)
  | Failed e => Log ERROR (ErrorScraping url e)
  end.

(** The URL and the text of the record a task with the fate [f] stores. *)
Definition kept (W : World) (url : string) (f : Fate)
    : list (string * string) :=
  match f with
  | Stored content => [(url, page_text W content)]
  | _ => []
  end.

(** The lines a lookup of robots.txt leaves in the trace after its request,
    most recent first: the warning when the read raised, nothing
    otherwise. *)
Definition robots_warning (domain : string) (r : RobotsFetch) : list Event :=
  match r with
  | RobotsRaises e => [Log WARNING (CouldNotReadRobots domain e)]
  | _ => []
  end.

(** The statuses of a redirect that [session.get] would follow. *)
Definition redirect_status (status : Z) : bool :=
  existsb (Z.eqb status) [301; 302; 303; 307; 308].

(** The server never answers a request for [url] with a redirect. *)
Definition never_redirects (W : World) (url : string) : Prop :=
  forall t status content,
    http W t url = Response status content -> redirect_status status = false.

(** [st] with one more line in the log. *)
Definition logged (st : State) (level : Level) (msg : LogMsg) : State :=
  mkState (tick st) (text_storage st) (image_storage st)
          (Log level msg :: trace st).

(** The letter U+00DF and a word that holds it. *)
Definition eszett : ascii := ascii_of_nat 223.

Definition strasse : string := ("stra" ++ String eszett "e")%string.



(** A computation respects a relation when every run relates the state it
    starts from to the state it ends in, whatever the outcome. *)
Definition respects (R : State -> State -> Prop) {A} (m : M A) : Prop :=
  forall st, R st (snd (m st)).

(** Relations between the state before and after a computation. *)
Definition same_texts (st st' : State) : Prop :=
  text_storage st' = text_storage st.

Definition trace_grows (st st' : State) : Prop :=
  exists new, trace st' = (new ++ trace st)%list.

Definition same_count (p : Event -> bool) (st st' : State) : Prop :=
  count p st' = count p st.

Definition same_images (st st' : State) : Prop :=
  image_storage st' = image_storage st
  /\ image_writes (trace st') = image_writes (trace st).

Definition not_image_write (e : Event) : Prop :=
  match e with
  | FileWrite _ (ImageBytes _) _ => False
  | _ => True
  end.

Definition images_path (cfg : Config) (filename : string) : string :=
  Str.os_path_join (Str.os_path_join (output_dir cfg) "images") filename.

(** A status that neither forces a retry nor makes [raise_for_status]
    raise. *)
Definition good_status (status : Z) : bool :=
  negb (forced_retry status) && negb ((400 <=? status) && (status <? 600)).

(** The server answers every request for [url] with the bytes [c]. *)
Definition serves (W : World) (url : string) (c : list byte) : Prop :=
  forall t, exists status,
    http W t url = Response status c /\ good_status status = true.

(** The four log lines one of which ends the text stage of a task. *)
Definition is_closing_line (e : Event) : bool :=
  match e with
  | Log WARNING (SkippingRobots _) => true
  | Log INFO (ScrapedAndStored _) => true
  | Log INFO (DidNotPassValidation _) => true
  | Log ERROR (ErrorScraping _ _) => true
  | _ => false
  end.

(** A computation that logs no closing line. *)
Definition quiet {A} (m : M A) : Prop :=
  respects (same_count is_closing_line) m.

(** A computation that logs one closing line when it returns and none
    when it raises. *)
Definition closes {A} (m : M A) : Prop :=
  forall st,
    count is_closing_line (snd (m st))
    = (count is_closing_line st
       + match fst (m st) with Ok _ => 1 | Raise _ => 0 end)%nat.

(** The events of the trace that satisfy [p] are the same before and
    after. *)
Definition keeps (p : Event -> bool) (st st' : State) : Prop :=
  filter p (trace st') = filter p (trace st).

(** A computation that writes none of the lines that close a task. *)
Definition silent {A} (m : M A) : Prop :=
  respects (keeps is_closing_line) m.

(** ** Generic frame reasoning

    A relation between the state before and after a computation that is
    reflexive and transitive passes through [bind] and [try_except]. *)
Section Respects.

Variable R : State -> State -> Prop.
Hypothesis R_refl : forall st, R st st.
Hypothesis R_trans : forall a b c, R a b -> R b c -> R a c.

Lemma respects_ret {A} (a : A) : respects R (ret a).
Proof. intros st; apply R_refl. Qed.

Lemma respects_raise {A} (e : Exn) : respects R (@raise A e).
Proof. intros st; apply R_refl. Qed.

Lemma respects_bind {A B} (m : M A) (k : A -> M B) :
  respects R m -> (forall a, respects R (k a)) -> respects R (bind m k).
Proof.
  intros Hm Hk st. unfold bind.
  specialize (Hm st). destruct (m st) as [[a | e] st1]; simpl in *.
  - eapply R_trans; [exact Hm | apply Hk].
  - exact Hm.
Qed.

Lemma respects_try_except {A} (m : M A) (h : Exn -> M A) :
  respects R m -> (forall e, respects R (h e)) -> respects R (try_except m h).
Proof.
  intros Hm Hh st. unfold try_except.
  specialize (Hm st). destruct (m st) as [[a | e] st1]; simpl in *.
  - exact Hm.
  - eapply R_trans; [exact Hm | apply Hh].
Qed.

Lemma respects_if {A} (b : bool) (m1 m2 : M A) :
  respects R m1 -> respects R m2 -> respects R (if b then m1 else m2).
Proof. destruct b; auto. Qed.

Lemma respects_bind_from {A B} (m : M A) (k : A -> M B) (st : State) :
  (forall a, respects R (k a)) -> R (snd (m st)) (snd (bind m k st)).
Proof.
  intros Hk. unfold bind. destruct (m st) as [[a | e] st1]; simpl;
    [apply Hk | apply R_refl].
Qed.

Lemma respects_try_except_from {A} (m : M A) (h : Exn -> M A) (st : State) :
  (forall e, respects R (h e)) -> R (snd (m st)) (snd (try_except m h st)).
Proof.
  intros Hh. unfold try_except. destruct (m st) as [[a | e] st1]; simpl;
    [apply R_refl | apply Hh].
Qed.

(** What the primitive steps need. *)
Variable allowed : Event -> Prop.
Hypothesis R_tick : forall st,
  R st (mkState (S (tick st)) (text_storage st) (image_storage st) (trace st)).
Hypothesis R_emit : forall e st, allowed e ->
  R st (mkState (tick st) (text_storage st) (image_storage st) (e :: trace st)).
Hypothesis R_images : forall r st,
  R st (mkState (tick st) (text_storage st) (image_storage st ++ [r])
                (trace st)).
Hypothesis R_texts : forall l st,
  R st (mkState (tick st) l (image_storage st) (trace st)).
Hypothesis allowed_log : forall lvl msg, allowed (Log lvl msg).
Hypothesis allowed_http : forall u h, allowed (HttpGet u h).
Hypothesis allowed_robots : forall u, allowed (RobotsGet u).
Hypothesis allowed_sleep : forall s, allowed (Sleep s).
Hypothesis allowed_file : forall p d ok, allowed (FileWrite p d ok).

Variable cfg : Config.
Variable W : World.

Lemma respects_oracle_tick : respects R oracle_tick.
Proof. intros st; apply R_tick. Qed.

Lemma respects_emit e : allowed e -> respects R (emit e).
Proof. intros H st; apply R_emit, H. Qed.

Lemma respects_logging lvl msg : respects R (logging lvl msg).
Proof. apply respects_emit, allowed_log. Qed.

Lemma respects_datetime_now : respects R (datetime_now W).
Proof.
  apply respects_bind; [apply respects_oracle_tick | intros; apply respects_ret].
Qed.

Lemma respects_write_file path data : respects R (write_file W path data).
Proof.
  unfold write_file.
  apply respects_bind; [apply respects_oracle_tick | intros t].
  apply respects_bind; [apply respects_emit, allowed_file | intros _].
  apply respects_if; [apply respects_ret | apply respects_raise].
Qed.

Lemma respects_adapter_send retries url headers :
  respects R (adapter_send W retries url headers).
Proof.
  induction retries as [| r IH]; simpl;
    (apply respects_bind; [apply respects_oracle_tick | intros t]);
    (apply respects_bind; [apply respects_emit, allowed_http | intros _]);
    destruct (http W t url) as [| status body];
    try destruct (forced_retry status);
    auto using respects_raise, respects_ret.
Qed.

Lemma respects_session_get url headers :
  respects R (session_get cfg W url headers).
Proof. apply respects_adapter_send. Qed.

Lemma respects_raise_for_status response : respects R (raise_for_status response).
Proof.
  unfold raise_for_status.
  apply respects_if; [apply respects_raise | apply respects_ret].
Qed.

Lemma respects_Image_open content : respects R (Image_open W content).
Proof.
  unfold Image_open. destruct (image_open W content);
    [apply respects_ret | apply respects_raise].
Qed.

Lemma respects_store_image data content :
  respects R (store_image cfg W data content).
Proof.
  intros st. unfold store_image.
  eapply R_trans; [apply (R_images data st) |].
  apply (respects_bind_from
           (set_image_storage (image_storage st ++ [data])) _ st).
  intros _. apply respects_try_except.
  - apply respects_bind; [apply respects_write_file | intros _].
    apply respects_logging.
  - intros e. apply respects_logging.
Qed.

Lemma respects_download_response url domain response :
  respects R (download_response cfg W url domain response).
Proof.
  unfold download_response.
  apply respects_bind; [apply respects_raise_for_status | intros _].
  apply respects_bind; [apply respects_Image_open | intros img].
  apply respects_bind;
    [apply respects_if; [apply respects_ret | apply respects_raise]
    | intros _].
  apply respects_bind; [apply respects_Image_open | intros img'].
  apply respects_bind; [apply respects_datetime_now | intros ts].
  apply respects_store_image.
Qed.

Lemma respects_download url domain : respects R (download cfg W url domain).
Proof.
  unfold download. apply respects_try_except.
  - apply respects_bind; [apply respects_session_get | intros response].
    apply respects_download_response.
  - intros e. apply respects_logging.
Qed.

Lemma respects_process_images imgs domain :
  respects R (process_images cfg W imgs domain).
Proof.
  induction imgs as [| img rest IH]; simpl.
  - apply respects_ret.
  - apply respects_bind; [| intros _; exact IH].
    destruct img as [src |]; [| apply respects_ret].
    apply respects_if; [apply respects_download | apply respects_ret].
Qed.

Lemma respects_flush_text_storage : respects R (flush_text_storage cfg W).
Proof.
  intros st. unfold flush_text_storage.
  destruct (text_storage st) as [| r df] eqn:E; [apply R_refl |].
  revert st E.
  assert (H : respects R
    (timestamp <- datetime_now W ;;
     flush_format cfg W "jsonl" timestamp (r :: df) ;;
     flush_format cfg W "parquet" timestamp (r :: df) ;;
     set_text_storage [])).
  { assert (Hf : forall f ts, respects R (flush_format cfg W f ts (r :: df))).
    { intros f ts. unfold flush_format.
      apply respects_if; [| apply respects_ret].
      apply respects_bind; [apply respects_write_file | intros _].
      apply respects_logging. }
    apply respects_bind; [apply respects_datetime_now | intros ts].
    apply respects_bind; [apply Hf | intros _].
    apply respects_bind; [apply Hf | intros _].
    intros st0. apply R_texts. }
  intros st _. apply H.
Qed.

Lemma respects_store_text data : respects R (store_text cfg W data).
Proof.
  intros st. unfold store_text.
  apply (respects_bind (set_text_storage (text_storage st ++ [data]))).
  - intros st0. apply R_texts.
  - intros _. apply respects_if;
      [apply respects_flush_text_storage | apply respects_ret].
Qed.

Lemma respects_rp_read rp : respects R (rp_read W rp).
Proof.
  unfold rp_read.
  apply respects_bind; [apply respects_oracle_tick | intros t].
  apply respects_bind; [apply respects_emit, allowed_robots | intros _].
  destruct (robots_txt W t (rp_url rp)) as [e | code | allowance].
  - apply respects_raise.
  - repeat (apply respects_if); apply respects_ret.
  - apply respects_ret.
Qed.

Lemma respects_get_robots_parser domain :
  respects R (get_robots_parser W domain).
Proof.
  unfold get_robots_parser. apply respects_try_except.
  - apply respects_rp_read.
  - intros e. apply respects_bind; [apply respects_logging | intros _].
    apply respects_ret.
Qed.

Lemma respects_validate_content text : respects R (validate_content cfg W text).
Proof.
  unfold validate_content.
  apply respects_if; [apply respects_ret |].
  apply respects_if; [apply respects_ret |].
  apply respects_try_except.
  - destruct (detect W text); [| apply respects_raise].
    apply respects_if; apply respects_ret.
  - intros e. apply respects_bind; [apply respects_logging | intros _].
    apply respects_ret.
Qed.

Lemma respects_retry_loop {A} (func : M A) attempts backoff range :
  respects R func -> respects R (retry_loop func attempts backoff range).
Proof.
  intros Hf. induction range as [| attempt rest IH]; simpl.
  - apply respects_raise.
  - apply respects_try_except; [exact Hf | intros e].
    apply respects_bind; [apply respects_logging | intros _].
    apply respects_bind; [| intros _; exact IH].
    apply respects_if; [apply respects_emit, allowed_sleep | apply respects_ret].
Qed.

Lemma respects_random_choice l : respects R (random_choice W l).
Proof.
  unfold random_choice.
  apply respects_bind; [apply respects_oracle_tick | intros t].
  destruct (nth_error l _); [apply respects_ret | apply respects_raise].
Qed.

Lemma respects_after_robots url domain rp :
  respects R (after_robots cfg W url domain rp).
Proof.
  unfold after_robots.
  apply respects_if; [apply respects_logging |].
  apply respects_bind; [apply respects_random_choice | intros ua].
  apply respects_bind; [apply respects_emit, allowed_sleep | intros _].
  apply respects_bind;
    [apply respects_retry_loop, respects_session_get | intros response].
  apply respects_bind; [apply respects_raise_for_status | intros _].
  apply respects_bind; [apply respects_validate_content | intros valid].
  apply respects_bind; [| intros _; apply respects_process_images].
  apply respects_if; [| apply respects_logging].
  apply respects_bind; [apply respects_datetime_now | intros ts].
  apply respects_bind; [apply respects_store_text | intros _].
  apply respects_logging.
Qed.

Lemma respects_scrape_body url : respects R (scrape_body cfg W url).
Proof.
  unfold scrape_body.
  apply respects_bind.
  - destruct (url_domain url); [apply respects_ret | apply respects_raise].
  - intros domain.
    apply respects_bind; [apply respects_get_robots_parser | intros rp].
    apply (respects_after_robots url domain rp).
Qed.

Lemma respects_scrape_page url : respects R (scrape_page cfg W url).
Proof.
  unfold scrape_page. apply respects_try_except.
  - apply respects_scrape_body.
  - intros e. apply respects_logging.
Qed.

Lemma respects_run seeds : respects R (run cfg W seeds).
Proof.
  induction seeds as [| url rest IH]; simpl.
  - apply respects_ret.
  - apply respects_bind; [| intros _; exact IH].
    apply respects_try_except; [apply respects_scrape_page | intros e].
    apply respects_logging.
Qed.

End Respects.

(** ** Checking the models of the libraries *)

Example round_constants :
  List.length Hashlib.K = 64%nat
  /\ nth 0 Hashlib.K 0 = 0x428a2f98 /\ nth 63 Hashlib.K 0 = 0xc67178f2
  /\ Hashlib.wa Hashlib.IV = 0x6a09e667 /\ Hashlib.wh Hashlib.IV = 0x5be0cd19.
Proof. repeat split. Qed.

Example sha256_abc :
  Hashlib.hexdigest (list_byte_of_string "abc")
  = "ba7816bf8f01cfea414140de5dae2223b00361a396177a9cb410ff61f20015ad"%string.
Proof. vm_compute. reflexivity. Qed.

Example sha256_empty :
  Hashlib.hexdigest []
  = "e3b0c44298fc1c149afbf4c8996fb92427ae41e4649b934ca495991b7852b855"%string.
Proof. vm_compute. reflexivity. Qed.

Example sha256_two_blocks :
  Hashlib.hexdigest (repeat "a"%byte 70)
  = "6bd5e5034855a11241f0dee8fc72850ffd9955b28347a86428b5fa19119f6ad0"%string.
Proof. vm_compute. reflexivity. Qed.

Example crc32_check :
  Png.crc32 (list_byte_of_string "123456789") = 0xCBF43926
  /\ Png.crc32 Png.IEND = 0xAE426082.
Proof. split; vm_compute; reflexivity. Qed.

Example png_one_pixel :
  Png.decode (Png.with_comment 7) = Some (mkImageInfo "PNG" (1, 1))
  /\ Png.decode png_bytes = None
  /\ Hashlib.hexdigest (Png.with_comment 0)
     = "e34a520191d08953af27f6f2040b23398cd5e8340cc4a0d68cf5b74bb70b2397"%string.
Proof. repeat split; vm_compute; reflexivity. Qed.

Example png_file :
  map Png.to_Z (Png.with_comment 0)
  = [ 137; 80; 78; 71; 13; 10; 26; 10;
      0; 0; 0; 13; 73; 72; 68; 82; 0; 0; 0; 1; 0; 0; 0; 1; 8; 0; 0; 0; 0;
      58; 126; 155; 85;
      0; 0; 0; 41; 116; 69; 88; 116; 67; 111; 109; 109; 101; 110; 116; 0;
      0; 0; 0; 0; 0; 0; 0; 0; 0; 0; 0; 0; 0; 0; 0; 0; 0;
      0; 0; 0; 0; 0; 0; 0; 0; 0; 0; 0; 0; 0; 0; 0; 0;
      141; 228; 255; 54;
      0; 0; 0; 10; 73; 68; 65; 84; 120; 156; 99; 96; 0; 0; 0; 2; 0; 1;
      72; 175; 164; 113;
      0; 0; 0; 0; 73; 69; 78; 68; 174; 66; 96; 130 ].
Proof. vm_compute. reflexivity. Qed.

Example split_url :
  Str.split "/" "https://example.com/article1"
  = ["https:"; ""; "example.com"; "article1"]%string.
Proof. reflexivity. Qed.

Example lower_mixed : Str.lower "LoReM Ipsum 42" = "lorem ipsum 42"%string.
Proof. reflexivity. Qed.

Example lower_latin1 :
  Str.lower (String (ascii_of_nat 201) "COLE")
  = String (ascii_of_nat 233) "cole"
  /\ Str.lower (String (ascii_of_nat 215) (String (ascii_of_nat 223) ""))
     = String (ascii_of_nat 215) (String (ascii_of_nat 223) "").
Proof. split; reflexivity. Qed.

Example upper_eszett :
  Str.upper strasse = Some "STRASSE"%string
  /\ Str.upper "Lorem ipsum 42" = Some "LOREM IPSUM 42"%string
  /\ Str.upper (String (ascii_of_nat 255) "") = None.
Proof. repeat split. Qed.

Example strip_collapse :
  Str.strip (Str.collapse_ws false "  a   b  ") = "a b"%string.
Proof. reflexivity. Qed.

Example article_text_length : String.length article_text = 600%nat.
Proof. reflexivity. Qed.

(** ** Strings *)

Lemma lower_app (a b : string) :
  Str.lower (a ++ b) = (Str.lower a ++ Str.lower b)%string.
Proof. induction a as [| c a IH]; simpl; [reflexivity | now rewrite IH]. Qed.

Lemma prefix_app (p b : string) : String.prefix p (p ++ b) = true.
Proof.
  induction p as [| c p IH]; simpl.
  - now destruct b.
  - destruct (ascii_dec c c) as [_ | n]; [exact IH | now destruct n].
Qed.

Lemma str_in_prefix (p t : string) :
  String.prefix p t = true -> Str.str_in p t = true.
Proof.
  destruct t as [| c t]; simpl; intros H; [exact H | now rewrite H].
Qed.

Lemma str_in_app (p a b : string) : Str.str_in p (a ++ p ++ b) = true.
Proof.
  induction a as [| c a IH]; simpl.
  - apply str_in_prefix, prefix_app.
  - rewrite IH. apply orb_true_r.
Qed.

Lemma blocklisted_in (phrases : list string) (phrase text : string) :
  In phrase phrases ->
  Str.str_in (Str.lower phrase) (Str.lower text) = true ->
  blocklisted phrases text = true.
Proof.
  induction phrases as [| p rest IH]; simpl; intros Hin Hsub; [contradiction |].
  destruct (Str.str_in (Str.lower p) (Str.lower text)) eqn:E; [reflexivity |].
  destruct Hin as [-> | Hin]; [congruence | auto].
Qed.

(** ** Content validation *)

(** C8. A text strictly shorter than [min_text_length] is rejected by
    [validate_content], whatever the language detector says of it and
    whatever the blocklist holds; nothing is logged. *)
Theorem validate_content_rejects_short (cfg : Config) (W : World)
    (text : string) (st : State) :
  Z.of_nat (String.length text) < min_text_length (content_filters cfg) ->
  validate_content cfg W text st = (Ok false, st).
Proof.
  intros H. unfold validate_content.
  destruct (Z.ltb_spec (Z.of_nat (String.length text))
                       (min_text_length (content_filters cfg))); [| lia].
  reflexivity.
Qed.

Lemma validate_content_rejects_short_witness :
  Z.of_nat (String.length "An English sentence, far too short.")
    < min_text_length (content_filters CONFIG)
  /\ validate_content CONFIG world_two_pages
       "An English sentence, far too short." initial_state
     = (Ok false, initial_state).
Proof.
  split; [reflexivity |].
  apply (validate_content_rejects_short CONFIG world_two_pages).
  reflexivity.
Defined.








(** ** Image sources *)

Lemma wants_download_startswith (src : string) :
  wants_download (Some src) = Str.startswith src "http".
Proof. destruct src; reflexivity. Qed.

Lemma process_images_cons (cfg : Config) (W : World) (img : option string)
    (rest : list (option string)) (domain : string) (st : State) :
  process_images cfg W (img :: rest) domain st
  = if wants_download img
    then (download cfg W (match img with Some src => src | None => "" end)
                   domain ;;
          process_images cfg W rest domain) st
    else process_images cfg W rest domain st.
Proof. destruct img as [src |]; simpl; [destruct (_ && _) |]; reflexivity. Qed.

(** C10. The image loop downloads only from <img> elements whose [src] is
    present and starts with "http": running it on all elements is running
    it on those alone, and an element without such a [src] (missing,
    relative, protocol-relative, data URI) leaves the whole state as it is:
    no record, no file, no log line. *)
Theorem process_images_only_http_sources (cfg : Config) (W : World)
    (domain : string) :
  (forall imgs st,
     process_images cfg W imgs domain st
     = process_images cfg W (filter wants_download imgs) domain st)
  /\ (forall img st, wants_download img = false ->
        process_images cfg W [img] domain st = (Ok tt, st))
  /\ (forall src, wants_download (Some src) = Str.startswith src "http")
  /\ wants_download None = false
  /\ (forall rest, wants_download (Some ("/" ++ rest)%string) = false)
  /\ (forall rest, wants_download (Some ("//" ++ rest)%string) = false)
  /\ (forall rest, wants_download (Some ("data:" ++ rest)%string) = false).
Proof.
  split; [| split; [| split; [| repeat split]]].
  - induction imgs as [| img rest IH]; intros st; [reflexivity |].
    rewrite process_images_cons. simpl filter.
    destruct (wants_download img) eqn:E.
    + rewrite process_images_cons, E. unfold bind.
      destruct (download cfg W _ domain st) as [[a | e] st1];
        [apply IH | reflexivity].
    + apply IH.
  - intros img st H. rewrite process_images_cons, H. reflexivity.
  - apply wants_download_startswith.
Qed.

Lemma process_images_only_http_sources_witness :
  wants_download (Some "/static/logo.png"%string) = false
  /\ process_images CONFIG world_images [Some "/static/logo.png"%string]
       "page.example" initial_state
     = (Ok tt, initial_state).
Proof.
  split; [reflexivity |].
  apply (process_images_only_http_sources CONFIG world_images "page.example").
  reflexivity.
Defined.

(** ** The text buffer *)

Lemma bind_ok {A B} (m : M A) (k : A -> M B) (st st1 : State) (a : A) :
  m st = (Ok a, st1) -> bind m k st = k a st1.
Proof. intros H. unfold bind. now rewrite H. Qed.

Lemma bind_raised {A B} (m : M A) (k : A -> M B) (st st1 : State) (e : Exn) :
  m st = (Raise e, st1) -> bind m k st = (Raise e, st1).
Proof. intros H. unfold bind. now rewrite H. Qed.

Lemma bind_ok_inv {A B} (m : M A) (k : A -> M B) (st st' : State) (b : B) :
  bind m k st = (Ok b, st') ->
  exists a st1, m st = (Ok a, st1) /\ k a st1 = (Ok b, st').
Proof.
  unfold bind. destruct (m st) as [[a | e] st1]; intros H;
    [now exists a, st1 | discriminate].
Qed.

Lemma flush_text_storage_returns (cfg : Config) (W : World) (st st' : State) :
  flush_text_storage cfg W st = (Ok tt, st') -> text_storage st' = [].
Proof.
  unfold flush_text_storage.
  destruct (text_storage st) as [| r df] eqn:E.
  - intros H. inversion H; subst. exact E.
  - intros H.
    apply bind_ok_inv in H as (ts & st1 & _ & H).
    apply bind_ok_inv in H as (u1 & st2 & _ & H).
    apply bind_ok_inv in H as (u2 & st3 & _ & H).
    inversion H. reflexivity.
Qed.

Lemma flush_format_writes (cfg : Config) (W : World) (format ts : string)
    (df : list TextRecord) (st : State) :
  (forall t p, fs_write_ok W t p = true) ->
  exists st',
    flush_format cfg W format ts df st = (Ok tt, st')
    /\ text_storage st' = text_storage st
    /\ image_storage st' = image_storage st
    /\ text_writes (trace st')
       = ((if list_in format (storage_formats cfg)
           then [(format, df, true)] else [])
          ++ text_writes (trace st))%list.
Proof.
  intros Hfs. unfold flush_format.
  destruct (list_in format (storage_formats cfg)).
  - unfold write_file, bind, oracle_tick, emit, logging, emit, ret. simpl.
    rewrite Hfs. simpl. eexists. repeat split.
  - exists st. repeat split.
Qed.

Lemma flush_text_storage_writes (cfg : Config) (W : World) (st : State) :
  (forall t p, fs_write_ok W t p = true) ->
  text_storage st <> [] ->
  exists st',
    flush_text_storage cfg W st = (Ok tt, st')
    /\ text_storage st' = []
    /\ image_storage st' = image_storage st
    /\ text_writes (trace st')
       = (flush_batches cfg (text_storage st) ++ text_writes (trace st))%list.
Proof.
  intros Hfs Hne. unfold flush_text_storage, flush_batches.
  destruct (text_storage st) as [| r df] eqn:E; [congruence |].
  set (st0 := mkState (S (tick st)) (text_storage st) (image_storage st)
                      (trace st)).
  destruct (flush_format_writes cfg W "jsonl" (now W (tick st)) (r :: df)
              st0 Hfs) as (st1 & H1 & T1 & I1 & W1).
  destruct (flush_format_writes cfg W "parquet" (now W (tick st)) (r :: df)
              st1 Hfs) as (st2 & H2 & T2 & I2 & W2).
  eexists. split.
  - erewrite bind_ok by reflexivity.
    fold st0. erewrite bind_ok by exact H1.
    erewrite bind_ok by exact H2. reflexivity.
  - simpl. repeat split.
    + rewrite I2, I1. reflexivity.
    + rewrite W2, W1. simpl. now rewrite app_assoc.
Qed.







Example store_text_below_threshold :
  text_storage
    (snd (store_text CONFIG world_two_pages (sample_record 2) one_buffered))
  = [sample_record 1; sample_record 2]
  /\ trace (snd (store_text CONFIG world_two_pages (sample_record 2)
                            one_buffered)) = [].
Proof. split; reflexivity. Qed.

(** ** robots.txt *)

(** C1. When the read of robots.txt raises, [get_robots_parser] logs the
    warning and returns the parser as it was created; [can_fetch] on a
    parser that has read nothing answers False for every URL, so the task
    logs that it skips the URL and ends without fetching the page: the
    check fails closed. *)
Theorem unreadable_robots_skips_task (cfg : Config) (W : World)
    (url domain : string) (e : Exn) (st : State) :
  url_domain url = Some domain ->
  robots_txt W (tick st) ("https://" ++ domain ++ "/robots.txt")%string
    = RobotsRaises e ->
  (exists rp st1,
     get_robots_parser W ("https://" ++ domain)%string st = (Ok rp, st1)
     /\ forall any_url, can_fetch rp "*" any_url = false)
  /\ scrape_page cfg W url st
     = (Ok tt,
        mkState (S (tick st)) (text_storage st) (image_storage st)
          (Log WARNING (SkippingRobots url)
           :: Log WARNING (CouldNotReadRobots ("https://" ++ domain)%string e)
           :: RobotsGet ("https://" ++ domain ++ "/robots.txt")%string
           :: trace st)).
Proof.
  intros Hdom Hrob. simpl in Hrob. split.
  - unfold get_robots_parser, try_except, rp_read, bind, oracle_tick, emit.
    simpl. rewrite Hrob. simpl. eexists. eexists. split; [reflexivity |].
    reflexivity.
  - unfold scrape_page, scrape_body, try_except, bind. rewrite Hdom.
    unfold get_robots_parser, try_except, rp_read, bind, oracle_tick, emit.
    simpl. rewrite Hrob. reflexivity.
Qed.

Lemma unreadable_robots_skips_task_witness :
  url_domain "https://example.com/article1" = Some "example.com"%string
  /\ robots_txt world_robots_unreachable 0 "https://example.com/robots.txt"
     = RobotsRaises URLError
  /\ scrape_page CONFIG world_robots_unreachable
       "https://example.com/article1" initial_state
     = (Ok tt,
        mkState 1 [] []
          [ Log WARNING (SkippingRobots "https://example.com/article1");
            Log WARNING (CouldNotReadRobots "https://example.com" URLError);
            RobotsGet "https://example.com/robots.txt" ]).
Proof.
  split; [reflexivity |]. split; [reflexivity |].
  apply (unreadable_robots_skips_task CONFIG world_robots_unreachable
           "https://example.com/article1" "example.com" URLError
           initial_state); reflexivity.
Defined.

(** ** Frames of the image downloader *)

Lemma same_texts_trans (a b c : State) :
  same_texts a b -> same_texts b c -> same_texts a c.
Proof. unfold same_texts. congruence. Qed.

Lemma trace_grows_refl (st : State) : trace_grows st st.
Proof. now exists []. Qed.

Lemma trace_grows_trans (a b c : State) :
  trace_grows a b -> trace_grows b c -> trace_grows a c.
Proof.
  intros [n1 H1] [n2 H2]. exists (n2 ++ n1)%list.
  now rewrite H2, H1, app_assoc.
Qed.

Lemma trace_grows_emit (e : Event) (st : State) :
  True ->
  trace_grows st (mkState (tick st) (text_storage st) (image_storage st)
                          (e :: trace st)).
Proof. intros _. now exists [e]. Qed.

Lemma trace_grows_in (st st' : State) (e : Event) :
  trace_grows st st' -> In e (trace st) -> In e (trace st').
Proof. intros [new H] Hin. rewrite H. apply in_or_app. now right. Qed.

Ltac frame_texts :=
  unfold same_texts; simpl; intros; auto; congruence.

Ltac frame_trace :=
  solve [ apply trace_grows_refl | apply trace_grows_trans
        | apply trace_grows_emit | intros; exact I
        | intros; now exists [] ].

Lemma download_same_texts (cfg : Config) (W : World) (url domain : string) :
  respects same_texts (download cfg W url domain).
Proof.
  apply (respects_download same_texts) with (allowed := fun _ => True);
    frame_texts.
Qed.

Lemma process_images_same_texts (cfg : Config) (W : World)
    (imgs : list (option string)) (domain : string) :
  respects same_texts (process_images cfg W imgs domain).
Proof.
  apply (respects_process_images same_texts) with (allowed := fun _ => True);
    frame_texts.
Qed.

Lemma download_trace_grows (cfg : Config) (W : World) (url domain : string) :
  respects trace_grows (download cfg W url domain).
Proof.
  apply (respects_download trace_grows) with (allowed := fun _ => True);
    frame_trace.
Qed.

Lemma process_images_trace_grows (cfg : Config) (W : World)
    (imgs : list (option string)) (domain : string) :
  respects trace_grows (process_images cfg W imgs domain).
Proof.
  apply (respects_process_images trace_grows) with (allowed := fun _ => True);
    frame_trace.
Qed.

Lemma adapter_send_trace_grows (W : World) (n : nat) (url : string)
    (headers : list (string * string)) :
  respects trace_grows (adapter_send W n url headers).
Proof.
  apply (respects_adapter_send trace_grows) with (allowed := fun _ => True);
    frame_trace.
Qed.

(** The first thing [adapter_send] does is to send the request. *)
Lemma adapter_send_sends (W : World) (n : nat) (url : string)
    (headers : list (string * string)) (st : State) :
  In (HttpGet url headers) (trace (snd (adapter_send W n url headers st))).
Proof.
  assert (Hfirst : forall st0 : State,
            In (HttpGet url headers) (trace st0) ->
            forall m : M (Z * list byte), respects trace_grows m ->
            In (HttpGet url headers) (trace (snd (m st0)))).
  { intros st0 Hin m Hm. eapply trace_grows_in; [apply Hm | exact Hin]. }
  destruct n as [| r]; simpl; unfold bind, oracle_tick, emit; simpl;
    apply Hfirst; try (simpl; now left);
    destruct (http W (tick st) url) as [| status body];
    try destruct (forced_retry status);
    try apply adapter_send_trace_grows;
    intros s; apply trace_grows_refl.
Qed.

Lemma download_response_trace_grows (cfg : Config) (W : World)
    (url domain : string) (response : Z * list byte) :
  respects trace_grows (download_response cfg W url domain response).
Proof.
  apply (respects_download_response trace_grows)
    with (allowed := fun _ => True); frame_trace.
Qed.

Lemma download_sends (cfg : Config) (W : World) (url domain : string)
    (st : State) :
  In (HttpGet url []) (trace (snd (download cfg W url domain st))).
Proof.
  unfold download.
  eapply trace_grows_in.
  - apply (respects_try_except_from trace_grows trace_grows_refl).
    intros e s. now exists [Log ERROR (ErrorDownloadingImage url e)].
  - eapply trace_grows_in.
    + apply (respects_bind_from trace_grows trace_grows_refl
               (session_get cfg W url [])
               (download_response cfg W url domain)).
      apply download_response_trace_grows.
    + apply adapter_send_sends.
Qed.

Lemma same_images_refl (st : State) : same_images st st.
Proof. split; reflexivity. Qed.

Lemma same_images_trans (a b c : State) :
  same_images a b -> same_images b c -> same_images a c.
Proof. unfold same_images. intros [H1 H2] [H3 H4]. split; congruence. Qed.

Lemma same_images_emit (e : Event) (st : State) :
  not_image_write e ->
  same_images st (mkState (tick st) (text_storage st) (image_storage st)
                          (e :: trace st)).
Proof.
  intros H. split; [reflexivity |].
  destruct e as [| | | | p d ok]; try reflexivity.
  destruct d; [reflexivity | contradiction].
Qed.

Lemma session_get_same_images (cfg : Config) (W : World) (url : string)
    (headers : list (string * string)) :
  respects same_images (session_get cfg W url headers).
Proof.
  apply (respects_session_get same_images same_images_refl same_images_trans
           not_image_write).
  - intros st. split; reflexivity.
  - apply same_images_emit.
  - intros u h. exact I.
Qed.

(** What the part of [download] after the request can do: store one
    record for the bytes of the response, or raise before it stores. *)
Lemma download_response_cases (cfg : Config) (W : World) (url domain : string)
    (response : Z * list byte) (st : State) :
  (exists i ts st',
     image_open W (snd response) = Some i
     /\ download_response cfg W url domain response st = (Ok tt, st')
     /\ text_storage st' = text_storage st
     /\ image_storage st'
        = (image_storage st
           ++ [mkImageRecord url
                 (filename_of domain (snd response) (img_format i))
                 (img_size i) (img_format i) domain ts])%list
     /\ image_writes (trace st')
        = (images_path cfg (filename_of domain (snd response) (img_format i)),
           snd response) :: image_writes (trace st))
  \/ (exists e st',
        download_response cfg W url domain response st = (Raise e, st')
        /\ st' = st).
Proof.
  destruct response as [status c].
  unfold download_response, raise_for_status, Image_open. simpl.
  destruct ((400 <=? status) && (status <? 600)).
  { right. exists (HTTPError status), st. now split. }
  unfold bind at 1. simpl.
  destruct (image_open W c) as [i |].
  2:{ right. exists UnidentifiedImageError, st. now split. }
  unfold bind at 1. simpl.
  destruct (image_verify W c).
  2:{ right. exists ImageVerifyError, st. now split. }
  left. exists i, (now W (tick st)).
  unfold bind, ret, datetime_now, store_image, try_except, write_file, bind,
    oracle_tick, set_image_storage, logging, emit, ret, raise. simpl.
  destruct (fs_write_ok W (S (tick st)) _); simpl;
    eexists; repeat split; reflexivity.
Qed.

(** [download] always returns: it has stored one record for the bytes it
    received, or it has stored nothing and its last act is to log the
    error under the URL of the image. *)
Lemma download_cases (cfg : Config) (W : World) (url domain : string)
    (st : State) :
  exists st',
    download cfg W url domain st = (Ok tt, st')
    /\ text_storage st' = text_storage st
    /\ ((exists c i ts,
           image_open W c = Some i
           /\ image_storage st'
              = (image_storage st
                 ++ [mkImageRecord url (filename_of domain c (img_format i))
                       (img_size i) (img_format i) domain ts])%list
           /\ image_writes (trace st')
              = (images_path cfg (filename_of domain c (img_format i)), c)
                  :: image_writes (trace st))
        \/ (image_storage st' = image_storage st
            /\ image_writes (trace st') = image_writes (trace st)
            /\ exists e rest,
                 trace st' = Log ERROR (ErrorDownloadingImage url e) :: rest)).
Proof.
  pose proof (session_get_same_images cfg W url [] st) as [Hs1 Hs2].
  pose proof (respects_session_get same_texts (fun s => eq_refl)
                same_texts_trans (fun _ => True)
                (fun s => eq_refl) (fun e s _ => eq_refl)
                (fun u h => I) cfg W url [] st) as Ht.
  unfold same_texts in Ht.
  unfold download, try_except.
  change (session_get cfg W url [] ;; _)
    with (bind (session_get cfg W url [])
               (download_response cfg W url domain)).
  unfold bind at 1.
  destruct (session_get cfg W url [] st) as [[response | e] s1];
    simpl in Hs1, Hs2, Ht.
  - destruct (download_response_cases cfg W url domain response s1)
      as [(i & ts & s2 & Hi & Hrun & Htx & Hst & Hwr) | (e & s2 & Hrun & ->)];
      rewrite Hrun.
    + exists s2. split; [reflexivity |]. split; [congruence |].
      left. exists (snd response), i, ts.
      split; [exact Hi |]. split; congruence.
    + eexists. split; [reflexivity |]. split; [exact Ht |].
      right. simpl. repeat split; try assumption. eauto.
  - eexists. split; [reflexivity |]. split; [exact Ht |].
    right. simpl. repeat split; try assumption. eauto.
Qed.

Lemma adapter_send_good (W : World) (n : nat) (url : string)
    (headers : list (string * string)) (status : Z) (c : list byte)
    (st : State) :
  http W (tick st) url = Response status c ->
  forced_retry status = false ->
  adapter_send W n url headers st
  = (Ok (status, c),
     mkState (S (tick st)) (text_storage st) (image_storage st)
             (HttpGet url headers :: trace st)).
Proof.
  intros Hhttp Hforced.
  destruct n; simpl; unfold bind, oracle_tick, emit; simpl;
    rewrite Hhttp, Hforced; reflexivity.
Qed.

Lemma download_served_run (cfg : Config) (W : World)
    (url domain : string) (c : list byte) (i : ImageInfo) (st : State) :
  serves W url c ->
  image_open W c = Some i ->
  image_verify W c = true ->
  exists st',
    download cfg W url domain st = (Ok tt, st')
    /\ image_storage st'
       = (image_storage st
          ++ [mkImageRecord url (filename_of domain c (img_format i))
                (img_size i) (img_format i) domain (now W (S (tick st)))])%list
    /\ image_writes (trace st')
       = (images_path cfg (filename_of domain c (img_format i)), c)
           :: image_writes (trace st).
Proof.
  intros Hserves Hopen Hverify.
  destruct (Hserves (tick st)) as (status & Hhttp & Hgood).
  unfold good_status in Hgood.
  apply andb_true_iff in Hgood as [Hf Hs].
  apply negb_true_iff in Hf. apply negb_true_iff in Hs.
  unfold download, try_except, session_get.
  unfold bind at 1.
  rewrite (adapter_send_good W _ url [] status c st Hhttp Hf).
  unfold raise_for_status, Image_open. simpl. rewrite Hs.
  unfold bind at 1. simpl. rewrite Hopen.
  unfold bind at 1. simpl. rewrite Hverify.
  unfold bind, ret, datetime_now, store_image, try_except, write_file, bind,
    oracle_tick, set_image_storage, logging, emit, ret, raise. simpl.
  destruct (fs_write_ok W _ _); eexists; repeat split.
Qed.

Lemma process_images_returns (cfg : Config) (W : World)
    (imgs : list (option string)) (domain : string) (st : State) :
  exists st', process_images cfg W imgs domain st = (Ok tt, st').
Proof.
  revert st. induction imgs as [| img rest IH]; intros st.
  - now exists st.
  - rewrite process_images_cons. destruct (wants_download img); [| apply IH].
    destruct (download_cases cfg W
                (match img with Some src => src | None => ""%string end)
                domain st) as (s1 & Hrun & _).
    rewrite (bind_ok _ _ _ _ _ Hrun). apply IH.
Qed.

Lemma process_images_sends (cfg : Config) (W : World)
    (imgs : list (option string)) (domain src : string) (st : State) :
  In (Some src) imgs ->
  wants_download (Some src) = true ->
  In (HttpGet src []) (trace (snd (process_images cfg W imgs domain st))).
Proof.
  revert st. induction imgs as [| img rest IH]; intros st Hin Hw;
    [contradiction |].
  rewrite process_images_cons. destruct Hin as [-> | Hin].
  - rewrite Hw. eapply trace_grows_in.
    + apply (respects_bind_from trace_grows trace_grows_refl).
      intros _. apply process_images_trace_grows.
    + apply download_sends.
  - destruct (wants_download img); [| now apply IH].
    destruct (download_cases cfg W
                (match img with Some s => s | None => ""%string end)
                domain st) as (s1 & Hrun & _).
    rewrite (bind_ok _ _ _ _ _ Hrun). now apply IH.
Qed.

Lemma repeat_shift {A} (x : A) (n : nat) (l : list A) :
  (repeat x n ++ x :: l)%list = x :: (repeat x n ++ l)%list.
Proof. induction n as [| n IH]; simpl; [reflexivity | now rewrite IH]. Qed.

(** A [session.get] that meets a failure at every request gives up after
    all the requests the adapter may send. *)
Lemma adapter_send_gives_up (W : World) (url : string)
    (headers : list (string * string)) (e : Exn) :
  (forall t,
     (http W t url = NetworkError /\ e = ConnectionError)
     \/ (exists status c, http W t url = Response status c
                          /\ forced_retry status = true /\ e = RetryError)) ->
  forall n st,
    adapter_send W n url headers st
    = (Raise e,
       mkState (S n + tick st) (text_storage st) (image_storage st)
               (repeat (HttpGet url headers) (S n) ++ trace st)).
Proof.
  intros Hfail. induction n as [| n IH]; intros st;
    cbn [adapter_send]; unfold bind at 1 2; unfold oracle_tick, emit;
    cbn [fst snd tick text_storage image_storage trace].
  - destruct (Hfail (tick st)) as [[-> ->] | (status & c & -> & -> & ->)];
      reflexivity.
  - assert (Hnext : adapter_send W n url headers
                      (mkState (S (tick st)) (text_storage st)
                         (image_storage st) (HttpGet url headers :: trace st))
                    = (Raise e,
                       mkState (S (S n) + tick st) (text_storage st)
                         (image_storage st)
                         (repeat (HttpGet url headers) (S (S n))
                          ++ trace st))).
    { rewrite IH. cbn [tick text_storage image_storage trace].
      rewrite repeat_shift, Nat.add_succ_r. reflexivity. }
    destruct (Hfail (tick st)) as [[-> _] | (status & c & -> & -> & _)];
      exact Hnext.
Qed.

Lemma download_fails_run (cfg : Config) (W : World) (url domain : string)
    (e : Exn) (st : State) :
  fails_with W url e ->
  download cfg W url domain st
  = (Ok tt,
     mkState (requests_sent cfg e + tick st) (text_storage st)
       (image_storage st)
       (Log ERROR (ErrorDownloadingImage url e)
        :: repeat (HttpGet url []) (requests_sent cfg e) ++ trace st)).
Proof.
  intros Hfail. unfold download, try_except, session_get.
  unfold bind at 1.
  destruct Hfail as [Hnet | Hforced | status c Hans Hf Herr | c Hans Hopen
                    | c i Hans Hopen Hverify].
  - rewrite (adapter_send_gives_up W url [] ConnectionError); [reflexivity |].
    intros t. left. now split.
  - rewrite (adapter_send_gives_up W url [] RetryError); [reflexivity |].
    intros t. right. destruct (Hforced t) as (status & c & H1 & H2).
    now exists status, c.
  - rewrite (adapter_send_good W _ url [] status c st (Hans (tick st)) Hf).
    unfold raise_for_status, error_status in *. cbn [fst].
    rewrite Herr. reflexivity.
  - rewrite (adapter_send_good W _ url [] 200 c st (Hans (tick st)) eq_refl).
    unfold raise_for_status, Image_open. cbn [fst snd].
    unfold bind at 1. cbn [fst snd Z.leb Z.ltb Z.compare Pos.compare
                           Pos.compare_cont andb ret].
    rewrite Hopen. reflexivity.
  - rewrite (adapter_send_good W _ url [] 200 c st (Hans (tick st)) eq_refl).
    unfold raise_for_status, Image_open. cbn [fst snd].
    unfold bind at 1. cbn [fst snd Z.leb Z.ltb Z.compare Pos.compare
                           Pos.compare_cont andb ret].
    rewrite Hopen. unfold bind at 1. cbn [ret]. rewrite Hverify.
    reflexivity.
Qed.

Lemma store_image_run (cfg : Config) (W : World) (data : ImageRecord)
    (content : list byte) (st : State) :
  store_image cfg W data content st
  = (Ok tt,
     let path := images_path cfg (image_filename data) in
     let ok := fs_write_ok W (tick st) path in
     mkState (S (tick st)) (text_storage st) (image_storage st ++ [data])
       (Log (if ok then INFO else ERROR)
            (if ok then SavedImage (image_filename data)
             else ErrorSavingImage (image_filename data) OSError)
        :: FileWrite path (ImageBytes content) ok :: trace st)).
Proof.
  unfold store_image, try_except, write_file, bind, oracle_tick,
    set_image_storage, logging, emit, ret, raise, images_path.
  cbn [fst snd tick text_storage image_storage trace].
  destruct (fs_write_ok W (tick st) _); reflexivity.
Qed.

Lemma download_good_run (cfg : Config) (W : World) (url domain : string)
    (c : list byte) (i : ImageInfo) (st : State) :
  answers W url 200 c ->
  image_open W c = Some i ->
  image_verify W c = true ->
  download cfg W url domain st
  = (Ok tt,
     let filename := filename_of domain c (img_format i) in
     let path := images_path cfg filename in
     let ok := fs_write_ok W (S (S (tick st))) path in
     mkState (S (S (S (tick st)))) (text_storage st)
       (image_storage st ++ [image_record url domain c i (now W (S (tick st)))])
       (Log (if ok then INFO else ERROR)
            (if ok then SavedImage filename
             else ErrorSavingImage filename OSError)
        :: FileWrite path (ImageBytes c) ok
        :: HttpGet url [] :: trace st)).
Proof.
  intros Hans Hopen Hverify.
  unfold download, try_except, session_get.
  unfold bind at 1.
  rewrite (adapter_send_good W _ url [] 200 c st (Hans (tick st)) eq_refl).
  unfold raise_for_status, Image_open. cbn [fst snd].
  unfold bind at 1. cbn [fst snd Z.leb Z.ltb Z.compare Pos.compare
                         Pos.compare_cont andb ret].
  rewrite Hopen. unfold bind at 1. cbn [ret]. rewrite Hverify.
  unfold bind at 1. cbn [ret]. unfold bind at 1. cbn [ret].
  unfold bind at 1. unfold datetime_now, bind at 1, oracle_tick, ret.
  cbn [fst snd tick text_storage image_storage trace].
  rewrite store_image_run. reflexivity.
Qed.

Lemma download_errors_requests (url : string)
    (headers : list (string * string)) (n : nat) (tr : list Event) :
  download_errors (repeat (HttpGet url headers) n ++ tr) = download_errors tr.
Proof. induction n as [| n IH]; simpl; [reflexivity | exact IH]. Qed.

Lemma sources_cons (img : option string) (rest : list (option string)) :
  sources (img :: rest)
  = if wants_download img
    then match img with
         | Some src => src :: sources rest
         | None => sources rest
         end
    else sources rest.
Proof. destruct img as [src |]; [| reflexivity]. reflexivity. Qed.

(** The image loop on a page whose images are each either served well or
    failing for a reason of their own. *)
Lemma process_images_classified (cfg : Config) (W : World) (domain : string)
    (ok : string -> bool) (content : string -> list byte)
    (info : string -> ImageInfo) (exn : string -> Exn)
    (imgs : list (option string)) (st : State) :
  (forall src, In src (sources imgs) ->
     if ok src
     then answers W src 200 (content src)
          /\ image_open W (content src) = Some (info src)
          /\ image_verify W (content src) = true
     else fails_with W src (exn src)) ->
  exists st' new,
    process_images cfg W imgs domain st = (Ok tt, st')
    /\ text_storage st' = text_storage st
    /\ image_storage st' = (image_storage st ++ new)%list
    /\ map undated new
       = map (fun src => image_record src domain (content src) (info src) "")
             (filter ok (sources imgs))
    /\ rev (download_errors (trace st'))
       = (rev (download_errors (trace st))
          ++ map (fun src => (src, exn src))
                 (filter (fun src => negb (ok src)) (sources imgs)))%list.
Proof.
  revert st. induction imgs as [| img rest IH]; intros st Hclass.
  - exists st, []. cbn [sources filter map]. rewrite !app_nil_r.
    now repeat split.
  - rewrite process_images_cons. rewrite sources_cons in *.
    destruct (wants_download img) eqn:Hw; [| now apply IH].
    destruct img as [src |]; [| discriminate].
    pose proof (Hclass src (or_introl eq_refl)) as Hsrc.
    assert (Hrest : forall s, In s (sources rest) ->
              if ok s
              then answers W s 200 (content s)
                   /\ image_open W (content s) = Some (info s)
                   /\ image_verify W (content s) = true
              else fails_with W s (exn s))
      by (intros s Hs; apply Hclass; now right).
    cbn [filter]. destruct (ok src) eqn:Hok; cbn [negb].
    + destruct Hsrc as (Hans & Hopen & Hverify).
      rewrite (bind_ok _ _ _ _ _
                 (download_good_run cfg W src domain _ _ st Hans Hopen
                                    Hverify)).
      cbv zeta.
      match goal with
      | |- context [process_images cfg W rest domain ?s] =>
          destruct (IH s Hrest) as (st' & new & Hrun & Htx & Hst & Hnew & Herr)
      end.
      cbn [text_storage image_storage trace] in Htx, Hst, Herr.
      eexists st', (_ :: new). split; [exact Hrun |].
      split; [exact Htx |]. split; [rewrite Hst, <- app_assoc; reflexivity |].
      split; [cbn [map]; rewrite Hnew; reflexivity |].
      rewrite Herr. f_equal. f_equal.
      destruct (fs_write_ok W _ _); reflexivity.
    + rewrite (bind_ok _ _ _ _ _
                 (download_fails_run cfg W src domain _ st Hsrc)).
      match goal with
      | |- context [process_images cfg W rest domain ?s] =>
          destruct (IH s Hrest) as (st' & new & Hrun & Htx & Hst & Hnew & Herr)
      end.
      cbn [text_storage image_storage trace] in Htx, Hst, Herr.
      exists st', new. split; [exact Hrun |]. split; [exact Htx |].
      split; [exact Hst |]. split; [exact Hnew |].
      rewrite Herr. cbn [download_errors map].
      rewrite download_errors_requests. cbn [rev].
      rewrite <- app_assoc. reflexivity.
Qed.

(** C5. A failure while one image is acquired stays inside [download].
    Whatever makes the image fail (the network fails at every request, the
    server keeps answering with a status of the retry list, it answers
    with another error status, the bytes are not identified by
    [Image.open], [verify] refuses them), [download] returns normally
    after it has logged the error with the URL of the image, and has
    stored and written nothing.  An image that is served and decoded is
    recorded and written, and when the write fails the error is logged by
    the storage manager and [download] returns all the same.  The image
    loop always returns and never touches the text buffer.  And on a page
    whose images are each either served well or failing, the loop stores
    the records of the former and logs the errors of the latter, in the
    order of the page: what happens to one image changes nothing for the
    others. *)
Theorem image_failures_are_isolated (cfg : Config) (W : World)
    (domain : string) :
  (forall url e st,
     fails_with W url e ->
     download cfg W url domain st
     = (Ok tt,
        mkState (requests_sent cfg e + tick st) (text_storage st)
          (image_storage st)
          (Log ERROR (ErrorDownloadingImage url e)
           :: repeat (HttpGet url []) (requests_sent cfg e) ++ trace st)))
  /\ (forall url c i st,
        answers W url 200 c ->
        image_open W c = Some i ->
        image_verify W c = true ->
        download cfg W url domain st
        = (Ok tt,
           let filename := filename_of domain c (img_format i) in
           let path := images_path cfg filename in
           let ok := fs_write_ok W (S (S (tick st))) path in
           mkState (S (S (S (tick st)))) (text_storage st)
             (image_storage st
              ++ [image_record url domain c i (now W (S (tick st)))])
             (Log (if ok then INFO else ERROR)
                  (if ok then SavedImage filename
                   else ErrorSavingImage filename OSError)
              :: FileWrite path (ImageBytes c) ok
              :: HttpGet url [] :: trace st)))
  /\ (forall imgs st, exists st',
        process_images cfg W imgs domain st = (Ok tt, st')
        /\ text_storage st' = text_storage st)
  /\ (forall imgs (ok : string -> bool) (content : string -> list byte)
             (info : string -> ImageInfo) (exn : string -> Exn) st,
        (forall src, In src (sources imgs) ->
           if ok src
           then answers W src 200 (content src)
                /\ image_open W (content src) = Some (info src)
                /\ image_verify W (content src) = true
           else fails_with W src (exn src)) ->
        exists st' new,
          process_images cfg W imgs domain st = (Ok tt, st')
          /\ text_storage st' = text_storage st
          /\ image_storage st' = (image_storage st ++ new)%list
          /\ map undated new
             = map (fun src =>
                      image_record src domain (content src) (info src) "")
                   (filter ok (sources imgs))
          /\ rev (download_errors (trace st'))
             = (rev (download_errors (trace st))
                ++ map (fun src => (src, exn src))
                       (filter (fun src => negb (ok src)) (sources imgs)))%list).
Proof.
  split; [| split; [| split]].
  - intros url e st. apply download_fails_run.
  - intros url c i st. apply download_good_run.
  - intros imgs st.
    destruct (process_images_returns cfg W imgs domain st) as (st' & Hrun).
    exists st'. split; [exact Hrun |].
    pose proof (process_images_same_texts cfg W imgs domain st) as Ht.
    now rewrite Hrun in Ht.
  - intros imgs ok content info exn st. apply process_images_classified.
Qed.

Lemma image_failures_are_isolated_witness :
  fails_with world_images "https://img.example/gone.png" (HTTPError 404)
  /\ sources images_of_post
     = [ "https://img.example/ok.png"; "https://img.example/gone.png" ]%string
  /\ exists st' new,
       process_images CONFIG world_images images_of_post "page.example"
                      initial_state = (Ok tt, st')
       /\ text_storage st' = []
       /\ image_storage st' = new
       /\ map undated new
          = [ image_record "https://img.example/ok.png" "page.example"
                png_bytes (mkImageInfo "PNG" (1, 1)) "" ]
       /\ rev (download_errors (trace st'))
          = [ ("https://img.example/gone.png"%string, HTTPError 404) ].
Proof.
  assert (Hgone : fails_with world_images "https://img.example/gone.png"
                             (HTTPError 404)).
  { apply (fails_status _ _ 404 []); [intros t | |]; reflexivity. }
  split; [exact Hgone |]. split; [reflexivity |].
  destruct (proj2 (proj2 (proj2 (image_failures_are_isolated CONFIG
                                   world_images "page.example")))
              images_of_post
              (String.eqb "https://img.example/ok.png")
              (fun _ => png_bytes) (fun _ => mkImageInfo "PNG" (1, 1))
              (fun _ => HTTPError 404) initial_state)
    as (st' & new & Hrun & Htx & Hst & Hnew & Herr).
  - intros src [<- | [<- | []]]; simpl.
    + split; [intros t; reflexivity |]. split; reflexivity.
    + exact Hgone.
  - exists st', new. split; [exact Hrun |]. split; [exact Htx |].
    split; [exact Hst |]. split; [exact Hnew | exact Herr].
Defined.

(** The scenario of the specification: a page with a valid PNG and an
    image that answers 404 (and two <img> without an http source).  The
    text is stored, one image record is stored under its content-addressed
    name, one image error is logged. *)
Example page_with_a_broken_image :
  let st := snd (scrape_page CONFIG world_images "https://page.example/post"
                             initial_state) in
  map text_url (text_storage st) = ["https://page.example/post"%string]
  /\ map image_filename (image_storage st)
     = [ "page.example_b7c23e74a00c13aa5dd34e3ec6f1999483a340aeebc4f054fad4c98bc66d3e35.png"%string ]
  /\ filter is_image_event (trace st)
     = [ Log ERROR (ErrorDownloadingImage "https://img.example/gone.png"
                                          (HTTPError 404));
         Log INFO (SavedImage
           "page.example_b7c23e74a00c13aa5dd34e3ec6f1999483a340aeebc4f054fad4c98bc66d3e35.png");
         FileWrite
           "ai_training_data/images/page.example_b7c23e74a00c13aa5dd34e3ec6f1999483a340aeebc4f054fad4c98bc66d3e35.png"
           (ImageBytes png_bytes) true ].
Proof. vm_compute. repeat split. Qed.

(** ** Counting events *)

Lemma same_count_trans (p : Event -> bool) (a b c : State) :
  same_count p a b -> same_count p b c -> same_count p a c.
Proof. unfold same_count. congruence. Qed.

Lemma same_count_emit (p : Event -> bool) (e : Event) (st : State) :
  p e = false ->
  same_count p st (mkState (tick st) (text_storage st) (image_storage st)
                           (e :: trace st)).
Proof. intros H. unfold same_count, count. simpl. now rewrite H. Qed.

Lemma count_emit (p : Event -> bool) (e : Event) (st : State) :
  count p (mkState (tick st) (text_storage st) (image_storage st)
                   (e :: trace st))
  = ((if p e then 1 else 0) + count p st)%nat.
Proof. unfold count. simpl. now destruct (p e). Qed.

Lemma after_robots_same_robots_count (cfg : Config) (W : World)
    (url domain u : string) (rp : RobotFileParser) :
  respects (same_count (is_robots_get u)) (after_robots cfg W url domain rp).
Proof.
  apply (respects_after_robots (same_count (is_robots_get u))
           (fun st => eq_refl) (same_count_trans _)
           (fun e => is_robots_get u e = false));
    try (intros; reflexivity).
  apply same_count_emit.
Qed.

Lemma get_robots_parser_count (W : World) (domain u : string) (st : State) :
  count (is_robots_get u) (snd (get_robots_parser W domain st))
  = (count (is_robots_get u) st
     + (if String.eqb (domain ++ "/robots.txt") u then 1 else 0))%nat.
Proof.
  unfold get_robots_parser, try_except, rp_read, bind, oracle_tick, emit,
    logging, emit, ret, raise. simpl.
  destruct (robots_txt W (tick st) (domain ++ "/robots.txt"))
    as [e | code | allowance]; simpl;
    try (destruct ((code =? 401) || (code =? 403));
         [| destruct ((400 <=? code) && (code <? 500))]);
    unfold count; simpl;
    destruct (String.eqb (domain ++ "/robots.txt") u); simpl; lia.
Qed.

(** One task asks for robots.txt exactly once when its URL has a domain,
    and never otherwise. *)
Lemma scrape_page_robots_count (cfg : Config) (W : World) (url u : string)
    (st : State) :
  count (is_robots_get u) (snd (scrape_page cfg W url st))
  = (count (is_robots_get u) st + (if asks_robots u url then 1 else 0))%nat.
Proof.
  assert (Hhandler : forall e,
            respects (same_count (is_robots_get u))
                     (logging ERROR (ErrorScraping url e))).
  { intros e s. now apply same_count_emit. }
  pose proof (respects_try_except_from (same_count (is_robots_get u))
                (fun s => eq_refl) (scrape_body cfg W url)
                (fun e => logging ERROR (ErrorScraping url e)) st Hhandler)
    as Htry.
  unfold same_count in Htry. unfold scrape_page. rewrite Htry. clear Htry.
  unfold scrape_body, asks_robots, robots_url_of.
  destruct (url_domain url) as [domain |].
  - rewrite (bind_ok _ _ st st domain eq_refl).
    pose proof (respects_bind_from (same_count (is_robots_get u))
                  (fun s => eq_refl)
                  (get_robots_parser W ("https://" ++ domain)%string)
                  (after_robots cfg W url domain) st
                  (after_robots_same_robots_count cfg W url domain u))
      as Hrest.
    unfold same_count in Hrest.
    change (count (is_robots_get u)
              (snd (bind (get_robots_parser W ("https://" ++ domain)%string)
                         (after_robots cfg W url domain) st))
            = (count (is_robots_get u) st
               + (if String.eqb ("https://" ++ domain ++ "/robots.txt") u
                  then 1 else 0))%nat).
    rewrite Hrest. apply get_robots_parser_count.
  - unfold bind, raise. simpl. lia.
Qed.

Lemma scrape_page_returns (cfg : Config) (W : World) (url : string)
    (st : State) :
  exists st', scrape_page cfg W url st = (Ok tt, st').
Proof.
  unfold scrape_page, try_except.
  destruct (scrape_body cfg W url st) as [[[] | e] st1].
  - now exists st1.
  - eexists. reflexivity.
Qed.

Lemma run_cons (cfg : Config) (W : World) (url : string)
    (rest : list string) (st : State) :
  run cfg W (url :: rest) st = run cfg W rest (snd (scrape_page cfg W url st)).
Proof.
  destruct (scrape_page_returns cfg W url st) as (st1 & H1).
  simpl. unfold bind, try_except. now rewrite H1.
Qed.

(** C2 (as the code has it). Nothing is cached: during a run the number of
    requests for a given robots.txt address is the number of seed URLs
    whose domain has that address, one request for each task. *)
Theorem robots_fetched_once_per_task (cfg : Config) (W : World)
    (seed_urls : list string) (u : string) (st : State) :
  count (is_robots_get u) (snd (run cfg W seed_urls st))
  = (count (is_robots_get u) st
     + List.length (filter (asks_robots u) seed_urls))%nat.
Proof.
  revert st. induction seed_urls as [| url rest IH]; intros st.
  - simpl. lia.
  - rewrite run_cons, IH, scrape_page_robots_count. simpl.
    destruct (asks_robots u url); simpl; lia.
Qed.

(** C2 fails on the seed list of the main block: its two URLs share the
    domain example.com and robots.txt of example.com is requested twice. *)
Lemma robots_fetched_twice_for_one_domain :
  asks_robots "https://example.com/robots.txt" "https://example.com/article1"
    = true
  /\ asks_robots "https://example.com/robots.txt"
                 "https://example.com/article2" = true
  /\ count (is_robots_get "https://example.com/robots.txt")
       (snd (run CONFIG world_example_com
               [ "https://example.com/article1";
                 "https://example.com/article2" ]%string initial_state))
     = 2%nat
  /\ ~ (count (is_robots_get "https://example.com/robots.txt")
          (snd (run CONFIG world_example_com
                  [ "https://example.com/article1";
                    "https://example.com/article2" ]%string initial_state))
        <= 1)%nat.
Proof.
  split; [reflexivity |]. split; [reflexivity |].
  assert (H : count (is_robots_get "https://example.com/robots.txt")
                (snd (run CONFIG world_example_com
                        [ "https://example.com/article1";
                          "https://example.com/article2" ]%string
                        initial_state)) = 2%nat)
    by (vm_compute; reflexivity).
  split; [exact H |]. rewrite H. lia.
Qed.

(** ** Tasks and the run *)

(** The scenario of the specification: one page answers 200 with 600
    characters of English text, the other answers 404.  One record is
    buffered, one task error is logged, the run completes and the final
    flush writes that one record, once for each configured format. *)
Example one_good_page_one_404 :
  let st1 := snd (run CONFIG world_two_pages two_seeds initial_state) in
  let st2 := snd (main CONFIG world_two_pages two_seeds initial_state) in
  fst (main CONFIG world_two_pages two_seeds initial_state) = Ok tt
  /\ map text_url (text_storage st1) = ["https://good.example/a"%string]
  /\ filter is_error_scraping (trace st1)
     = [Log ERROR (ErrorScraping "https://bad.example/missing"
                                 (HTTPError 404))]
  /\ text_storage st2 = []
  /\ map (fun w => (fst (fst w), map text_url (snd (fst w)), snd w))
         (text_writes (trace st2))
     = [ ("parquet"%string, ["https://good.example/a"%string], true);
         ("jsonl"%string, ["https://good.example/a"%string], true) ].
Proof. vm_compute. repeat split. Qed.

(** ** Retries *)

Lemma adapter_send_503 (W : World) (url : string)
    (headers : list (string * string)) :
  always_503 W url ->
  forall n st,
    fst (adapter_send W n url headers st) = Raise RetryError
    /\ count (is_http_get url) (snd (adapter_send W n url headers st))
       = (count (is_http_get url) st + S n)%nat
    /\ count is_attempt_failed (snd (adapter_send W n url headers st))
       = count is_attempt_failed st.
Proof.
  intros H503. induction n as [| n IH]; intros st;
    destruct (H503 (tick st)) as (content & Hc);
    simpl; unfold bind, oracle_tick, emit; simpl; rewrite Hc; simpl.
  - unfold count. simpl. rewrite String.eqb_refl. simpl.
    repeat split; lia.
  - destruct (IH (mkState (S (tick st)) (text_storage st) (image_storage st)
                          (HttpGet url headers :: trace st)))
      as (H1 & H2 & H3).
    rewrite H1, H2, H3. unfold count. simpl. rewrite String.eqb_refl. simpl.
    repeat split; lia.
Qed.

Lemma retry_loop_exhausts {A} (func : M A) (url : string) (e0 : Exn)
    (k : nat) (attempts backoff : Z) :
  (forall st,
     fst (func st) = Raise e0
     /\ count (is_http_get url) (snd (func st))
        = (count (is_http_get url) st + k)%nat
     /\ count is_attempt_failed (snd (func st))
        = count is_attempt_failed st) ->
  forall range st,
    fst (retry_loop func attempts backoff range st)
    = Raise MaximumRetryAttempts
    /\ count (is_http_get url)
             (snd (retry_loop func attempts backoff range st))
       = (count (is_http_get url) st + k * List.length range)%nat
    /\ count is_attempt_failed
             (snd (retry_loop func attempts backoff range st))
       = (count is_attempt_failed st + List.length range)%nat.
Proof.
  intros Hfunc. induction range as [| attempt rest IH]; intros st.
  - simpl. repeat split; lia.
  - simpl. unfold try_except.
    destruct (Hfunc st) as (Hf1 & Hf2 & Hf3).
    destruct (func st) as [[a | e] s1]; simpl in Hf1, Hf2, Hf3;
      [discriminate |].
    unfold bind, logging, time_sleep, emit, ret.
    destruct (attempt <? attempts); simpl;
      match goal with
      | |- context [retry_loop func attempts backoff rest ?s] =>
          destruct (IH s) as (H1 & H2 & H3)
      end;
      rewrite H1, H2, H3; unfold count in *; simpl;
      rewrite Nat.mul_succ_r; repeat split; lia.
Qed.

Lemma length_range1 (attempts : Z) :
  List.length (range1 attempts) = Z.to_nat attempts.
Proof. unfold range1. now rewrite length_map, length_seq. Qed.

(** C3 (as the code has it). Against a server that always answers 503 the
    attempt loop calls [session.get] exactly [retry_attempts] times, each
    call failing after the adapter has sent the request
    [1 + retry_attempts] times, and then raises the single error "Maximum
    retry attempts reached."; so [retry_attempts * (retry_attempts + 1)]
    requests are sent.  Against a 404 the first call sends one request and
    returns the response, the loop ends at once, and [raise_for_status]
    raises for the task. *)
Theorem fetch_retry_behaviour (cfg : Config) (W : World) (url : string)
    (headers : list (string * string)) (st : State) :
  (always_503 W url ->
   exists st',
     retry_request cfg (session_get cfg W url headers) st
     = (Raise MaximumRetryAttempts, st')
     /\ count is_attempt_failed st'
        = (count is_attempt_failed st + Z.to_nat (retry_attempts cfg))%nat
     /\ count (is_http_get url) st'
        = (count (is_http_get url) st
           + Z.to_nat (retry_attempts cfg)
             * (Z.to_nat (retry_attempts cfg) + 1))%nat)
  /\ (forall content,
        1 <= retry_attempts cfg ->
        http W (tick st) url = Response 404 content ->
        retry_request cfg (session_get cfg W url headers) st
        = (Ok (404, content),
           mkState (S (tick st)) (text_storage st) (image_storage st)
                   (HttpGet url headers :: trace st))
        /\ forall s, raise_for_status (404, content) s
                     = (Raise (HTTPError 404), s)).
Proof.
  split.
  - intros H503.
    destruct (retry_loop_exhausts (session_get cfg W url headers) url
                RetryError (S (Z.to_nat (retry_attempts cfg)))
                (retry_attempts cfg) (retry_backoff cfg)
                (fun s => adapter_send_503 W url headers H503 _ s)
                (range1 (retry_attempts cfg)) st) as (H1 & H2 & H3).
    rewrite length_range1 in H2, H3.
    unfold retry_request.
    destruct (retry_loop _ _ _ _ st) as [r st'] eqn:E. simpl in H1, H2, H3.
    exists st'. subst r. split; [reflexivity |]. split; [exact H3 |].
    rewrite H2. lia.
  - intros content Hattempts H404. split; [| reflexivity].
    unfold retry_request, range1, session_get.
    destruct (Z.to_nat (retry_attempts cfg)) as [| n] eqn:E; [lia |].
    cbn [seq map retry_loop]. unfold try_except.
    now rewrite (adapter_send_good W _ url headers 404 content st H404 eq_refl).
Qed.

Lemma fetch_retry_behaviour_witness :
  always_503 world_503 "https://example.com/a"
  /\ (exists st',
        retry_request CONFIG
          (session_get CONFIG world_503 "https://example.com/a"
                       browser_headers) initial_state
        = (Raise MaximumRetryAttempts, st')
        /\ count is_attempt_failed st' = 3%nat
        /\ count (is_http_get "https://example.com/a") st' = 12%nat)
  /\ 1 <= retry_attempts CONFIG
  /\ http world_two_pages 0 "https://bad.example/missing" = Response 404 []
  /\ retry_request CONFIG
       (session_get CONFIG world_two_pages "https://bad.example/missing"
                    browser_headers) initial_state
     = (Ok (404, []),
        mkState 1 [] [] [HttpGet "https://bad.example/missing"
                                 browser_headers]).
Proof.
  assert (H503 : always_503 world_503 "https://example.com/a")
    by (intros t; now exists []).
  assert (Hattempts : 1 <= retry_attempts CONFIG) by (simpl; lia).
  split; [exact H503 |]. split; [| split; [exact Hattempts |]].
  - destruct (fetch_retry_behaviour CONFIG world_503 "https://example.com/a"
                browser_headers initial_state) as [Hretry _].
    exact (Hretry H503).
  - split; [reflexivity |].
    destruct (fetch_retry_behaviour CONFIG world_two_pages
                "https://bad.example/missing" browser_headers initial_state)
      as [_ Hstop].
    exact (proj1 (Hstop [] Hattempts eq_refl)).
Defined.

(** C3 fails as stated: with [retry_attempts = 3] and a server that always
    answers 503, the task sends the request for the page twelve times
    (three calls of [session.get], four requests each), not three and not
    four, before it logs its single error. *)
Lemma persistent_503_sends_twelve_requests :
  always_503 world_503 "https://example.com/a"
  /\ retry_attempts CONFIG = 3
  /\ count (is_http_get "https://example.com/a")
       (snd (scrape_page CONFIG world_503 "https://example.com/a"
                         initial_state)) = 12%nat
  /\ ~ (count (is_http_get "https://example.com/a")
          (snd (scrape_page CONFIG world_503 "https://example.com/a"
                            initial_state))
        <= Z.to_nat (retry_attempts CONFIG) + 1)%nat
  /\ filter is_error_scraping
       (trace (snd (scrape_page CONFIG world_503 "https://example.com/a"
                                initial_state)))
     = [Log ERROR (ErrorScraping "https://example.com/a"
                                 MaximumRetryAttempts)].
Proof.
  split; [intros t; now exists [] |]. split; [reflexivity |].
  assert (H : count (is_http_get "https://example.com/a")
                (snd (scrape_page CONFIG world_503 "https://example.com/a"
                                  initial_state)) = 12%nat)
    by (vm_compute; reflexivity).
  split; [exact H |]. split; [rewrite H; simpl; lia |].
  vm_compute. reflexivity.
Qed.

(** ** Content-addressed file names *)

Lemma hex_of_length (n : nat) (v : Z) : String.length (Hashlib.hex_of n v) = n.
Proof. induction n as [| n IH]; simpl; [reflexivity | now rewrite IH]. Qed.

Lemma append_cancel_l (a x y : string) :
  (a ++ x)%string = (a ++ y)%string -> x = y.
Proof.
  induction a as [| ch a IH]; simpl; intros H; [exact H |].
  inversion H. auto.
Qed.

Lemma append_split_same_length (a b x y : string) :
  String.length a = String.length b ->
  (a ++ x)%string = (b ++ y)%string -> a = b /\ x = y.
Proof.
  revert b. induction a as [| ch a IH]; intros [| ch' b]; simpl;
    intros Hlen H; try discriminate.
  - now split.
  - inversion H; subst. injection Hlen as Hlen.
    destruct (IH b Hlen H2) as [-> ->]. now split.
Qed.

(** The file name determines the digest and the lower-cased format. *)
Lemma filename_of_inj (domain : string) (c1 c2 : list byte) (f1 f2 : string) :
  filename_of domain c1 f1 = filename_of domain c2 f2 ->
  Hashlib.hexdigest c1 = Hashlib.hexdigest c2 /\ Str.lower f1 = Str.lower f2.
Proof.
  unfold filename_of. intros H.
  apply append_cancel_l in H. apply append_cancel_l in H.
  apply append_split_same_length in H as [Hd Hf].
  - split; [exact Hd |]. now apply append_cancel_l in Hf.
  - unfold Hashlib.hexdigest. now rewrite !hex_of_length.
Qed.

Lemma app_one_neq {A} (l : list A) (x : A) : l <> (l ++ [x])%list.
Proof.
  intros H. apply (f_equal (@List.length A)) in H.
  rewrite length_app in H. simpl in H. lia.
Qed.

(** What [acquired] tells: the bytes were accepted by the decoder and the
    record carries the name made of the domain, their digest and their
    format. *)
Lemma acquired_inv (cfg : Config) (W : World) (url domain : string)
    (st : State) (c : list byte) (r : ImageRecord) :
  acquired cfg W url domain st c r ->
  exists i,
    image_open W c = Some i
    /\ image_filename r = filename_of domain c (img_format i).
Proof.
  unfold acquired. intros [Hledger Hwrite].
  destruct (download_cases cfg W url domain st)
    as (st' & Hrun & _ & [(c' & i & ts & Hi & Hst & Hwr) | (Hst & _ & _)]);
    rewrite Hrun in Hledger, Hwrite; simpl in Hledger, Hwrite.
  - rewrite Hst in Hledger. apply app_inv_head in Hledger.
    injection Hledger as <-.
    rewrite Hwr in Hwrite. injection Hwrite as Hc. subst c'.
    exists i. now split.
  - rewrite Hst in Hledger. now apply app_one_neq in Hledger.
Qed.

(** C6 (as the code has it). For images acquired from the same domain:
    the file name is [{domain}_{sha256(content)}.{format}] with the format
    in lower case; byte-identical content gets the identical name; and two
    byte streams get the same name only if their SHA-256 digests are the
    same. *)
Theorem image_filename_content_addressed (cfg : Config) (W : World)
    (domain url1 url2 : string) (st1 st2 : State) (c1 c2 : list byte)
    (r1 r2 : ImageRecord) :
  acquired cfg W url1 domain st1 c1 r1 ->
  acquired cfg W url2 domain st2 c2 r2 ->
  image_filename r1
  = (domain ++ "_" ++ Hashlib.hexdigest c1 ++ "."
     ++ Str.lower (image_format r1))%string
  /\ (c1 = c2 -> image_filename r1 = image_filename r2)
  /\ (image_filename r1 = image_filename r2 ->
      Hashlib.hexdigest c1 = Hashlib.hexdigest c2).
Proof.
  intros H1 H2.
  pose proof H1 as [Hledger1 _].
  destruct (acquired_inv _ _ _ _ _ _ _ H1) as (i1 & Hi1 & Hn1).
  destruct (acquired_inv _ _ _ _ _ _ _ H2) as (i2 & Hi2 & Hn2).
  split; [| split].
  - destruct (download_cases cfg W url1 domain st1)
      as (st' & Hrun & _ & [(c' & i & ts & Hi & Hst & Hwr) | (Hst & _ & _)]);
      rewrite Hrun in Hledger1; simpl in Hledger1; rewrite Hst in Hledger1.
    + apply app_inv_head in Hledger1. injection Hledger1 as Hr. subst r1.
      destruct H1 as [_ Hw1]. rewrite Hrun in Hw1. cbn [snd] in Hw1.
      rewrite Hwr in Hw1. inversion Hw1. reflexivity.
    + now apply app_one_neq in Hledger1.
  - intros ->. rewrite Hn1, Hn2. congruence.
  - intros Heq. rewrite Hn1, Hn2 in Heq.
    apply filename_of_inj in Heq. exact (proj1 Heq).
Qed.

Lemma image_filename_content_addressed_witness :
  acquired CONFIG world_images "https://img.example/ok.png" "page.example"
           initial_state png_bytes (png_record "https://img.example/ok.png")
  /\ acquired CONFIG world_images "https://img.example/copy.png"
              "page.example" initial_state png_bytes
              (png_record "https://img.example/copy.png")
  /\ image_filename (png_record "https://img.example/ok.png")
     = image_filename (png_record "https://img.example/copy.png")
  /\ Hashlib.hexdigest png_bytes
     = "b7c23e74a00c13aa5dd34e3ec6f1999483a340aeebc4f054fad4c98bc66d3e35"%string.
Proof.
  assert (H1 : acquired CONFIG world_images "https://img.example/ok.png"
                 "page.example" initial_state png_bytes
                 (png_record "https://img.example/ok.png"))
    by (unfold acquired; vm_compute; split; reflexivity).
  assert (H2 : acquired CONFIG world_images "https://img.example/copy.png"
                 "page.example" initial_state png_bytes
                 (png_record "https://img.example/copy.png"))
    by (unfold acquired; vm_compute; split; reflexivity).
  split; [exact H1 |]. split; [exact H2 |].
  destruct (image_filename_content_addressed CONFIG world_images
              "page.example" _ _ _ _ _ _ _ _ H1 H2) as (_ & Hsame & _).
  split; [exact (Hsame eq_refl) |].
  vm_compute. reflexivity.
Defined.

(** *** SHA-256 has collisions *)

Lemma add32_range (a b : Z) : 0 <= Hashlib.add32 a b < 2 ^ 32.
Proof. unfold Hashlib.add32. apply Z.mod_pos_bound. lia. Qed.

Lemma compress_words_ok (s : Hashlib.Words8) (block : list Z) :
  words_ok (Hashlib.compress s block).
Proof.
  unfold words_ok, Hashlib.compress. cbn [Hashlib.wa Hashlib.wb Hashlib.wc
    Hashlib.wd Hashlib.we Hashlib.wf Hashlib.wg Hashlib.wh].
  repeat split; apply add32_range.
Qed.

Lemma fold_compress_words_ok (blocks : list (list Z)) (s : Hashlib.Words8) :
  words_ok s -> words_ok (fold_left Hashlib.compress blocks s).
Proof.
  revert s. induction blocks as [| b rest IH]; intros s Hs; [exact Hs |].
  cbn [fold_left]. apply IH, compress_words_ok.
Qed.

Lemma IV_words_ok : words_ok Hashlib.IV.
Proof. unfold words_ok, Hashlib.IV. simpl. lia. Qed.

Lemma words_int_range (s : Hashlib.Words8) :
  words_ok s -> 0 <= Hashlib.words_int s < digest_space.
Proof.
  unfold words_ok, Hashlib.words_int, digest_space.
  destruct s as [a b c d e f g h]. simpl Hashlib.wa. simpl Hashlib.wb.
  simpl Hashlib.wc. simpl Hashlib.wd. simpl Hashlib.we. simpl Hashlib.wf.
  simpl Hashlib.wg. simpl Hashlib.wh.
  lia.
Qed.

Lemma sha256_int_range (msg : list byte) :
  0 <= Hashlib.sha256_int msg < digest_space.
Proof.
  unfold Hashlib.sha256_int, Hashlib.sha256_words.
  apply words_int_range, fold_compress_words_ok, IV_words_ok.
Qed.

Lemma bounded_search (f : nat -> nat) (v n : nat) :
  (exists i, (i <= n)%nat /\ f i = v)
  \/ (forall i, (i <= n)%nat -> f i <> v).
Proof.
  induction n as [| n [(i & Hi & Hv) | Hnone]].
  - destruct (Nat.eq_dec (f 0%nat) v) as [H | H].
    + left. exists 0%nat. split; [lia | exact H].
    + right. intros i Hi. replace i with 0%nat by lia. exact H.
  - left. exists i. split; [lia | exact Hv].
  - destruct (Nat.eq_dec (f (S n)) v) as [H | H].
    + left. exists (S n). split; [lia | exact H].
    + right. intros i Hi.
      destruct (Nat.eq_dec i (S n)) as [-> | Hne]; [exact H |].
      apply Hnone. lia.
Qed.

(** [n + 1] arguments cannot all have different values below [n]. *)
Lemma two_share_a_value (n : nat) :
  forall f : nat -> nat,
    (forall i, (i <= n)%nat -> (f i < n)%nat) ->
    exists i j, (i < j <= n)%nat /\ f i = f j.
Proof.
  induction n as [| n IH]; intros f Hf.
  - specialize (Hf 0%nat (Nat.le_refl 0)). lia.
  - destruct (bounded_search f (f (S n)) n) as [(i & Hi & Hv) | Hfresh].
    + exists i, (S n). split; [lia | exact Hv].
    + set (v := f (S n)) in *.
      set (g := fun i => if (f i <? v)%nat then f i else Nat.pred (f i)).
      assert (Hg : forall i, (i <= n)%nat -> (g i < n)%nat).
      { intros i Hi. unfold g.
        pose proof (Hf i ltac:(lia)) as Hfi.
        pose proof (Hf (S n) (Nat.le_refl _)) as Hfv. fold v in Hfv.
        pose proof (Hfresh i Hi) as Hne.
        destruct (Nat.ltb_spec (f i) v); lia. }
      destruct (IH g Hg) as (i & j & Hij & Hgij).
      exists i, j. split; [lia |].
      pose proof (Hfresh i ltac:(lia)) as Hni.
      pose proof (Hfresh j ltac:(lia)) as Hnj.
      unfold g in Hgij.
      destruct (Nat.ltb_spec (f i) v); destruct (Nat.ltb_spec (f j) v); lia.
Qed.

Lemma download_acquires_served (cfg : Config) (W : World)
    (url domain : string) (c : list byte) (i : ImageInfo) (st : State) :
  serves W url c ->
  image_open W c = Some i ->
  image_verify W c = true ->
  exists ts,
    acquired cfg W url domain st c
      (mkImageRecord url (filename_of domain c (img_format i))
                     (img_size i) (img_format i) domain ts).
Proof.
  intros Hserves Hopen Hverify.
  destruct (download_served_run cfg W url domain c i st Hserves Hopen Hverify)
    as (st' & Hrun & Hledger & Hwrites).
  exists (now W (S (tick st))). unfold acquired. rewrite Hrun.
  cbn [snd image_filename]. split; [exact Hledger | exact Hwrites].
Qed.

(** *** PNG files that the decoder accepts *)

Lemma to_Z_range (b : byte) : 0 <= Png.to_Z b < 256.
Proof.
  unfold Png.to_Z. pose proof (Byte.to_N_bounded b) as H.
  split; [apply N2Z.is_nonneg |].
  apply N2Z.inj_le in H. simpl in H. lia.
Qed.

Lemma to_Z_of_Z (v : Z) : Png.to_Z (Png.of_Z v) = v mod 256.
Proof.
  unfold Png.to_Z, Png.of_Z.
  pose proof (Z.mod_pos_bound v 256 ltac:(lia)) as Hr.
  destruct (Byte.of_N (Z.to_N (v mod 256))) as [b |] eqn:E.
  - apply Byte.to_of_N in E. rewrite E. apply Z2N.id. lia.
  - apply Byte.of_N_None_iff in E. lia.
Qed.

Lemma i32_o32 (v : Z) : 0 <= v < 2 ^ 32 -> Png.i32 (Png.o32 v) = v.
Proof.
  intros Hv. unfold Png.i32, Png.o32. cbn [nth].
  rewrite !to_Z_of_Z.
  change (2 ^ 24) with 16777216. change (2 ^ 16) with 65536.
  change (2 ^ 8) with 256. change (2 ^ 32) with 4294967296 in Hv.
  Z.div_mod_to_equations. lia.
Qed.

Lemma lxor_range (a b : Z) :
  0 <= a < 2 ^ 32 -> 0 <= b < 2 ^ 32 -> 0 <= Z.lxor a b < 2 ^ 32.
Proof.
  intros Ha Hb.
  assert (Hnn : 0 <= Z.lxor a b) by (apply Z.lxor_nonneg; lia).
  split; [exact Hnn |].
  destruct (Z.eq_dec (Z.lxor a b) 0) as [-> | Hne]; [reflexivity |].
  apply Z.log2_lt_pow2; [lia |].
  pose proof (Z.log2_lxor a b ltac:(lia) ltac:(lia)) as Hl.
  assert (Hla : Z.log2 a < 32).
  { destruct (Z.eq_dec a 0) as [-> | Hz]; [reflexivity |].
    apply Z.log2_lt_pow2; lia. }
  assert (Hlb : Z.log2 b < 32).
  { destruct (Z.eq_dec b 0) as [-> | Hz]; [reflexivity |].
    apply Z.log2_lt_pow2; lia. }
  lia.
Qed.

Lemma crc_shift_range (n : nat) (c : Z) :
  0 <= c < 2 ^ 32 -> 0 <= Png.crc_shift n c < 2 ^ 32.
Proof.
  revert c. induction n as [| n IH]; intros c Hc; [exact Hc |].
  cbn [Png.crc_shift]. apply IH.
  assert (Hs : 0 <= Z.shiftr c 1 < 2 ^ 32).
  { rewrite Z.shiftr_div_pow2 by lia. change (2 ^ 1) with 2.
    change (2 ^ 32) with 4294967296 in *.
    Z.div_mod_to_equations. lia. }
  destruct (Z.odd c); [| exact Hs].
  apply lxor_range; [exact Hs |]. change (2 ^ 32) with 4294967296. lia.
Qed.

Lemma crc32_range (data : list byte) : 0 <= Png.crc32 data < 2 ^ 32.
Proof.
  unfold Png.crc32.
  assert (H : forall c, 0 <= c < 2 ^ 32 ->
                        0 <= fold_left Png.crc_step data c < 2 ^ 32).
  { induction data as [| b data IH]; intros c Hc; [exact Hc |].
    cbn [fold_left]. apply IH. unfold Png.crc_step.
    apply crc_shift_range, lxor_range; [exact Hc |].
    pose proof (to_Z_range b). change (2 ^ 32) with 4294967296. lia. }
  apply lxor_range; [apply H |]; change (2 ^ 32) with 4294967296; lia.
Qed.

Lemma firstn_length_app {A} (a b : list A) :
  firstn (List.length a) (a ++ b) = a.
Proof. induction a as [| x a IH]; simpl; [reflexivity | now rewrite IH]. Qed.

Lemma skipn_length_app {A} (a b : list A) :
  skipn (List.length a) (a ++ b) = b.
Proof. induction a as [| x a IH]; simpl; [reflexivity | exact IH]. Qed.

Lemma chunk_length (cid data : list byte) :
  List.length (Png.chunk cid data)
  = (8 + List.length cid + List.length data)%nat.
Proof.
  unfold Png.chunk, Png.o32. rewrite !length_app. cbn [List.length]. lia.
Qed.

(** A chunk that was written is read back. *)
Lemma read_chunk_chunk (cid data rest : list byte) :
  List.length cid = 4%nat ->
  Z.of_nat (List.length data) < 2 ^ 32 ->
  Png.read_chunk (Png.chunk cid data ++ rest) = Some (cid, data, rest).
Proof.
  intros Hcid Hlen.
  destruct cid as [| c0 [| c1 [| c2 [| c3 [| c4 cid]]]]]; try discriminate.
  unfold Png.chunk.
  set (crc := Png.crc32 ([c0; c1; c2; c3] ++ data)).
  set (len := Png.o32 (Z.of_nat (List.length data))).
  assert (Hn : Z.to_nat (Png.i32 len) = List.length data).
  { unfold len. rewrite i32_o32 by lia. apply Nat2Z.id. }
  unfold len in *. clear len. unfold Png.o32 at 1.
  cbn [app]. unfold Png.read_chunk.
  fold (Png.o32 (Z.of_nat (List.length data))). rewrite Hn.
  rewrite <- app_assoc.
  rewrite firstn_length_app, skipn_length_app.
  unfold Png.o32 at 2. cbn [app firstn skipn].
  fold (Png.o32 crc). rewrite (i32_o32 crc) by apply crc32_range.
  fold crc. rewrite Z.eqb_refl.
  assert (Hle : Nat.leb (List.length data + 4)
                  (List.length (data ++ Png.o32 crc ++ rest)) = true).
  { apply Nat.leb_le. rewrite !length_app. unfold Png.o32.
    cbn [List.length]. lia. }
  rewrite Hle. reflexivity.
Qed.

Lemma decode_with_comment (n : nat) :
  Png.decode (Png.with_comment n) = Some (mkImageInfo "PNG" (1, 1)).
Proof.
  unfold Png.decode, Png.with_comment.
  rewrite (firstn_length_app Png.magic), (skipn_length_app Png.magic).
  rewrite read_chunk_chunk; [| reflexivity | reflexivity].
  change (Png.same_bytes Png.magic Png.magic) with true.
  change (Png.same_bytes Png.IHDR Png.IHDR) with true.
  change (Png.header_ok Png.header_1x1) with true.
  cbn [andb].
  assert (Hlen : Z.of_nat (List.length (Png.comment n)) < 2 ^ 32)
    by (unfold Png.comment; rewrite length_app; reflexivity).
  rewrite !length_app, !chunk_length. cbn [List.length Nat.add].
  cbn [Png.rest_ok].
  rewrite read_chunk_chunk; [| reflexivity | exact Hlen].
  change (Png.same_bytes Png.tEXt Png.IEND) with false.
  change (Png.same_bytes Png.tEXt Png.IDAT) with false. cbn [orb].
  rewrite read_chunk_chunk; [| reflexivity | reflexivity].
  change (Png.same_bytes Png.IDAT Png.IEND) with false.
  change (Png.same_bytes Png.IDAT Png.IDAT) with true. cbn [orb].
  rewrite <- (app_nil_r (Png.chunk Png.IEND [])).
  rewrite read_chunk_chunk; [| reflexivity | reflexivity].
  reflexivity.
Qed.

Lemma verify_with_comment (n : nat) : Png.verify (Png.with_comment n) = true.
Proof. unfold Png.verify. now rewrite decode_with_comment. Qed.

Lemma le_bytes_length (k : nat) (v : Z) : List.length (Png.le_bytes k v) = k.
Proof.
  revert v. induction k as [| k IH]; intros v; simpl;
    [reflexivity | now rewrite IH].
Qed.

Lemma le_value_bytes (k : nat) (v : Z) :
  Png.le_value (Png.le_bytes k v) = v mod 256 ^ Z.of_nat k.
Proof.
  revert v. induction k as [| k IH]; intros v.
  - simpl. now rewrite Z.mod_1_r.
  - cbn [Png.le_bytes Png.le_value]. rewrite to_Z_of_Z, IH.
    rewrite Nat2Z.inj_succ, Z.pow_succ_r by lia.
    rewrite Z.rem_mul_r; [reflexivity | lia |].
    apply Z.pow_pos_nonneg; lia.
Qed.

Lemma app_same_length {A} (a b x y : list A) :
  List.length a = List.length b -> (a ++ x)%list = (b ++ y)%list -> a = b.
Proof.
  revert b. induction a as [| h a IH]; intros [| h' b] Hlen H;
    try discriminate; [reflexivity |].
  simpl in H. injection H as -> H. injection Hlen as Hlen.
  now rewrite (IH b Hlen H).
Qed.

Lemma comment_length (n : nat) : List.length (Png.comment n) = 41%nat.
Proof.
  unfold Png.comment. rewrite length_app, le_bytes_length. reflexivity.
Qed.

Lemma with_comment_length (n : nat) :
  List.length (Png.with_comment n) = 120%nat.
Proof.
  unfold Png.with_comment. rewrite !length_app, !chunk_length, comment_length.
  reflexivity.
Qed.

(** Files with different numbers in their comment are different files. *)
Lemma with_comment_inj (i j : nat) :
  Z.of_nat i < 256 ^ 33 -> Z.of_nat j < 256 ^ 33 ->
  Png.with_comment i = Png.with_comment j -> i = j.
Proof.
  intros Hi Hj H. unfold Png.with_comment in H.
  apply app_inv_head in H. apply app_inv_head in H.
  apply app_inv_tail in H. unfold Png.chunk in H.
  rewrite !comment_length in H.
  apply app_inv_head in H. apply app_inv_head in H.
  apply app_same_length in H; [| now rewrite !comment_length].
  unfold Png.comment in H. apply app_inv_head in H.
  apply (f_equal Png.le_value) in H. rewrite !le_value_bytes in H.
  change (Z.of_nat 33) with 33 in H.
  rewrite !Z.mod_small in H by lia. lia.
Qed.

(** More byte streams than digests: in a family of byte streams that are
    pairwise different up to the number of digests, two different ones
    have the same SHA-256 digest. *)
Lemma digest_collision (family : nat -> list byte) :
  (forall i j, (i <= Z.to_nat digest_space)%nat ->
               (j <= Z.to_nat digest_space)%nat ->
               family i = family j -> i = j) ->
  exists i j,
    family i <> family j
    /\ Hashlib.sha256_int (family i) = Hashlib.sha256_int (family j).
Proof.
  intros Hinj.
  destruct (two_share_a_value (Z.to_nat digest_space)
              (fun i => Z.to_nat (Hashlib.sha256_int (family i))))
    as (i & j & Hij & Heq).
  - intros i _.
    pose proof (sha256_int_range (family i)) as [Hlo Hhi].
    apply Z2Nat.inj_lt; [exact Hlo | | exact Hhi].
    apply Z.le_trans with (Hashlib.sha256_int (family i));
      [exact Hlo | apply Z.lt_le_incl, Hhi].
  - exists i, j. split.
    + intros Hsame. apply Hinj in Hsame; lia.
    + apply Z2Nat.inj;
        [apply sha256_int_range | apply sha256_int_range | exact Heq].
Qed.

(** Two different PNG files of the family have the same SHA-256 digest:
    the family has 2^264 files. *)
Lemma sha256_collision :
  exists i j,
    Png.with_comment i <> Png.with_comment j
    /\ Hashlib.sha256_int (Png.with_comment i)
       = Hashlib.sha256_int (Png.with_comment j).
Proof.
  apply (digest_collision Png.with_comment).
  assert (Hsmall : forall k, (k <= Z.to_nat digest_space)%nat ->
                             Z.of_nat k < 256 ^ 33).
  { intros k Hk. apply Nat2Z.inj_le in Hk.
    rewrite Z2Nat.id in Hk by (unfold digest_space; lia).
    apply Z.le_lt_trans with digest_space; [exact Hk |].
    unfold digest_space. reflexivity. }
  intros i j Hi Hj. apply with_comment_inj; now apply Hsmall.
Qed.

(** C6 fails as stated: there are two different PNG files, each a grey
    image of one pixel with a comment of 33 bytes, 120 bytes long and
    accepted by the decoder, which acquired from the same domain get the
    same file name, because their SHA-256 digests are the same. *)
Lemma distinct_images_can_share_a_filename :
  exists (c1 c2 : list byte) (r1 r2 : ImageRecord),
    c1 <> c2
    /\ (exists i j, c1 = Png.with_comment i /\ c2 = Png.with_comment j)
    /\ List.length c1 = 120%nat /\ List.length c2 = 120%nat
    /\ Png.decode c1 = Some (mkImageInfo "PNG" (1, 1))
    /\ Png.decode c2 = Some (mkImageInfo "PNG" (1, 1))
    /\ acquired CONFIG (world_png_images c1 c2) "https://img.example/one.png"
                "page.example" initial_state c1 r1
    /\ acquired CONFIG (world_png_images c1 c2) "https://img.example/two.png"
                "page.example" initial_state c2 r2
    /\ image_filename r1 = image_filename r2.
Proof.
  destruct sha256_collision as (i & j & Hne & Hcol).
  pose proof (decode_with_comment i) as Hd1.
  pose proof (decode_with_comment j) as Hd2.
  pose proof (verify_with_comment i) as Hv1.
  pose proof (verify_with_comment j) as Hv2.
  pose proof (with_comment_length i) as Hl1.
  pose proof (with_comment_length j) as Hl2.
  assert (Hfam : exists i' j', Png.with_comment i = Png.with_comment i'
                               /\ Png.with_comment j = Png.with_comment j')
    by (exists i, j; split; reflexivity).
  revert Hne Hcol Hd1 Hd2 Hv1 Hv2 Hl1 Hl2 Hfam.
  generalize (Png.with_comment i) as c1, (Png.with_comment j) as c2.
  intros c1 c2 Hne Hcol Hd1 Hd2 Hv1 Hv2 Hl1 Hl2 Hfam.
  destruct (download_acquires_served CONFIG (world_png_images c1 c2)
              "https://img.example/one.png" "page.example" c1
              (mkImageInfo "PNG" (1, 1)) initial_state) as (ts1 & H1).
  { intros t. exists 200. split; reflexivity. }
  { exact Hd1. }
  { exact Hv1. }
  destruct (download_acquires_served CONFIG (world_png_images c1 c2)
              "https://img.example/two.png" "page.example" c2
              (mkImageInfo "PNG" (1, 1)) initial_state) as (ts2 & H2).
  { intros t. exists 200. split; reflexivity. }
  { exact Hd2. }
  { exact Hv2. }
  exists c1, c2. eexists. eexists.
  split; [exact Hne |]. split; [exact Hfam |].
  split; [exact Hl1 |]. split; [exact Hl2 |].
  split; [exact Hd1 |]. split; [exact Hd2 |].
  split; [exact H1 |]. split; [exact H2 |].
  cbn [image_filename img_format]. unfold filename_of, Hashlib.hexdigest.
  now rewrite Hcol.
Qed.

(** * Further properties of the program *)

(** ** The storage manager *)

Lemma bind_raised_inv {A B} (m : M A) (k : A -> M B) (st st' : State)
    (e : Exn) :
  bind m k st = (Raise e, st') ->
  m st = (Raise e, st')
  \/ exists a st1, m st = (Ok a, st1) /\ k a st1 = (Raise e, st').
Proof.
  unfold bind. destruct (m st) as [[a | e0] st1]; intros H.
  - right. now exists a, st1.
  - left. inversion H. reflexivity.
Qed.

Lemma flush_format_frame (cfg : Config) (W : World) (format ts : string)
    (df : list TextRecord) (st : State) :
  text_storage (snd (flush_format cfg W format ts df st)) = text_storage st
  /\ forall e, fst (flush_format cfg W format ts df st) = Raise e ->
               e = OSError.
Proof.
  unfold flush_format, write_file, bind, oracle_tick, emit, logging, emit,
    ret, raise.
  destruct (list_in format (storage_formats cfg)); simpl;
    [destruct (fs_write_ok W (tick st) _); simpl |];
    split; try reflexivity; intros e H; congruence.
Qed.

(** X1. Flushing an empty buffer does nothing, whatever the file system
    would answer, and a flush that has returned is followed by an empty
    buffer: a second flush right after it changes nothing. *)
Theorem flush_text_storage_idempotent (cfg : Config) (W : World) (st : State) :
  (text_storage st = [] -> flush_text_storage cfg W st = (Ok tt, st))
  /\ (forall st', flush_text_storage cfg W st = (Ok tt, st') ->
        flush_text_storage cfg W st' = (Ok tt, st')).
Proof.
  assert (Hempty : forall s, text_storage s = [] ->
                             flush_text_storage cfg W s = (Ok tt, s)).
  { intros s H. unfold flush_text_storage. now rewrite H. }
  split; [apply Hempty |].
  intros st' H. apply Hempty. exact (flush_text_storage_returns _ _ _ _ H).
Qed.

Lemma flush_text_storage_idempotent_witness :
  text_storage initial_state = []
  /\ flush_text_storage CONFIG world_disk_full initial_state
     = (Ok tt, initial_state)
  /\ flush_text_storage CONFIG world_two_pages
       (snd (flush_text_storage CONFIG world_two_pages one_buffered))
     = (Ok tt, snd (flush_text_storage CONFIG world_two_pages one_buffered)).
Proof.
  split; [reflexivity |]. split.
  - apply (flush_text_storage_idempotent CONFIG world_disk_full initial_state).
    reflexivity.
  - apply (flush_text_storage_idempotent CONFIG world_two_pages one_buffered).
    reflexivity.
Defined.

(** X2. A flush that fails loses nothing: when [flush_text_storage] raises
    (a file could not be written) the buffer is as it was, and when
    [store_text] raises because of it the record just stored is still at
    the end of the buffer. *)
Theorem failed_flush_keeps_records (cfg : Config) (W : World)
    (data : TextRecord) (st st' : State) (e : Exn) :
  (flush_text_storage cfg W st = (Raise e, st') ->
   e = OSError /\ text_storage st' = text_storage st)
  /\ (store_text cfg W data st = (Raise e, st') ->
      e = OSError /\ text_storage st' = (text_storage st ++ [data])%list).
Proof.
  assert (Hflush : forall s s', flush_text_storage cfg W s = (Raise e, s') ->
                     e = OSError /\ text_storage s' = text_storage s).
  { intros s s'. unfold flush_text_storage.
    destruct (text_storage s) as [| r df] eqn:E; [discriminate |].
    intros H.
    apply bind_raised_inv in H as [H | (ts & s1 & Hnow & H)];
      [discriminate |].
    inversion Hnow; subst ts s1. clear Hnow.
    set (s1 := mkState (S (tick s)) (text_storage s) (image_storage s)
                       (trace s)) in *.
    apply bind_raised_inv in H as [H | (u1 & s2 & H1 & H)].
    { destruct (flush_format_frame cfg W "jsonl" (now W (tick s)) (r :: df) s1)
        as [Hkeep Hexn].
      rewrite H in Hkeep, Hexn. simpl in Hkeep.
      split; [now apply Hexn | now rewrite Hkeep]. }
    apply bind_raised_inv in H as [H | (u2 & s3 & H2 & H)];
      [| discriminate].
    destruct (flush_format_frame cfg W "jsonl" (now W (tick s)) (r :: df) s1)
      as [Hkeep1 _].
    destruct (flush_format_frame cfg W "parquet" (now W (tick s)) (r :: df) s2)
      as [Hkeep2 Hexn].
    rewrite H1 in Hkeep1. rewrite H in Hkeep2, Hexn. simpl in *.
    split; [now apply Hexn | congruence]. }
  split; [apply Hflush |].
  unfold store_text, bind, set_text_storage. simpl.
  destruct (_ >=? _); [| discriminate].
  intros H. apply Hflush in H. exact H.
Qed.

Lemma failed_flush_keeps_records_witness :
  flush_text_storage CONFIG world_disk_full one_buffered
  = (Raise OSError,
     snd (flush_text_storage CONFIG world_disk_full one_buffered))
  /\ text_storage (snd (flush_text_storage CONFIG world_disk_full one_buffered))
     = [sample_record 1]
  /\ store_text config_batch_of_two world_disk_full (sample_record 2)
       one_buffered
     = (Raise OSError,
        snd (store_text config_batch_of_two world_disk_full (sample_record 2)
                        one_buffered))
  /\ text_storage
       (snd (store_text config_batch_of_two world_disk_full (sample_record 2)
                        one_buffered))
     = [sample_record 1; sample_record 2].
Proof.
  assert (H1 : flush_text_storage CONFIG world_disk_full one_buffered
               = (Raise OSError,
                  snd (flush_text_storage CONFIG world_disk_full
                                          one_buffered)))
    by reflexivity.
  assert (H2 : store_text config_batch_of_two world_disk_full
                 (sample_record 2) one_buffered
               = (Raise OSError,
                  snd (store_text config_batch_of_two world_disk_full
                                  (sample_record 2) one_buffered)))
    by reflexivity.
  split; [exact H1 |]. split.
  - exact (proj2 (proj1 (failed_flush_keeps_records CONFIG world_disk_full
                           (sample_record 2) _ _ _) H1)).
  - split; [exact H2 |].
    exact (proj2 (proj2 (failed_flush_keeps_records config_batch_of_two
                           world_disk_full (sample_record 2) _ _ _) H2)).
Defined.

(** X3. When [storage_formats] names neither "jsonl" nor "parquet", a flush
    of a non-empty buffer writes no file and logs nothing, and still empties
    the buffer: the records are dropped. *)
Theorem flush_without_known_format_drops (cfg : Config) (W : World)
    (st : State) :
  list_in "jsonl" (storage_formats cfg) = false ->
  list_in "parquet" (storage_formats cfg) = false ->
  text_storage st <> [] ->
  flush_text_storage cfg W st
  = (Ok tt, mkState (S (tick st)) [] (image_storage st) (trace st)).
Proof.
  intros Hj Hp Hne. unfold flush_text_storage.
  destruct (text_storage st) as [| r df]; [congruence |].
  unfold bind, datetime_now, flush_format, oracle_tick, set_text_storage, ret.
  simpl. rewrite Hj, Hp. reflexivity.
Qed.

Lemma flush_without_known_format_drops_witness :
  list_in "jsonl" (storage_formats config_csv_only) = false
  /\ list_in "parquet" (storage_formats config_csv_only) = false
  /\ text_storage one_buffered <> []
  /\ flush_text_storage config_csv_only world_two_pages one_buffered
     = (Ok tt, mkState 1 [] [] []).
Proof.
  assert (Hne : text_storage one_buffered <> []) by discriminate.
  split; [reflexivity |]. split; [reflexivity |]. split; [exact Hne |].
  exact (flush_without_known_format_drops config_csv_only world_two_pages
           one_buffered eq_refl eq_refl Hne).
Defined.

Lemma written_app (format : string) (tr : list Event)
    (batches : list (string * list TextRecord * bool)) (st' : State) :
  text_writes (trace st') = (batches ++ text_writes tr)%list ->
  written format (trace st')
  = (written format tr
     ++ List.concat (rev (map (batch_of format) batches)))%list.
Proof.
  intros H. unfold written. rewrite H, map_app, rev_app_distr, concat_app.
  reflexivity.
Qed.

Lemma flush_batches_written (cfg : Config) (format : string)
    (df : list TextRecord) :
  list_in format (storage_formats cfg) = true ->
  format = "jsonl"%string \/ format = "parquet"%string ->
  List.concat (rev (map (batch_of format) (flush_batches cfg df))) = df.
Proof.
  intros Hin [-> | ->]; unfold flush_batches; rewrite Hin.
  - destruct (list_in "parquet" (storage_formats cfg)); simpl;
      now rewrite ?app_nil_r.
  - destruct (list_in "jsonl" (storage_formats cfg)); simpl;
      now rewrite ?app_nil_r.
Qed.

Lemma store_text_conserves (cfg : Config) (W : World) (format : string)
    (data : TextRecord) (st : State) :
  (forall t p, fs_write_ok W t p = true) ->
  list_in format (storage_formats cfg) = true ->
  format = "jsonl"%string \/ format = "parquet"%string ->
  exists st',
    store_text cfg W data st = (Ok tt, st')
    /\ (written format (trace st') ++ text_storage st')%list
       = (written format (trace st) ++ text_storage st ++ [data])%list.
Proof.
  intros Hfs Hin Hfmt. unfold store_text, bind, set_text_storage. simpl.
  destruct (_ >=? _).
  - destruct (flush_text_storage_writes cfg W
                (mkState (tick st) (text_storage st ++ [data])
                         (image_storage st) (trace st)) Hfs)
      as (st' & Hrun & Hbuf & _ & Hwr).
    { simpl. now destruct (text_storage st). }
    exists st'. split; [exact Hrun |].
    simpl in Hwr. rewrite (written_app format (trace st) _ st' Hwr).
    rewrite (flush_batches_written cfg format _ Hin Hfmt), Hbuf.
    now rewrite app_nil_r.
  - eexists. split; [reflexivity |]. reflexivity.
Qed.

(** X4. Over any sequence of [store_text] calls, the writes succeeding and
    for a configured format among "jsonl" and "parquet": the records written
    to the files of that format, followed by the records still in the
    buffer, are the records that were there before followed by the stored
    ones, in the order of the calls. Nothing is lost, repeated or
    reordered. *)
Theorem store_text_conserves_records (cfg : Config) (W : World)
    (format : string) (records : list TextRecord) (st : State) :
  (forall t p, fs_write_ok W t p = true) ->
  list_in format (storage_formats cfg) = true ->
  format = "jsonl"%string \/ format = "parquet"%string ->
  exists st',
    store_all cfg W records st = (Ok tt, st')
    /\ (written format (trace st') ++ text_storage st')%list
       = (written format (trace st) ++ text_storage st ++ records)%list.
Proof.
  intros Hfs Hin Hfmt. revert st.
  induction records as [| data rest IH]; intros st.
  - exists st. split; [reflexivity |]. now rewrite app_nil_r.
  - destruct (store_text_conserves cfg W format data st Hfs Hin Hfmt)
      as (s1 & Hrun & Hkeep).
    destruct (IH s1) as (st' & Hrest & Hkeep').
    exists st'. split.
    + simpl. now rewrite (bind_ok _ _ _ _ _ Hrun).
    + rewrite Hkeep', app_assoc, Hkeep, <- !app_assoc. reflexivity.
Qed.

Lemma store_text_conserves_records_witness :
  (forall t p, fs_write_ok world_two_pages t p = true)
  /\ list_in "jsonl" (storage_formats config_batch_of_two) = true
  /\ exists st',
       store_all config_batch_of_two world_two_pages
         [sample_record 2; sample_record 1; sample_record 2] one_buffered
       = (Ok tt, st')
       /\ (written "jsonl" (trace st') ++ text_storage st')%list
          = [ sample_record 1; sample_record 2; sample_record 1;
              sample_record 2 ].
Proof.
  assert (Hfs : forall t p, fs_write_ok world_two_pages t p = true)
    by reflexivity.
  split; [exact Hfs |]. split; [reflexivity |].
  exact (store_text_conserves_records config_batch_of_two world_two_pages
           "jsonl" [sample_record 2; sample_record 1; sample_record 2]
           one_buffered Hfs eq_refl (or_introl eq_refl)).
Defined.

(** X5. [store_image] never raises and always appends the metadata to the
    image ledger, also when the file cannot be written: the write is
    attempted once under images/{filename} and its result decides only
    which line is logged. *)
Theorem store_image_always_records (cfg : Config) (W : World)
    (data : ImageRecord) (content : list byte) (st : State) :
  let path := images_path cfg (image_filename data) in
  let ok := fs_write_ok W (tick st) path in
  store_image cfg W data content st
  = (Ok tt,
     mkState (S (tick st)) (text_storage st)
       (image_storage st ++ [data])
       (Log (if ok then INFO else ERROR)
            (if ok then SavedImage (image_filename data)
             else ErrorSavingImage (image_filename data) OSError)
        :: FileWrite path (ImageBytes content) ok :: trace st)).
Proof.
  unfold store_image, try_except, write_file, bind, oracle_tick,
    set_image_storage, logging, emit, ret, raise, images_path. simpl.
  destruct (fs_write_ok W (tick st) _); reflexivity.
Qed.

(** ** The content extractor *)

Lemma extract_from_first_match (soup : Soup) (selectors : list string) :
  (exists selector text,
     first_match soup selectors selector text
     /\ extract_from selectors soup = text)
  \/ (Forall (fun s => select_one soup s = None) selectors
      /\ extract_from selectors soup = get_text soup).
Proof.
  induction selectors as [| s rest IH]; simpl.
  - right. split; [constructor | reflexivity].
  - destruct (select_one soup s) as [t |] eqn:E.
    + left. exists s, t. split; [| reflexivity].
      exists [], rest. repeat split; [constructor | exact E].
    + destruct IH as [(sel & t & (before & after & Hl & Hmiss & Hhit) & Hx)
                     | [Hmiss Hx]].
      * left. exists sel, t. split; [| exact Hx].
        exists (s :: before), after. rewrite Hl.
        repeat split; [now constructor | exact Hhit].
      * right. split; [now constructor | exact Hx].
Qed.

(** X6. [extract] returns the text of the first of the selectors article,
    main, [role="main"] that matches the page, whatever the later ones
    match, and the text of the whole page when none of them matches. *)
Theorem extract_first_match (soup : Soup) :
  let selectors :=
    [ "article"; "main";
      ("[role=" ++ Str.dquote ++ "main" ++ Str.dquote ++ "]") ]%string in
  (exists selector text,
     first_match soup selectors selector text /\ extract soup = text)
  \/ (Forall (fun s => select_one soup s = None) selectors
      /\ extract soup = get_text soup).
Proof. intros selectors. apply extract_from_first_match. Qed.

Example extract_prefers_article :
  extract (mkSoup (fun s => if String.eqb s "main" then Some "in main"
                            else if String.eqb s "article"
                                 then Some "in article" else None)
                  "whole page" [])%string
  = "in article"%string.
Proof. reflexivity. Qed.

(** ** The cleaner *)

Lemma collapse_ws_single_spaced (pending : bool) (s : string) :
  single_spaced false (Str.collapse_ws pending s) = true.
Proof.
  revert pending. induction s as [| c s IH]; intros pending; simpl.
  - now destruct pending.
  - destruct (Str.is_space c) eqn:E; [apply IH |].
    destruct pending; simpl; rewrite E; apply IH.
Qed.

Lemma lstrip_single_spaced (s : string) :
  single_spaced false s = true -> single_spaced true (Str.lstrip s) = true.
Proof.
  induction s as [| c s IH]; simpl; [reflexivity |].
  destruct (Str.is_space c) eqn:E.
  - intros H. apply andb_true_iff in H as [_ H].
    clear IH. induction s as [| d s IHs]; simpl in *; [reflexivity |].
    destruct (Str.is_space d) eqn:Ed.
    + apply andb_true_iff in H as [H _].
      apply andb_true_iff in H as [_ H]. discriminate.
    + simpl. now rewrite Ed.
  - intros H. simpl. now rewrite E.
Qed.

Lemma rstrip_single_spaced (b : bool) (s : string) :
  single_spaced b s = true -> single_spaced b (Str.rstrip s) = true.
Proof.
  revert b. induction s as [| c s IH]; intros b; simpl; [reflexivity |].
  destruct (Str.is_space c) eqn:E.
  - intros H. apply andb_true_iff in H as [H1 H2].
    specialize (IH true H2).
    destruct (Str.rstrip s) as [| d r]; [reflexivity |].
    simpl. rewrite E, H1. exact IH.
  - intros H. specialize (IH false H).
    destruct (Str.rstrip s) as [| d r]; simpl; rewrite E; [reflexivity |].
    exact IH.
Qed.

Lemma rstrip_ends_clean (s : string) : ends_clean (Str.rstrip s) = true.
Proof.
  induction s as [| c s IH]; simpl; [reflexivity |].
  destruct (Str.rstrip s) as [| d r].
  - destruct (Str.is_space c) eqn:E; simpl; [reflexivity | now rewrite E].
  - exact IH.
Qed.

Lemma strip_collapse_well_spaced (s : string) :
  well_spaced (Str.strip (Str.collapse_ws false s)) = true.
Proof.
  unfold well_spaced, Str.strip. apply andb_true_iff. split.
  - apply rstrip_single_spaced, lstrip_single_spaced,
      collapse_ws_single_spaced.
  - apply rstrip_ends_clean.
Qed.

Lemma collapse_ws_fixed (s : string) :
  (single_spaced false s = true -> Str.collapse_ws false s = s)
  /\ (single_spaced true s = true ->
      Str.collapse_ws true s = String " " s).
Proof.
  induction s as [| c s [IH1 IH2]]; simpl; [now split |].
  destruct (Str.is_space c) eqn:E.
  - split; intros H.
    + apply andb_true_iff in H as [H Hs].
      apply andb_true_iff in H as [Hc _].
      apply Ascii.eqb_eq in Hc. subst c. now apply IH2.
    + apply andb_true_iff in H as [H _].
      apply andb_true_iff in H as [_ H]. discriminate.
  - split; intros H; now rewrite IH1.
Qed.

Lemma lstrip_fixed (s : string) :
  single_spaced true s = true -> Str.lstrip s = s.
Proof.
  destruct s as [| c s]; simpl; [reflexivity |].
  destruct (Str.is_space c); [| reflexivity].
  intros H. apply andb_true_iff in H as [H _].
  apply andb_true_iff in H as [_ H]. discriminate.
Qed.

Lemma rstrip_fixed (s : string) : ends_clean s = true -> Str.rstrip s = s.
Proof.
  induction s as [| c s IH]; [reflexivity |].
  destruct s as [| d s].
  - simpl. intros H. now destruct (Str.is_space c).
  - intros H. change (ends_clean (String d s) = true) in H.
    specialize (IH H). cbn [Str.rstrip] in *. rewrite IH. reflexivity.
Qed.

(** X7. Whatever the text pipeline returns, the text [clean] gives back is
    normalised: its only whitespace characters are single blanks between
    other characters, so it has no tab or line break, no two blanks in a
    row and no whitespace at either end. *)
Theorem clean_normalises_whitespace (W : World) (text : string) :
  well_spaced (clean W text) = true.
Proof. unfold clean. apply strip_collapse_well_spaced. Qed.

(** X8. On a text that is already normalised, the whitespace pass of
    [clean] (the substitution of whitespace runs and the strip) changes
    nothing; so passing its own result through it again is the identity. *)
Theorem whitespace_pass_fixes_normalised (s : string) :
  (well_spaced s = true -> Str.strip (Str.collapse_ws false s) = s)
  /\ Str.strip (Str.collapse_ws false
                  (Str.strip (Str.collapse_ws false s)))
     = Str.strip (Str.collapse_ws false s).
Proof.
  assert (Hfix : forall t, well_spaced t = true ->
                           Str.strip (Str.collapse_ws false t) = t).
  { intros t H. unfold well_spaced in H.
    apply andb_true_iff in H as [Hs He].
    assert (Hs' : single_spaced false t = true).
    { destruct t as [| c t]; [reflexivity |]. simpl in *.
      destruct (Str.is_space c); [| exact Hs].
      apply andb_true_iff in Hs as [Hs _].
      apply andb_true_iff in Hs as [_ Hs]. discriminate. }
    rewrite (proj1 (collapse_ws_fixed t) Hs').
    unfold Str.strip. rewrite (lstrip_fixed t Hs). now apply rstrip_fixed. }
  split; [apply Hfix |]. apply Hfix, strip_collapse_well_spaced.
Qed.

Lemma whitespace_pass_fixes_normalised_witness :
  well_spaced "one two three" = true
  /\ Str.strip (Str.collapse_ws false "one two three")
     = "one two three"%string.
Proof.
  split; [reflexivity |].
  exact (proj1 (whitespace_pass_fixes_normalised "one two three") eq_refl).
Defined.

(** ** The validator *)

Lemma prefix_split (p t : string) :
  String.prefix p t = true -> exists rest, t = (p ++ rest)%string.
Proof.
  revert t. induction p as [| c p IH]; intros t H.
  - now exists t.
  - destruct t as [| d t]; simpl in H; [discriminate |].
    destruct (ascii_dec c d) as [-> | _]; [| discriminate].
    destruct (IH t H) as (rest & ->). now exists rest.
Qed.

Lemma str_in_split (p t : string) :
  Str.str_in p t = true ->
  exists before after, t = (before ++ p ++ after)%string.
Proof.
  induction t as [| c t IH]; simpl; intros H.
  - destruct (prefix_split p EmptyString H) as (rest & Hr).
    exists EmptyString, rest. exact Hr.
  - apply orb_true_iff in H as [H | H].
    + destruct (prefix_split p (String c t) H) as (rest & Hr).
      exists EmptyString, rest. exact Hr.
    + destruct (IH H) as (before & after & ->).
      now exists (String c before), after.
Qed.

Lemma lower_split (t x y : string) :
  Str.lower t = (x ++ y)%string ->
  exists tx ty,
    t = (tx ++ ty)%string /\ Str.lower tx = x /\ Str.lower ty = y.
Proof.
  revert t. induction x as [| c x IH]; intros t H.
  - exists EmptyString, t. now repeat split.
  - destruct t as [| d t]; simpl in H; [discriminate |].
    injection H as Hc Ht. destruct (IH t Ht) as (tx & ty & -> & Hx & Hy).
    exists (String d tx), ty. simpl. now rewrite Hc, Hx.
Qed.

Lemma blocklisted_occurs (phrases : list string) (text : string) :
  blocklisted phrases text = true ->
  exists phrase, In phrase phrases /\ occurs_up_to_lower phrase text.
Proof.
  induction phrases as [| p rest IH]; simpl; [discriminate |].
  destruct (Str.str_in (Str.lower p) (Str.lower text)) eqn:E.
  - intros _. exists p. split; [now left |].
    destruct (str_in_split _ _ E) as (a & b & Hab).
    destruct (lower_split text a _ Hab) as (ta & tr & -> & Ha & Hr).
    destruct (lower_split tr (Str.lower p) b Hr) as (ts & tb & -> & Hs & _).
    now exists ta, ts, tb.
  - intros H. destruct (IH H) as (phrase & Hin & Hocc).
    exists phrase. split; [now right | exact Hocc].
Qed.

(** X9. The blocklist loop of [validate_content] finds a phrase exactly
    when a part of the text has the same lower-casing as some configured
    phrase; in particular an empty phrase in the blocklist matches every
    text. *)
Theorem blocklisted_iff_occurs (phrases : list string) (text : string) :
  (blocklisted phrases text = true <->
   exists phrase, In phrase phrases /\ occurs_up_to_lower phrase text)
  /\ (In EmptyString phrases -> blocklisted phrases text = true).
Proof.
  assert (Hback : forall phrase, In phrase phrases ->
                    occurs_up_to_lower phrase text ->
                    blocklisted phrases text = true).
  { intros phrase Hin (before & s & after & -> & Hs).
    apply (blocklisted_in _ phrase); [exact Hin |].
    rewrite !lower_app, Hs. apply str_in_app. }
  split; [split |].
  - apply blocklisted_occurs.
  - intros (phrase & Hin & Hocc). now apply (Hback phrase).
  - intros Hin. apply (Hback EmptyString Hin).
    now exists EmptyString, EmptyString, text.
Qed.

Lemma blocklisted_iff_occurs_witness :
  In EmptyString ["lorem ipsum"; ""]%string
  /\ blocklisted ["lorem ipsum"; ""]%string article_text = true.
Proof.
  assert (Hin : In EmptyString ["lorem ipsum"; ""]%string)
    by (simpl; auto).
  split; [exact Hin |].
  exact (proj2 (blocklisted_iff_occurs ["lorem ipsum"; ""]%string
                  article_text) Hin).
Defined.

Lemma validate_content_cases (cfg : Config) (W : World) (text : string)
    (st : State) :
  validate_content cfg W text st
  = (Ok (accepts cfg W text),
     if detection_fails cfg W text
     then logged st WARNING (LanguageDetectionFailed LangDetectException)
     else st).
Proof.
  unfold validate_content, accepts, detection_fails.
  destruct (Z.ltb_spec (Z.of_nat (String.length text))
                       (min_text_length (content_filters cfg))) as [Hlt | Hge].
  - destruct (Z.leb_spec (min_text_length (content_filters cfg))
                         (Z.of_nat (String.length text))); [lia |].
    reflexivity.
  - destruct (Z.leb_spec (min_text_length (content_filters cfg))
                         (Z.of_nat (String.length text))); [| lia].
    destruct (blocklisted _ text); [reflexivity |].
    unfold try_except. destruct (detect W text) as [lang |].
    + destruct (list_in lang _); reflexivity.
    + reflexivity.
Qed.

(** X10. [validate_content] never raises and answers True exactly when the
    text has at least [min_text_length] characters, holds no blocklist
    phrase and is detected as one of the allowed languages.  It leaves the
    state as it is in every case but one: when the language detector is
    asked (the text is long enough and holds no blocklist phrase) and
    fails, the failure is logged as a warning, and nothing else changes. *)
Theorem validate_content_decides (cfg : Config) (W : World) (text : string)
    (st : State) :
  validate_content cfg W text st
  = (Ok (accepts cfg W text),
     if detection_fails cfg W text
     then mkState (tick st) (text_storage st) (image_storage st)
            (Log WARNING (LanguageDetectionFailed LangDetectException)
             :: trace st)
     else st).
Proof. exact (validate_content_cases cfg W text st). Qed.

Example validate_content_accepts_article :
  validate_content CONFIG world_two_pages article_text initial_state
  = (Ok true, initial_state).
Proof. reflexivity. Qed.

Example validate_content_short_and_undetected :
  validate_content CONFIG
    (mkWorld (robots_txt world_two_pages) (http world_two_pages)
             (fs_write_ok world_two_pages) (now world_two_pages)
             (rand world_two_pages) (beautiful_soup world_two_pages)
             (textacy_pipeline world_two_pages) (fun _ => None)
             (image_open world_two_pages) (image_verify world_two_pages))
    "short" initial_state
  = (Ok false, initial_state).
Proof. reflexivity. Qed.

(** ** The retry loop and the adapter *)

(** X11. With [retry_attempts] at 0 or below, [retry_request] raises
    "Maximum retry attempts reached." at once and never calls the function
    it was given: no request is sent and nothing is logged. *)
Theorem retry_request_without_attempts (cfg : Config) {A : Type}
    (func : M A) (st : State) :
  retry_attempts cfg <= 0 ->
  retry_request cfg func st = (Raise MaximumRetryAttempts, st).
Proof.
  intros H. unfold retry_request, range1.
  replace (Z.to_nat (retry_attempts cfg)) with 0%nat by lia.
  reflexivity.
Qed.

Lemma retry_request_without_attempts_witness :
  retry_attempts config_no_attempts <= 0
  /\ retry_request config_no_attempts
       (session_get config_no_attempts world_two_pages
                    "https://good.example/a" browser_headers) initial_state
     = (Raise MaximumRetryAttempts, initial_state).
Proof.
  assert (H : retry_attempts config_no_attempts <= 0) by (simpl; lia).
  split; [exact H |].
  exact (retry_request_without_attempts config_no_attempts _ initial_state H).
Defined.

Lemma adapter_send_same_sleeps (W : World) (n : nat) (url : string)
    (headers : list (string * string)) :
  respects same_sleeps (adapter_send W n url headers).
Proof.
  apply (respects_adapter_send same_sleeps (fun s => eq_refl)
           (fun a b c (H1 : same_sleeps a b) (H2 : same_sleeps b c) =>
              eq_trans H2 H1)
           not_sleep).
  - intros st. reflexivity.
  - intros e st He. unfold same_sleeps. simpl.
    destruct e; try reflexivity. contradiction.
  - intros u h. exact I.
Qed.

Lemma retry_loop_sleeps {A} (func : M A) (attempts backoff : Z) :
  (forall st, exists e, fst (func st) = Raise e) ->
  respects same_sleeps func ->
  forall range st,
    sleeps (trace (snd (retry_loop func attempts backoff range st)))
    = (rev (map (Z.pow backoff) (filter (fun k => k <? attempts) range))
       ++ sleeps (trace st))%list.
Proof.
  intros Hraises Hquiet. induction range as [| attempt rest IH]; intros st.
  - reflexivity.
  - simpl. unfold try_except.
    destruct (Hraises st) as (e & He). specialize (Hquiet st).
    unfold same_sleeps in Hquiet.
    destruct (func st) as [[a | e0] s1]; simpl in He, Hquiet;
      [discriminate |].
    unfold bind, logging, time_sleep, emit, ret.
    destruct (attempt <? attempts); simpl; rewrite IH; simpl;
      rewrite Hquiet, <- ?app_assoc; reflexivity.
Qed.

Lemma filter_all {A} (f : A -> bool) (l : list A) :
  (forall x, In x l -> f x = true) -> filter f l = l.
Proof.
  induction l as [| x l IH]; intros H; simpl; [reflexivity |].
  rewrite (H x (or_introl eq_refl)), IH; [reflexivity |].
  intros y Hy. apply H. now right.
Qed.

Lemma range1_before_last (attempts : Z) :
  filter (fun k => k <? attempts) (range1 attempts) = range1 (attempts - 1).
Proof.
  unfold range1.
  destruct (Z.to_nat attempts) as [| m] eqn:E.
  - replace (Z.to_nat (attempts - 1)) with 0%nat by lia. reflexivity.
  - replace (Z.to_nat (attempts - 1)) with m by lia.
    rewrite seq_S, map_app, filter_app. cbn [map filter].
    destruct (Z.ltb_spec (Z.of_nat (1 + m)) attempts); [lia |].
    rewrite app_nil_r. apply filter_all.
    intros x Hx. apply in_map_iff in Hx as (k & <- & Hk).
    apply in_seq in Hk. apply Z.ltb_lt. lia.
Qed.

(** X12. Against a server that always answers 503 the attempt loop pauses
    [retry_backoff ^ 1], ..., [retry_backoff ^ (retry_attempts - 1)]
    seconds, in this order, one pause after each failed attempt but the
    last: it does not sleep before it gives up. *)
Theorem retry_backoff_schedule (cfg : Config) (W : World) (url : string)
    (headers : list (string * string)) (st : State) :
  always_503 W url ->
  rev (sleeps (trace (snd (retry_request cfg
                             (session_get cfg W url headers) st))))
  = (rev (sleeps (trace st))
     ++ map (Z.pow (retry_backoff cfg))
            (range1 (retry_attempts cfg - 1)))%list.
Proof.
  intros H503. unfold retry_request.
  rewrite (retry_loop_sleeps (session_get cfg W url headers)).
  - rewrite rev_app_distr, rev_involutive, range1_before_last. reflexivity.
  - intros s. exists RetryError.
    exact (proj1 (adapter_send_503 W url headers H503 _ s)).
  - apply adapter_send_same_sleeps.
Qed.

Lemma retry_backoff_schedule_witness :
  always_503 world_503 "https://example.com/a"
  /\ rev (sleeps (trace (snd (retry_request CONFIG
            (session_get CONFIG world_503 "https://example.com/a"
                         browser_headers) initial_state))))
     = [2; 4].
Proof.
  assert (H503 : always_503 world_503 "https://example.com/a")
    by (intros t; now exists []).
  split; [exact H503 |].
  exact (retry_backoff_schedule CONFIG world_503 "https://example.com/a"
           browser_headers initial_state H503).
Defined.

(** X13. A failure that does not last is absorbed by the adapter: when the
    first request meets a network error or a status of the retry list and
    the second is answered with another status, a single call of
    [session.get] returns that answer after two requests, and the attempt
    loop returns it from its first attempt without logging a failed
    attempt. *)
Theorem adapter_absorbs_transient_failure (cfg : Config) (W : World)
    (url : string) (headers : list (string * string)) (status : Z)
    (content : list byte) (st : State) :
  1 <= retry_attempts cfg ->
  (http W (tick st) url = NetworkError
   \/ exists s0 c0, http W (tick st) url = Response s0 c0
                    /\ forced_retry s0 = true) ->
  http W (S (tick st)) url = Response status content ->
  forced_retry status = false ->
  retry_request cfg (session_get cfg W url headers) st
  = (Ok (status, content),
     mkState (S (S (tick st))) (text_storage st) (image_storage st)
             (HttpGet url headers :: HttpGet url headers :: trace st)).
Proof.
  intros Hattempts Hfirst Hsecond Hgood.
  unfold retry_request, range1, session_get.
  destruct (Z.to_nat (retry_attempts cfg)) as [| n] eqn:E; [lia |].
  cbn [seq map retry_loop]. unfold try_except.
  assert (Hsend : adapter_send W (S n) url headers st
                  = (Ok (status, content),
                     mkState (S (S (tick st))) (text_storage st)
                       (image_storage st)
                       (HttpGet url headers :: HttpGet url headers
                        :: trace st))).
  { cbn [adapter_send]. unfold bind at 1 2. unfold oracle_tick, emit.
    cbn [fst snd tick text_storage image_storage trace].
    set (s1 := mkState (S (tick st)) (text_storage st) (image_storage st)
                       (HttpGet url headers :: trace st)).
    assert (Hnext : adapter_send W n url headers s1
                    = (Ok (status, content),
                       mkState (S (S (tick st))) (text_storage st)
                         (image_storage st)
                         (HttpGet url headers :: HttpGet url headers
                          :: trace st)))
      by (apply (adapter_send_good W n url headers status content s1);
          assumption).
    destruct Hfirst as [Hnet | (s0 & c0 & Hresp & Hforced)].
    - rewrite Hnet. exact Hnext.
    - rewrite Hresp, Hforced. exact Hnext. }
  now rewrite Hsend.
Qed.

Lemma adapter_absorbs_transient_failure_witness :
  1 <= retry_attempts CONFIG
  /\ http world_flaky 0 "https://good.example/a" = Response 503 []
  /\ http world_flaky 1 "https://good.example/a"
     = Response 200 (list_byte_of_string "<article>")
  /\ retry_request CONFIG
       (session_get CONFIG world_flaky "https://good.example/a"
                    browser_headers) initial_state
     = (Ok (200, list_byte_of_string "<article>"),
        mkState 2 [] []
          [ HttpGet "https://good.example/a" browser_headers;
            HttpGet "https://good.example/a" browser_headers ]).
Proof.
  assert (H : 1 <= retry_attempts CONFIG) by (simpl; lia).
  split; [exact H |]. split; [reflexivity |]. split; [reflexivity |].
  apply (adapter_absorbs_transient_failure CONFIG world_flaky
           "https://good.example/a" browser_headers 200
           (list_byte_of_string "<article>") initial_state H).
  - right. exists 503, []. split; reflexivity.
  - reflexivity.
  - reflexivity.
Defined.

(** ** robots.txt and the skip *)

Lemma get_robots_parser_outcome (W : World) (domain : string) (st : State) :
  exists rp st1,
    get_robots_parser W domain st = (Ok rp, st1)
    /\ (forall useragent url,
          can_fetch rp useragent url
          = permitted (robots_txt W (tick st) (domain ++ "/robots.txt"))
                      useragent url)
    /\ text_storage st1 = text_storage st
    /\ image_storage st1 = image_storage st
    /\ (forall u, count (is_http_get u) st1 = count (is_http_get u) st).
Proof.
  unfold get_robots_parser, try_except, rp_read, bind, oracle_tick, emit,
    logging, emit, ret, raise, permitted, can_fetch. simpl.
  destruct (robots_txt W (tick st) (domain ++ "/robots.txt"))
    as [e | code | allowance]; simpl.
  - eexists. eexists. repeat split.
  - destruct ((code =? 401) || (code =? 403)) eqn:E1; simpl.
    + eexists. eexists. split; [reflexivity |].
      repeat split. intros. simpl. now rewrite andb_false_r.
    + destruct ((400 <=? code) && (code <? 500)) eqn:E2; simpl;
        eexists; eexists; repeat split.
  - eexists. eexists. repeat split.
Qed.

(** X14. The decision about a URL follows the outcome of the read of
    robots.txt: the rules of the file when it was read; every URL is
    permitted when the server answers 4xx other than 401 and 403 (no
    robots.txt); every URL is refused when it answers 401 or 403, when it
    answers any other error status (5xx) and when the read raises. *)
Theorem robots_decision_follows_read (W : World) (domain : string)
    (st : State) :
  exists rp st1,
    get_robots_parser W domain st = (Ok rp, st1)
    /\ forall useragent url,
         can_fetch rp useragent url
         = match robots_txt W (tick st) (domain ++ "/robots.txt") with
           | RobotsRaises _ => false
           | RobotsHTTPError code =>
               (400 <=? code) && (code <? 500)
               && negb ((code =? 401) || (code =? 403))
           | RobotsBody allowance => allowance useragent url
           end.
Proof.
  destruct (get_robots_parser_outcome W domain st)
    as (rp & st1 & Hrun & Hdecide & _).
  exists rp, st1. split; [exact Hrun | exact Hdecide].
Qed.

Example robots_missing_permits :
  filter is_error_scraping
    (trace (snd (scrape_page CONFIG world_no_robots "https://good.example/a"
                             initial_state))) = []
  /\ count (is_http_get "https://good.example/a")
       (snd (scrape_page CONFIG world_no_robots "https://good.example/a"
                         initial_state)) = 1%nat.
Proof. vm_compute. split; reflexivity. Qed.

Lemma scrape_page_refused (cfg : Config) (W : World)
    (url domain : string) (st : State) :
  url_domain url = Some domain ->
  permitted (robots_txt W (tick st)
               ("https://" ++ domain ++ "/robots.txt")%string) "*" url = false ->
  scrape_page cfg W url st
  = (Ok tt,
     mkState (S (tick st)) (text_storage st) (image_storage st)
       (Log WARNING (SkippingRobots url)
        :: robots_warning ("https://" ++ domain)%string
             (robots_txt W (tick st)
                ("https://" ++ domain ++ "/robots.txt")%string)
        ++ RobotsGet ("https://" ++ domain ++ "/robots.txt")%string
        :: trace st)).
Proof.
  intros Hdom. unfold scrape_page, scrape_body, try_except. rewrite Hdom.
  rewrite (bind_ok _ _ st st domain eq_refl).
  unfold get_robots_parser, try_except, rp_read, bind, oracle_tick, emit,
    logging, emit, ret, raise, permitted, can_fetch, robots_warning. simpl.
  destruct (robots_txt W (tick st) (String "h" _))
    as [e | code | allowance]; simpl.
  - reflexivity.
  - destruct ((code =? 401) || (code =? 403)); simpl; [reflexivity |].
    rewrite andb_true_r.
    destruct ((400 <=? code) && (code <? 500)); simpl;
      [discriminate | reflexivity].
  - intros H. rewrite H. reflexivity.
Qed.

(** X15. A URL that robots.txt does not permit is not fetched.  The task
    asks for robots.txt, logs the warning if the read raised, logs that it
    skips the URL and returns; this is all it does: it sends no other
    request, does not sleep, writes no file and leaves both stores as they
    are. *)
Theorem refused_url_is_skipped (cfg : Config) (W : World)
    (url domain : string) (st : State) :
  url_domain url = Some domain ->
  permitted (robots_txt W (tick st)
               ("https://" ++ domain ++ "/robots.txt")%string) "*" url = false ->
  scrape_page cfg W url st
  = (Ok tt,
     mkState (S (tick st)) (text_storage st) (image_storage st)
       (Log WARNING (SkippingRobots url)
        :: robots_warning ("https://" ++ domain)%string
             (robots_txt W (tick st)
                ("https://" ++ domain ++ "/robots.txt")%string)
        ++ RobotsGet ("https://" ++ domain ++ "/robots.txt")%string
        :: trace st)).
Proof. exact (scrape_page_refused cfg W url domain st). Qed.

Lemma refused_url_is_skipped_witness :
  url_domain "https://good.example/private/a" = Some "good.example"%string
  /\ permitted (robots_txt world_private_area 0
                  "https://good.example/robots.txt") "*"
               "https://good.example/private/a" = false
  /\ scrape_page CONFIG world_private_area "https://good.example/private/a"
                 initial_state
     = (Ok tt,
        mkState 1 [] []
          [ Log WARNING (SkippingRobots "https://good.example/private/a");
            RobotsGet "https://good.example/robots.txt" ]).
Proof.
  split; [reflexivity |]. split; [reflexivity |].
  exact (refused_url_is_skipped CONFIG world_private_area
           "https://good.example/private/a" "good.example" initial_state
           eq_refl eq_refl).
Defined.

Example unauthorised_robots_refuses :
  scrape_page CONFIG
    (steady_world (fun _ => RobotsHTTPError 403)
                  (fun _ => Response 200 (list_byte_of_string "<article>"))
                  (fun _ => article_page []))
    "https://good.example/a" initial_state
  = (Ok tt,
     mkState 1 [] []
       [ Log WARNING (SkippingRobots "https://good.example/a");
         RobotsGet "https://good.example/robots.txt" ]).
Proof. reflexivity. Qed.

(** ** URLs, domains and paths *)

Lemma split_not_nil (sep : ascii) (s : string) : Str.split sep s <> [].
Proof.
  induction s as [| c s IH]; simpl; [discriminate |].
  destruct (Ascii.eqb c sep); [discriminate |].
  destruct (Str.split sep s); [contradiction | discriminate].
Qed.

Lemma split_length (sep : ascii) (s : string) :
  List.length (Str.split sep s) = S (occurrences sep s).
Proof.
  induction s as [| c s IH]; simpl; [reflexivity |].
  destruct (Ascii.eqb c sep); simpl; [now rewrite IH |].
  pose proof (split_not_nil sep s) as Hne.
  destruct (Str.split sep s); [contradiction | exact IH].
Qed.

Lemma split_parts_clean (sep : ascii) (s part : string) :
  In part (Str.split sep s) -> has_char sep part = false.
Proof.
  revert part. induction s as [| c s IH]; simpl; intros part Hin.
  - destruct Hin as [<- | []]. reflexivity.
  - destruct (Ascii.eqb c sep) eqn:E.
    + destruct Hin as [<- | Hin]; [reflexivity | now apply IH].
    + pose proof (split_not_nil sep s) as Hne.
      destruct (Str.split sep s) as [| w ws]; [contradiction |].
      destruct Hin as [<- | Hin].
      * simpl. rewrite E. apply IH. now left.
      * apply IH. now right.
Qed.

(** X16. [split] cuts a string at every separator and nowhere else: joining
    the parts with the separator gives the string back, no part holds the
    separator, and there is one part more than there are separators. *)
Theorem split_round_trip (sep : ascii) (s : string) :
  String.concat (String sep EmptyString) (Str.split sep s) = s
  /\ (forall part, In part (Str.split sep s) -> has_char sep part = false)
  /\ List.length (Str.split sep s) = S (occurrences sep s).
Proof.
  split; [| split; [intros part; apply split_parts_clean
                   | apply split_length]].
  induction s as [| c s IH]; simpl; [reflexivity |].
  pose proof (split_not_nil sep s) as Hne.
  destruct (Ascii.eqb c sep) eqn:E.
  - apply Ascii.eqb_eq in E. subst c.
    destruct (Str.split sep s) as [| w ws]; [contradiction |].
    simpl in *. now rewrite IH.
  - destruct (Str.split sep s) as [| w ws]; [contradiction |].
    destruct ws as [| w' ws]; simpl in *; now rewrite <- IH.
Qed.

Lemma split_round_trip_witness :
  In "example.com"%string (Str.split "/" "https://example.com/article1")
  /\ has_char "/" "example.com" = false
  /\ String.concat "/" (Str.split "/" "https://example.com/article1")
     = "https://example.com/article1"%string.
Proof.
  assert (Hin : In "example.com"%string
                   (Str.split "/" "https://example.com/article1"))
    by (simpl; auto).
  destruct (split_round_trip "/" "https://example.com/article1")
    as (Hjoin & Hclean & _).
  split; [exact Hin |]. split; [exact (Hclean _ Hin) | exact Hjoin].
Defined.

Lemma split_clean_prefix (sep : ascii) (a b : string) :
  has_char sep a = false ->
  Str.split sep (a ++ String sep b) = a :: Str.split sep b.
Proof.
  induction a as [| c a IH]; simpl; intros H.
  - now rewrite Ascii.eqb_refl.
  - apply orb_false_iff in H as [Hc Ha]. rewrite Hc, (IH Ha). reflexivity.
Qed.

Lemma split_clean (sep : ascii) (a : string) :
  has_char sep a = false -> Str.split sep a = [a].
Proof.
  induction a as [| c a IH]; simpl; intros H; [reflexivity |].
  apply orb_false_iff in H as [Hc Ha]. now rewrite Hc, (IH Ha).
Qed.

(** X17. The domain of a task is the part of its URL between the second
    and the third "/": for scheme://host/path and for scheme://host it is
    the host (whatever the scheme, with port and user information if
    any), and it never holds a "/". *)
Theorem url_domain_is_the_host (scheme host path : string) :
  has_char "/" scheme = false ->
  has_char "/" host = false ->
  url_domain (scheme ++ "//" ++ host ++ "/" ++ path)%string = Some host
  /\ url_domain (scheme ++ "//" ++ host)%string = Some host
  /\ forall url domain, url_domain url = Some domain ->
                        has_char "/" domain = false.
Proof.
  intros Hs Hh. unfold url_domain. split; [| split].
  - change (scheme ++ "//" ++ host ++ "/" ++ path)%string
      with (scheme ++ String "/" ("" ++ String "/" (host ++ String "/" path)))%string.
    rewrite (split_clean_prefix "/" scheme _ Hs).
    rewrite (split_clean_prefix "/" "" _ eq_refl).
    rewrite (split_clean_prefix "/" host _ Hh). reflexivity.
  - change (scheme ++ "//" ++ host)%string
      with (scheme ++ String "/" ("" ++ String "/" host))%string.
    rewrite (split_clean_prefix "/" scheme _ Hs).
    rewrite (split_clean_prefix "/" "" _ eq_refl).
    rewrite (split_clean "/" host Hh). reflexivity.
  - intros url domain H. apply nth_error_In in H.
    now apply split_parts_clean in H.
Qed.

Lemma url_domain_is_the_host_witness :
  has_char "/" "http:" = false
  /\ has_char "/" "user@shop.example:8080" = false
  /\ url_domain "http://user@shop.example:8080/cart/1"
     = Some "user@shop.example:8080"%string.
Proof.
  split; [reflexivity |]. split; [reflexivity |].
  exact (proj1 (url_domain_is_the_host "http:" "user@shop.example:8080"
                  "cart/1" eq_refl eq_refl)).
Defined.

(** X18. A seed URL with fewer than two "/" has no domain: its task fails
    with IndexError before anything else happens; the error is logged
    under the URL, no request is sent and the state is otherwise as it
    was. *)
Theorem url_without_domain_fails (cfg : Config) (W : World) (url : string)
    (st : State) :
  (occurrences "/" url < 2)%nat ->
  url_domain url = None
  /\ scrape_page cfg W url st
     = (Ok tt,
        mkState (tick st) (text_storage st) (image_storage st)
                (Log ERROR (ErrorScraping url IndexError) :: trace st)).
Proof.
  intros H.
  assert (Hnone : url_domain url = None).
  { unfold url_domain. apply nth_error_None. rewrite split_length. lia. }
  split; [exact Hnone |].
  unfold scrape_page, scrape_body, try_except, bind. now rewrite Hnone.
Qed.

Lemma url_without_domain_fails_witness :
  (occurrences "/" "good.example/a" < 2)%nat
  /\ scrape_page CONFIG world_two_pages "good.example/a" initial_state
     = (Ok tt,
        mkState 0 [] []
          [Log ERROR (ErrorScraping "good.example/a" IndexError)]).
Proof.
  assert (H : (occurrences "/" "good.example/a" < 2)%nat) by (simpl; lia).
  split; [exact H |].
  exact (proj2 (url_without_domain_fails CONFIG world_two_pages
                  "good.example/a" initial_state H)).
Defined.

Lemma random_choice_cases (W : World) (pool : list string)
    (st : State) :
  (pool <> [] ->
   exists agent,
     random_choice W pool st
     = (Ok agent,
        mkState (S (tick st)) (text_storage st) (image_storage st) (trace st))
     /\ In agent pool)
  /\ (pool = [] ->
      random_choice W pool st
      = (Raise IndexError,
         mkState (S (tick st)) (text_storage st) (image_storage st)
                 (trace st))).
Proof.
  unfold random_choice, bind, oracle_tick. simpl. split.
  - intros Hne.
    destruct (nth_error pool (rand W (tick st) mod List.length pool))
      as [agent |] eqn:E.
    + exists agent. split; [reflexivity |]. exact (nth_error_In _ _ E).
    + apply nth_error_None in E.
      assert (List.length pool <> 0)%nat by (now destruct pool).
      pose proof (Nat.mod_upper_bound (rand W (tick st)) (List.length pool)).
      lia.
  - intros ->. now rewrite nth_error_nil.
Qed.

(** X19. [random.choice] on the pool of user agents: from a pool that is
    not empty it returns one of its members, whatever the random number;
    on an empty pool it raises IndexError, so that a task permitted by
    robots.txt fails before it sends its request. *)
Theorem random_choice_from_pool (W : World) (pool : list string)
    (st : State) :
  (pool <> [] ->
   exists agent,
     random_choice W pool st
     = (Ok agent,
        mkState (S (tick st)) (text_storage st) (image_storage st) (trace st))
     /\ In agent pool)
  /\ (pool = [] ->
      random_choice W pool st
      = (Raise IndexError,
         mkState (S (tick st)) (text_storage st) (image_storage st)
                 (trace st))).
Proof. exact (random_choice_cases W pool st). Qed.

Lemma random_choice_from_pool_witness :
  user_agents CONFIG <> []
  /\ exists agent,
       random_choice world_two_pages (user_agents CONFIG) initial_state
       = (Ok agent, mkState 1 [] [] [])
       /\ In agent (user_agents CONFIG).
Proof.
  assert (Hne : user_agents CONFIG <> []) by discriminate.
  split; [exact Hne |].
  exact (proj1 (random_choice_from_pool world_two_pages (user_agents CONFIG)
                  initial_state) Hne).
Defined.

Example empty_pool_sends_nothing :
  scrape_page config_no_agents world_two_pages "https://good.example/a"
              initial_state
  = (Ok tt,
     mkState 2 [] []
       [ Log ERROR (ErrorScraping "https://good.example/a" IndexError);
         RobotsGet "https://good.example/robots.txt" ]).
Proof. reflexivity. Qed.

Lemma has_char_app (c : ascii) (a b : string) :
  has_char c (a ++ b) = has_char c a || has_char c b.
Proof.
  induction a as [| d a IH]; simpl; [reflexivity |].
  now rewrite IH, orb_assoc.
Qed.

Lemma lower_char_slash (d : ascii) :
  Ascii.eqb (Str.lower_char d) "/" = Ascii.eqb d "/".
Proof. destruct d as [[] [] [] [] [] [] [] []]; reflexivity. Qed.

Lemma lower_keeps_slashes (s : string) :
  has_char "/" (Str.lower s) = has_char "/" s.
Proof.
  induction s as [| d s IH]; simpl; [reflexivity |].
  now rewrite lower_char_slash, IH.
Qed.

Lemma hex_digit_not_slash (x : Z) :
  Ascii.eqb (Hashlib.hex_digit x) "/" = false.
Proof.
  unfold Hashlib.hex_digit. generalize (Z.to_nat x) as k. intros k.
  do 17 (destruct k as [| k]; [reflexivity |]). reflexivity.
Qed.

Lemma hex_of_no_slash (n : nat) (v : Z) :
  has_char "/" (Hashlib.hex_of n v) = false.
Proof.
  induction n as [| n IH]; simpl; [reflexivity |].
  now rewrite hex_digit_not_slash, IH.
Qed.

Lemma string_app_assoc (a b c : string) :
  ((a ++ b) ++ c)%string = (a ++ b ++ c)%string.
Proof. induction a as [| d a IH]; simpl; [reflexivity | now rewrite IH]. Qed.

Lemma endswith_char_last (x : string) (c d : ascii) :
  Str.endswith_char (x ++ String c EmptyString) d = Ascii.eqb d c.
Proof.
  unfold Str.endswith_char.
  induction x as [| e x IH]; [reflexivity |].
  change ((String e x ++ String c "")%string)
    with (String e (x ++ String c "")).
  cbn [String.length].
  destruct (String.length (x ++ String c "")) as [| k] eqn:E.
  - destruct x; discriminate.
  - cbn [String.get]. exact IH.
Qed.

Lemma images_folder_shape (out : string) :
  exists x, Str.os_path_join out "images" = (x ++ "image" ++ "s")%string.
Proof.
  unfold Str.os_path_join. cbn [Str.startswith String.prefix].
  destruct (ascii_dec "/" "i") as [H | _]; [discriminate |].
  destruct (_ || _).
  - now exists out.
  - exists (out ++ "/")%string. now rewrite string_app_assoc.
Qed.

(** X20. An image file is written directly in the images folder: when
    neither the domain nor the image format holds a "/", the file name
    {domain}_{sha256}.{format} holds none either and the path handed to
    the file system is the images folder, a "/" and the file name,
    whatever the output directory is. *)
Theorem image_path_stays_in_folder (cfg : Config) (domain format : string)
    (content : list byte) :
  has_char "/" domain = false ->
  has_char "/" format = false ->
  has_char "/" (filename_of domain content format) = false
  /\ images_path cfg (filename_of domain content format)
     = (Str.os_path_join (output_dir cfg) "images" ++ "/"
        ++ filename_of domain content format)%string.
Proof.
  intros Hd Hf.
  assert (Hname : has_char "/" (filename_of domain content format) = false).
  { unfold filename_of, Hashlib.hexdigest.
    rewrite !has_char_app, Hd, hex_of_no_slash, lower_keeps_slashes, Hf.
    reflexivity. }
  split; [exact Hname |].
  unfold images_path.
  destruct (images_folder_shape (output_dir cfg)) as (x & ->).
  generalize dependent (filename_of domain content format).
  intros name Hname. unfold Str.os_path_join at 1.
  assert (Hstart : Str.startswith name "/" = false).
  { destruct name as [| c name]; [reflexivity |].
    cbn [has_char] in Hname. apply orb_false_iff in Hname as [Hc _].
    unfold Str.startswith. cbn [String.prefix].
    destruct (ascii_dec "/" c) as [<- | _]; [discriminate | reflexivity]. }
  rewrite Hstart.
  rewrite <- (string_app_assoc x "image" "s"), endswith_char_last.
  assert (Hne : String.eqb ((x ++ "image") ++ "s") "" = false)
    by (destruct x; reflexivity).
  rewrite Hne. reflexivity.
Qed.

Lemma image_path_stays_in_folder_witness :
  has_char "/" "page.example" = false
  /\ has_char "/" "PNG" = false
  /\ images_path CONFIG (filename_of "page.example" png_bytes "PNG")
     = ("ai_training_data/images" ++ "/"
        ++ filename_of "page.example" png_bytes "PNG")%string.
Proof.
  split; [reflexivity |]. split; [reflexivity |].
  exact (proj2 (image_path_stays_in_folder CONFIG "page.example" "PNG"
                  png_bytes eq_refl eq_refl)).
Defined.

(** ** A task from the request to the records *)

Lemma get_robots_parser_permitted (W : World) (domain useragent url : string)
    (st : State) :
  permitted (robots_txt W (tick st) (domain ++ "/robots.txt")) useragent url
    = true ->
  exists rp,
    get_robots_parser W domain st
    = (Ok rp, mkState (S (tick st)) (text_storage st) (image_storage st)
                      (RobotsGet (domain ++ "/robots.txt") :: trace st))
    /\ can_fetch rp useragent url = true.
Proof.
  unfold get_robots_parser, try_except, rp_read, bind, oracle_tick, emit,
    logging, emit, ret, raise, permitted, can_fetch. simpl.
  destruct (robots_txt W (tick st) (domain ++ "/robots.txt"))
    as [e | code | allowance]; simpl; intros H; [discriminate | |].
  - destruct ((code =? 401) || (code =? 403)); simpl in *;
      [now rewrite andb_false_r in H |].
    rewrite andb_true_r in H. rewrite H. simpl.
    eexists. split; reflexivity.
  - eexists. split; [reflexivity | exact H].
Qed.

Lemma retry_request_first_try (cfg : Config) (W : World) (url : string)
    (headers : list (string * string)) (status : Z) (content : list byte)
    (st : State) :
  1 <= retry_attempts cfg ->
  http W (tick st) url = Response status content ->
  forced_retry status = false ->
  retry_request cfg (session_get cfg W url headers) st
  = (Ok (status, content),
     mkState (S (tick st)) (text_storage st) (image_storage st)
             (HttpGet url headers :: trace st)).
Proof.
  intros Hattempts Hhttp Hgood.
  unfold retry_request, range1, session_get.
  destruct (Z.to_nat (retry_attempts cfg)) as [| n] eqn:E; [lia |].
  cbn [seq map retry_loop]. unfold try_except.
  now rewrite (adapter_send_good W _ url headers status content st Hhttp Hgood).
Qed.

(** A task whose URL has a domain, is permitted, finds a user agent and
    is served goes on with the text and the images of the page. *)
Lemma scrape_page_fetched (cfg : Config) (W : World) (url domain : string)
    (content : list byte) (st : State) :
  url_domain url = Some domain ->
  permitted (robots_txt W (tick st)
               ("https://" ++ domain ++ "/robots.txt")%string) "*" url = true ->
  user_agents cfg <> [] ->
  1 <= retry_attempts cfg ->
  serves W url content ->
  exists agent,
    In agent (user_agents cfg)
    /\ scrape_page cfg W url st
       = try_except (text_and_images cfg W url domain content)
           (fun e => logging ERROR (ErrorScraping url e))
           (mkState (S (S (S (tick st)))) (text_storage st) (image_storage st)
              (HttpGet url [ ("User-Agent", agent);
                             ("Accept-Language", "en-US,en;q=0.9") ]%string
               :: Sleep (rate_limit_delay cfg)
               :: RobotsGet ("https://" ++ domain ++ "/robots.txt")%string
               :: trace st)).
Proof.
  intros Hdom Hperm Hpool Hattempts Hserves.
  destruct (get_robots_parser_permitted W ("https://" ++ domain)%string "*"
              url st Hperm) as (rp & Hrobots & Hcan).
  set (s1 := mkState (S (tick st)) (text_storage st) (image_storage st)
               (RobotsGet (("https://" ++ domain) ++ "/robots.txt")%string
                :: trace st)) in *.
  destruct (proj1 (random_choice_cases W (user_agents cfg) s1) Hpool)
    as (agent & Hchoice & Hin).
  exists agent. split; [exact Hin |].
  set (headers := [ ("User-Agent", agent);
                    ("Accept-Language", "en-US,en;q=0.9") ]%string).
  set (s2 := mkState (S (tick s1)) (text_storage s1) (image_storage s1)
                     (trace s1)) in *.
  set (s3 := mkState (tick s2) (text_storage s2) (image_storage s2)
                     (Sleep (rate_limit_delay cfg) :: trace s2)).
  destruct (Hserves (tick s3)) as (status & Hhttp & Hgood).
  unfold good_status in Hgood.
  apply andb_true_iff in Hgood as [Hf Hs].
  apply negb_true_iff in Hf. apply negb_true_iff in Hs.
  pose proof (retry_request_first_try cfg W url headers status content s3
                Hattempts Hhttp Hf) as Hretry.
  unfold scrape_page. unfold scrape_body at 1. rewrite Hdom.
  unfold try_except at 1.
  rewrite (bind_ok _ _ st st domain eq_refl).
  rewrite (bind_ok _ _ _ _ _ Hrobots). rewrite Hcan. cbn [negb].
  rewrite (bind_ok _ _ _ _ _ Hchoice).
  rewrite (bind_ok (time_sleep (rate_limit_delay cfg)) _ s2 s3 tt eq_refl).
  fold headers. rewrite (bind_ok _ _ _ _ _ Hretry).
  assert (Hrfs : forall s, raise_for_status (status, content) s = (Ok tt, s)).
  { intros s. unfold raise_for_status. simpl. now rewrite Hs. }
  rewrite (bind_ok _ _ _ _ _ (Hrfs _)).
  reflexivity.
Qed.

Lemma store_text_appends_below (cfg : Config) (W : World)
    (data : TextRecord) (st : State) :
  Z.of_nat (List.length (text_storage st)) + 1 < max_text_storage cfg ->
  store_text cfg W data st
  = (Ok tt, mkState (tick st) (text_storage st ++ [data]) (image_storage st)
                    (trace st)).
Proof.
  intros H. unfold store_text, bind, set_text_storage. simpl.
  destruct (Z.geb_spec (Z.of_nat (List.length (text_storage st ++ [data])))
                       (max_text_storage cfg)) as [Hge | _]; [| reflexivity].
  rewrite length_app in Hge. simpl in Hge. lia.
Qed.

Lemma validate_content_run (cfg : Config) (W : World) (text : string)
    (st : State) :
  exists st',
    validate_content cfg W text st = (Ok (accepts cfg W text), st')
    /\ text_storage st' = text_storage st
    /\ trace_grows st st'.
Proof.
  pose proof (f_equal fst (validate_content_cases cfg W text st)) as Hfst.
  pose proof (respects_validate_content same_texts (fun s => eq_refl)
                same_texts_trans (fun _ => True)
                (fun e s _ => eq_refl) (fun l m => I) cfg W text st) as Ht.
  pose proof (respects_validate_content trace_grows trace_grows_refl
                trace_grows_trans (fun _ => True)
                trace_grows_emit (fun l m => I) cfg W text st) as Hg.
  destruct (validate_content cfg W text st) as [r s]. simpl in *.
  exists s. subst r. now repeat split.
Qed.

(** X21. A task whose URL has a domain, that robots.txt permits, that
    finds a user agent and whose page is served: when the cleaned text of
    the page passes [validate_content] and the buffer stays below its
    threshold, the task ends normally and has appended exactly one record
    to the buffer, made of the URL, the cleaned text of the page and the
    domain of the URL. *)
Theorem accepted_page_is_stored (cfg : Config) (W : World)
    (url domain : string) (content : list byte) (st : State) :
  url_domain url = Some domain ->
  permitted (robots_txt W (tick st)
               ("https://" ++ domain ++ "/robots.txt")%string) "*" url = true ->
  user_agents cfg <> [] ->
  1 <= retry_attempts cfg ->
  serves W url content ->
  accepts cfg W (page_text W content) = true ->
  Z.of_nat (List.length (text_storage st)) + 1 < max_text_storage cfg ->
  exists st' timestamp,
    scrape_page cfg W url st = (Ok tt, st')
    /\ text_storage st'
       = (text_storage st
          ++ [mkTextRecord url (page_text W content) timestamp domain])%list
    /\ In (Log INFO (ScrapedAndStored url)) (trace st').
Proof.
  intros Hdom Hperm Hpool Hattempts Hserves Hacc Hroom.
  destruct (scrape_page_fetched cfg W url domain content st Hdom Hperm Hpool
              Hattempts Hserves) as (agent & _ & Hrun).
  rewrite Hrun. clear Hrun.
  match goal with
  | |- context [try_except _ _ ?s] => set (s3 := s)
  end.
  assert (Hbuf3 : text_storage s3 = text_storage st) by reflexivity.
  destruct (validate_content_run cfg W (page_text W content) s3)
    as (s4 & Hval & Hbuf4 & _).
  rewrite Hacc in Hval.
  set (ts := now W (tick s4)).
  set (s5 := mkState (S (tick s4)) (text_storage s4) (image_storage s4)
                     (trace s4)).
  assert (Hstore : store_text cfg W
                     (mkTextRecord url (page_text W content) ts domain) s5
                   = (Ok tt, mkState (tick s5)
                        (text_storage s5
                         ++ [mkTextRecord url (page_text W content) ts domain])
                        (image_storage s5) (trace s5))).
  { apply store_text_appends_below. simpl. rewrite Hbuf4, Hbuf3.
    exact Hroom. }
  set (s6 := mkState (tick s5)
               (text_storage s5
                ++ [mkTextRecord url (page_text W content) ts domain])
               (image_storage s5)
               (Log INFO (ScrapedAndStored url) :: trace s5)).
  destruct (process_images_returns cfg W
              (find_all_img (beautiful_soup W content)) domain s6)
    as (st' & Himgs).
  exists st', ts.
  assert (Hrun : text_and_images cfg W url domain content s3 = (Ok tt, st')).
  { unfold text_and_images. fold (page_text W content).
    rewrite (bind_ok _ _ _ _ _ Hval).
    erewrite (bind_ok _ _ s4 s6 tt); [exact Himgs |].
    rewrite (bind_ok (datetime_now W) _ s4 s5 ts eq_refl).
    rewrite (bind_ok _ _ _ _ _ Hstore). reflexivity. }
  unfold try_except. rewrite Hrun. split; [reflexivity |].
  pose proof (process_images_same_texts cfg W
                (find_all_img (beautiful_soup W content)) domain s6) as Ht.
  pose proof (process_images_trace_grows cfg W
                (find_all_img (beautiful_soup W content)) domain s6) as Hg.
  rewrite Himgs in Ht, Hg. unfold same_texts in Ht. simpl in Ht, Hg.
  split.
  - rewrite Ht. simpl. now rewrite Hbuf4, Hbuf3.
  - eapply trace_grows_in; [exact Hg |]. simpl. now left.
Qed.

Lemma accepted_page_is_stored_witness :
  url_domain "https://good.example/a" = Some "good.example"%string
  /\ user_agents CONFIG <> []
  /\ serves world_two_pages "https://good.example/a"
            (list_byte_of_string "<article>")
  /\ accepts CONFIG world_two_pages
       (page_text world_two_pages (list_byte_of_string "<article>")) = true
  /\ exists st' timestamp,
       scrape_page CONFIG world_two_pages "https://good.example/a"
                   initial_state = (Ok tt, st')
       /\ text_storage st'
          = [mkTextRecord "https://good.example/a" article_text timestamp
                          "good.example"]
       /\ In (Log INFO (ScrapedAndStored "https://good.example/a"))
             (trace st').
Proof.
  assert (Hpool : user_agents CONFIG <> []) by discriminate.
  assert (Hserves : serves world_two_pages "https://good.example/a"
                           (list_byte_of_string "<article>")).
  { intros t. exists 200. split; reflexivity. }
  assert (Hacc : accepts CONFIG world_two_pages
                   (page_text world_two_pages
                      (list_byte_of_string "<article>")) = true)
    by (vm_compute; reflexivity).
  assert (Hattempts : 1 <= retry_attempts CONFIG) by (simpl; lia).
  assert (Hroom : Z.of_nat (List.length (text_storage initial_state)) + 1
                  < max_text_storage CONFIG) by (simpl; lia).
  split; [reflexivity |]. split; [exact Hpool |]. split; [exact Hserves |].
  split; [exact Hacc |].
  exact (accepted_page_is_stored CONFIG world_two_pages
           "https://good.example/a" "good.example"
           (list_byte_of_string "<article>") initial_state
           eq_refl eq_refl Hpool Hattempts Hserves Hacc Hroom).
Defined.

(** X22. The images of a page are processed also when its text is not
    kept: for a task that is permitted and served and whose cleaned text
    fails [validate_content], nothing is added to the text buffer, the
    rejection is logged, the task ends normally, and the request of every
    <img> with an http source has been sent. *)
Theorem rejected_page_keeps_images (cfg : Config) (W : World)
    (url domain : string) (content : list byte) (st : State) :
  url_domain url = Some domain ->
  permitted (robots_txt W (tick st)
               ("https://" ++ domain ++ "/robots.txt")%string) "*" url = true ->
  user_agents cfg <> [] ->
  1 <= retry_attempts cfg ->
  serves W url content ->
  accepts cfg W (page_text W content) = false ->
  exists st',
    scrape_page cfg W url st = (Ok tt, st')
    /\ text_storage st' = text_storage st
    /\ In (Log INFO (DidNotPassValidation url)) (trace st')
    /\ forall src,
         In (Some src) (find_all_img (beautiful_soup W content)) ->
         wants_download (Some src) = true ->
         In (HttpGet src []) (trace st').
Proof.
  intros Hdom Hperm Hpool Hattempts Hserves Hrej.
  destruct (scrape_page_fetched cfg W url domain content st Hdom Hperm Hpool
              Hattempts Hserves) as (agent & _ & Hrun).
  rewrite Hrun. clear Hrun.
  match goal with
  | |- context [try_except _ _ ?s] => set (s3 := s)
  end.
  assert (Hbuf3 : text_storage s3 = text_storage st) by reflexivity.
  destruct (validate_content_run cfg W (page_text W content) s3)
    as (s4 & Hval & Hbuf4 & _).
  rewrite Hrej in Hval.
  set (s5 := mkState (tick s4) (text_storage s4) (image_storage s4)
                     (Log INFO (DidNotPassValidation url) :: trace s4)).
  set (imgs := find_all_img (beautiful_soup W content)).
  destruct (process_images_returns cfg W imgs domain s5) as (st' & Himgs).
  exists st'.
  assert (Hrun : text_and_images cfg W url domain content s3 = (Ok tt, st')).
  { unfold text_and_images. fold (page_text W content).
    rewrite (bind_ok _ _ _ _ _ Hval).
    now rewrite (bind_ok (logging INFO (DidNotPassValidation url)) _ s4 s5 tt
                   eq_refl). }
  unfold try_except. rewrite Hrun. split; [reflexivity |].
  pose proof (process_images_same_texts cfg W imgs domain s5) as Ht.
  pose proof (process_images_trace_grows cfg W imgs domain s5) as Hg.
  rewrite Himgs in Ht, Hg. unfold same_texts in Ht. simpl in Ht, Hg.
  split; [now rewrite Ht, Hbuf4, Hbuf3 |]. split.
  - eapply trace_grows_in; [exact Hg |]. simpl. now left.
  - intros src Hin Hw.
    pose proof (process_images_sends cfg W imgs domain src s5 Hin Hw) as Hs.
    now rewrite Himgs in Hs.
Qed.

Lemma rejected_page_keeps_images_witness :
  url_domain "https://page.example/post" = Some "page.example"%string
  /\ accepts CONFIG world_short_page
       (page_text world_short_page (list_byte_of_string "<article>")) = false
  /\ exists st',
       scrape_page CONFIG world_short_page "https://page.example/post"
                   initial_state = (Ok tt, st')
       /\ text_storage st' = []
       /\ In (Log INFO (DidNotPassValidation "https://page.example/post"))
             (trace st')
       /\ In (HttpGet "https://img.example/ok.png" []) (trace st').
Proof.
  assert (Hpool : user_agents CONFIG <> []) by discriminate.
  assert (Hserves : serves world_short_page "https://page.example/post"
                           (list_byte_of_string "<article>")).
  { intros t. exists 200. split; reflexivity. }
  assert (Hattempts : 1 <= retry_attempts CONFIG) by (simpl; lia).
  split; [reflexivity |]. split; [reflexivity |].
  destruct (rejected_page_keeps_images CONFIG world_short_page
              "https://page.example/post" "page.example"
              (list_byte_of_string "<article>") initial_state
              eq_refl eq_refl Hpool Hattempts Hserves eq_refl)
    as (st' & Hrun & Hbuf & Hlog & Hsent).
  exists st'. split; [exact Hrun |]. split; [exact Hbuf |].
  split; [exact Hlog |].
  apply Hsent; [simpl; now left | reflexivity].
Defined.

(** ** One closing line for each task *)

Lemma quiet_ret {A} (a : A) : quiet (ret a).
Proof. intros st. reflexivity. Qed.

Lemma quiet_raise {A} (e : Exn) : quiet (@raise A e).
Proof. intros st. reflexivity. Qed.

Lemma quiet_bind {A B} (m : M A) (k : A -> M B) :
  quiet m -> (forall a, quiet (k a)) -> quiet (bind m k).
Proof.
  apply (respects_bind (same_count is_closing_line) (same_count_trans _)).
Qed.

Lemma quiet_try_except {A} (m : M A) (h : Exn -> M A) :
  quiet m -> (forall e, quiet (h e)) -> quiet (try_except m h).
Proof.
  apply (respects_try_except (same_count is_closing_line)
           (same_count_trans _)).
Qed.

Lemma quiet_tick : quiet oracle_tick.
Proof. intros st. reflexivity. Qed.

Lemma quiet_emit (e : Event) : is_closing_line e = false -> quiet (emit e).
Proof. intros H st. now apply same_count_emit. Qed.

Ltac quiet_step :=
  first
    [ assumption
    | match goal with
      | H : _ |- quiet _ => apply H
      end
    | apply quiet_ret | apply quiet_raise | apply quiet_tick
    | apply quiet_emit; reflexivity
    | apply quiet_bind; [| intro]
    | apply quiet_try_except; [| intro]
    | match goal with
      | |- quiet (match ?x with _ => _ end) => destruct x
      end ].

Ltac quiet_auto := repeat quiet_step.

Lemma quiet_datetime_now (W : World) : quiet (datetime_now W).
Proof. unfold datetime_now. quiet_auto. Qed.

Lemma quiet_write_file (W : World) (path : string) (data : FileData) :
  quiet (write_file W path data).
Proof. unfold write_file. quiet_auto. Qed.

Lemma quiet_flush_text_storage (cfg : Config) (W : World) :
  quiet (flush_text_storage cfg W).
Proof.
  intros st. unfold flush_text_storage.
  destruct (text_storage st) as [| r df]; [reflexivity |].
  assert (H : quiet (timestamp <- datetime_now W ;;
                     flush_format cfg W "jsonl" timestamp (r :: df) ;;
                     flush_format cfg W "parquet" timestamp (r :: df) ;;
                     set_text_storage [])).
  { pose proof (quiet_datetime_now W). pose proof (quiet_write_file W).
    unfold flush_format, logging. quiet_auto. }
  apply H.
Qed.

Lemma quiet_store_text (cfg : Config) (W : World) (data : TextRecord) :
  quiet (store_text cfg W data).
Proof.
  intros st. unfold store_text.
  assert (H : quiet (set_text_storage (text_storage st ++ [data]) ;;
                     if Z.of_nat (List.length (text_storage st ++ [data]))
                        >=? max_text_storage cfg
                     then flush_text_storage cfg W else ret tt)).
  { pose proof (quiet_flush_text_storage cfg W). quiet_auto. }
  apply H.
Qed.

Lemma quiet_adapter_send (W : World) (n : nat) (url : string)
    (headers : list (string * string)) :
  quiet (adapter_send W n url headers).
Proof. induction n as [| n IH]; simpl; quiet_auto. Qed.

Lemma quiet_store_image (cfg : Config) (W : World) (data : ImageRecord)
    (content : list byte) :
  quiet (store_image cfg W data content).
Proof.
  intros st. unfold store_image.
  assert (H : quiet (set_image_storage (image_storage st ++ [data]) ;;
                     try_except
                       (write_file W
                          (Str.os_path_join
                             (Str.os_path_join (output_dir cfg) "images")
                             (image_filename data))
                          (ImageBytes content) ;;
                        logging INFO (SavedImage (image_filename data)))
                       (fun e => logging ERROR
                                   (ErrorSavingImage (image_filename data)
                                                     e)))).
  { pose proof (quiet_write_file W). unfold logging. quiet_auto. }
  apply H.
Qed.

Lemma quiet_download_response (cfg : Config) (W : World)
    (url domain : string) (response : Z * list byte) :
  quiet (download_response cfg W url domain response).
Proof.
  unfold download_response.
  apply quiet_bind; [unfold raise_for_status; quiet_auto | intros _].
  apply quiet_bind; [unfold Image_open; quiet_auto | intros img].
  apply quiet_bind; [quiet_auto | intros _].
  apply quiet_bind; [unfold Image_open; quiet_auto | intros img'].
  apply quiet_bind; [apply quiet_datetime_now | intros ts].
  apply quiet_store_image.
Qed.

Lemma quiet_download (cfg : Config) (W : World) (url domain : string) :
  quiet (download cfg W url domain).
Proof.
  unfold download. apply quiet_try_except.
  - apply quiet_bind; [apply quiet_adapter_send | intros response].
    apply quiet_download_response.
  - intros e. now apply quiet_emit.
Qed.

Lemma quiet_process_images (cfg : Config) (W : World)
    (imgs : list (option string)) (domain : string) :
  quiet (process_images cfg W imgs domain).
Proof.
  pose proof (quiet_download cfg W) as Hd.
  induction imgs as [| img rest IH]; cbn [process_images]; quiet_auto.
Qed.

Lemma quiet_get_robots_parser (W : World) (domain : string) :
  quiet (get_robots_parser W domain).
Proof. unfold get_robots_parser, rp_read, logging. quiet_auto. Qed.

Lemma quiet_validate_content (cfg : Config) (W : World) (text : string) :
  quiet (validate_content cfg W text).
Proof. unfold validate_content, logging. quiet_auto. Qed.

Lemma quiet_retry_loop {A} (func : M A) (attempts backoff : Z)
    (range : list Z) :
  quiet func -> quiet (retry_loop func attempts backoff range).
Proof.
  intros Hf. induction range as [| attempt rest IH]; simpl;
    unfold logging, time_sleep; quiet_auto.
Qed.

Lemma quiet_random_choice (W : World) (l : list string) :
  quiet (random_choice W l).
Proof. unfold random_choice. quiet_auto. Qed.

Lemma closes_after_quiet {A B} (m : M A) (k : A -> M B) :
  quiet m -> (forall a, closes (k a)) -> closes (bind m k).
Proof.
  intros Hm Hk st. unfold bind. specialize (Hm st).
  unfold same_count in Hm.
  destruct (m st) as [[a | e] s1]; simpl in *.
  - rewrite (Hk a s1), Hm. reflexivity.
  - rewrite Hm. lia.
Qed.

Lemma closes_then_quiet {A} (m : M A) (k : A -> M unit) :
  closes m ->
  (forall a, quiet (k a)) ->
  (forall a st, exists st', k a st = (Ok tt, st')) ->
  closes (bind m k).
Proof.
  intros Hm Hk Hret st. unfold bind. specialize (Hm st).
  destruct (m st) as [[a | e] s1]; simpl in *.
  - specialize (Hk a s1). unfold same_count in Hk.
    destruct (Hret a s1) as (st' & Hrun). rewrite Hrun in *. simpl in *.
    rewrite Hk, Hm. reflexivity.
  - exact Hm.
Qed.

Lemma closes_logging (level : Level) (msg : LogMsg) :
  is_closing_line (Log level msg) = true -> closes (logging level msg).
Proof.
  intros H st. unfold logging, emit. cbn [snd fst].
  rewrite count_emit, H. lia.
Qed.

Lemma closes_after_robots (cfg : Config) (W : World) (url domain : string)
    (rp : RobotFileParser) :
  closes (after_robots cfg W url domain rp).
Proof.
  unfold after_robots.
  destruct (negb (can_fetch rp "*" url)); [now apply closes_logging |].
  apply closes_after_quiet; [apply quiet_random_choice | intros agent].
  apply closes_after_quiet; [now apply quiet_emit | intros _].
  apply closes_after_quiet;
    [apply quiet_retry_loop, quiet_adapter_send | intros response].
  apply closes_after_quiet;
    [unfold raise_for_status; quiet_auto | intros _].
  apply closes_after_quiet; [apply quiet_validate_content | intros valid].
  apply closes_then_quiet.
  - destruct valid; [| now apply closes_logging].
    apply closes_after_quiet; [apply quiet_datetime_now | intros ts].
    apply closes_after_quiet; [apply quiet_store_text | intros _].
    now apply closes_logging.
  - intros _. apply quiet_process_images.
  - intros _ st. apply process_images_returns.
Qed.

Lemma scrape_page_closes_once (cfg : Config) (W : World) (url : string)
    (st : State) :
  count is_closing_line (snd (scrape_page cfg W url st))
  = S (count is_closing_line st).
Proof.
  assert (Hbody : closes (scrape_body cfg W url)).
  { unfold scrape_body.
    apply closes_after_quiet; [quiet_auto | intros domain].
    apply closes_after_quiet; [apply quiet_get_robots_parser | intros rp].
    apply (closes_after_robots cfg W url domain rp). }
  specialize (Hbody st). unfold scrape_page, try_except.
  destruct (scrape_body cfg W url st) as [[[] | e] s1]; simpl in *.
  - lia.
  - unfold count in *. simpl. lia.
Qed.

(** X23. Each task writes exactly one of the four lines that close a task
    (skipped for robots.txt, scraped and stored, did not pass validation,
    error scraping), whatever happens to it: after a run the log holds one
    such line more for each seed URL. *)
Theorem one_closing_line_per_task (cfg : Config) (W : World)
    (seed_urls : list string) (st : State) :
  count is_closing_line (snd (run cfg W seed_urls st))
  = (count is_closing_line st + List.length seed_urls)%nat.
Proof.
  revert st. induction seed_urls as [| url rest IH]; intros st.
  - simpl. lia.
  - rewrite run_cons, IH, scrape_page_closes_once. simpl. lia.
Qed.

(** ** More on flushes, requests and images *)

(** X24. A flush can fail half way: when both formats are configured, the
    jsonl file is written and the parquet file cannot be, the flush raises
    after the records have gone to the jsonl file and leaves them in the
    buffer, so that the next flush writes them to a jsonl file again. *)
Theorem flush_can_fail_half_way (cfg : Config) (W : World) (st : State) :
  list_in "jsonl" (storage_formats cfg) = true ->
  list_in "parquet" (storage_formats cfg) = true ->
  text_storage st <> [] ->
  fs_write_ok W (S (tick st)) (flush_path cfg W st "jsonl") = true ->
  fs_write_ok W (S (S (tick st))) (flush_path cfg W st "parquet") = false ->
  exists st',
    flush_text_storage cfg W st = (Raise OSError, st')
    /\ text_storage st' = text_storage st
    /\ written "jsonl" (trace st')
       = (written "jsonl" (trace st) ++ text_storage st)%list.
Proof.
  intros Hj Hp Hne Hok Hfail. unfold flush_path in *. simpl in Hok, Hfail.
  unfold flush_text_storage.
  destruct (text_storage st) as [| r df] eqn:E; [congruence |].
  unfold bind, datetime_now, flush_format, write_file, bind, oracle_tick,
    emit, logging, emit, ret, raise. simpl.
  rewrite Hj, Hp. simpl. rewrite Hok. simpl. rewrite Hfail. simpl.
  eexists. split; [reflexivity |]. split; [exact E |].
  unfold written. simpl.
  change (batch_of "jsonl" ("jsonl"%string, r :: df, true)) with (r :: df).
  change (batch_of "jsonl" ("parquet"%string, r :: df, false))
    with (@nil TextRecord).
  rewrite !concat_app. simpl. now rewrite !app_nil_r.
Qed.

Lemma flush_can_fail_half_way_witness :
  text_storage one_buffered <> []
  /\ fs_write_ok world_no_parquet 1
       (flush_path CONFIG world_no_parquet one_buffered "jsonl") = true
  /\ fs_write_ok world_no_parquet 2
       (flush_path CONFIG world_no_parquet one_buffered "parquet") = false
  /\ exists st',
       flush_text_storage CONFIG world_no_parquet one_buffered
       = (Raise OSError, st')
       /\ text_storage st' = [sample_record 1]
       /\ written "jsonl" (trace st') = [sample_record 1].
Proof.
  assert (Hne : text_storage one_buffered <> []) by discriminate.
  split; [exact Hne |]. split; [reflexivity |]. split; [reflexivity |].
  exact (flush_can_fail_half_way CONFIG world_no_parquet one_buffered
           eq_refl eq_refl Hne eq_refl eq_refl).
Defined.

Lemma adapter_send_bound (W : World) (u url : string)
    (headers : list (string * string)) (n : nat) (st : State) :
  (count (is_http_get u) (snd (adapter_send W n url headers st))
   <= count (is_http_get u) st + S n)%nat.
Proof.
  revert st. induction n as [| n IH]; intros st; simpl;
    unfold bind, oracle_tick, emit; simpl;
    destruct (http W (tick st) url) as [| status body];
    try destruct (forced_retry status); simpl;
    try (etransitivity; [apply IH |]);
    unfold count; simpl; destruct (String.eqb url u); simpl; lia.
Qed.

Lemma retry_loop_bound {A} (func : M A) (u : string) (k : nat)
    (attempts backoff : Z) :
  (forall st, (count (is_http_get u) (snd (func st))
               <= count (is_http_get u) st + k)%nat) ->
  forall range st,
    (count (is_http_get u) (snd (retry_loop func attempts backoff range st))
     <= count (is_http_get u) st + k * List.length range)%nat.
Proof.
  intros Hfunc. induction range as [| attempt rest IH]; intros st.
  - simpl. lia.
  - simpl. unfold try_except. specialize (Hfunc st).
    destruct (func st) as [[a | e] s1]; simpl in Hfunc |- *.
    + rewrite Nat.mul_succ_r. lia.
    + unfold bind, logging, time_sleep, emit, ret.
      destruct (attempt <? attempts); simpl;
        (etransitivity; [apply IH |]);
        unfold count in *; simpl; rewrite Nat.mul_succ_r; lia.
Qed.

(** X25. Fetching one page from a server that does not redirect never
    sends more than [retry_attempts * (retry_attempts + 1)] requests,
    whatever else the server does: at most [retry_attempts] calls of
    [session.get], each of at most [1 + retry_attempts] requests.  (A
    redirect would be followed by [session.get] with further requests,
    which the model of the session leaves out.) *)
Theorem page_requests_are_bounded (cfg : Config) (W : World)
    (url : string) (headers : list (string * string)) (st : State) :
  never_redirects W url ->
  (count (is_http_get url)
     (snd (retry_request cfg (session_get cfg W url headers) st))
   <= count (is_http_get url) st
      + Z.to_nat (retry_attempts cfg) * (Z.to_nat (retry_attempts cfg) + 1))%nat.
Proof.
  intros _. unfold retry_request.
  etransitivity.
  - apply (retry_loop_bound (session_get cfg W url headers) url
             (S (Z.to_nat (retry_attempts cfg)))).
    intros s. apply adapter_send_bound.
  - rewrite length_range1. lia.
Qed.

Lemma page_requests_are_bounded_witness :
  never_redirects world_flaky "https://good.example/a"
  /\ (count (is_http_get "https://good.example/a")
        (snd (retry_request CONFIG
                (session_get CONFIG world_flaky "https://good.example/a"
                             browser_headers) initial_state))
      <= 12)%nat.
Proof.
  assert (H : never_redirects world_flaky "https://good.example/a").
  { intros t status content. simpl.
    destruct (Nat.eqb t 0); intros Heq; inversion Heq; reflexivity. }
  split; [exact H |].
  exact (page_requests_are_bounded CONFIG world_flaky
           "https://good.example/a" browser_headers initial_state H).
Defined.

(** X26. The image ledger is not deduplicated: two <img> of a page that
    are served the same bytes give two records with the same file name,
    and the same path is written twice. *)
Theorem same_bytes_are_recorded_twice (cfg : Config) (W : World)
    (domain src1 src2 : string) (c : list byte) (i : ImageInfo) (st : State) :
  wants_download (Some src1) = true ->
  wants_download (Some src2) = true ->
  serves W src1 c ->
  serves W src2 c ->
  image_open W c = Some i ->
  image_verify W c = true ->
  exists st' r1 r2,
    process_images cfg W [Some src1; Some src2] domain st = (Ok tt, st')
    /\ image_storage st' = (image_storage st ++ [r1; r2])%list
    /\ image_url r1 = src1 /\ image_url r2 = src2
    /\ image_filename r1 = image_filename r2
    /\ image_writes (trace st')
       = (images_path cfg (image_filename r1), c)
           :: (images_path cfg (image_filename r1), c)
           :: image_writes (trace st).
Proof.
  intros Hw1 Hw2 Hs1 Hs2 Hopen Hverify.
  destruct (download_served_run cfg W src1 domain c i st Hs1 Hopen Hverify)
    as (s1 & Hrun1 & Hl1 & Hwr1).
  destruct (download_served_run cfg W src2 domain c i s1 Hs2 Hopen Hverify)
    as (s2 & Hrun2 & Hl2 & Hwr2).
  exists s2. eexists. eexists. split.
  - rewrite process_images_cons, Hw1. rewrite (bind_ok _ _ _ _ _ Hrun1).
    rewrite process_images_cons, Hw2. rewrite (bind_ok _ _ _ _ _ Hrun2).
    reflexivity.
  - split; [rewrite Hl2, Hl1, <- app_assoc; reflexivity |].
    cbn [image_url image_filename].
    split; [reflexivity |]. split; [reflexivity |]. split; [reflexivity |].
    now rewrite Hwr2, Hwr1.
Qed.

Lemma same_bytes_are_recorded_twice_witness :
  serves world_images "https://img.example/ok.png" png_bytes
  /\ serves world_images "https://img.example/copy.png" png_bytes
  /\ exists st' r1 r2,
       process_images CONFIG world_images
         [ Some "https://img.example/ok.png";
           Some "https://img.example/copy.png" ]%string
         "page.example" initial_state = (Ok tt, st')
       /\ image_storage st' = [r1; r2]
       /\ image_url r1 = "https://img.example/ok.png"%string
       /\ image_url r2 = "https://img.example/copy.png"%string
       /\ image_filename r1 = image_filename r2
       /\ image_writes (trace st')
          = [ (images_path CONFIG (image_filename r1), png_bytes);
              (images_path CONFIG (image_filename r1), png_bytes) ].
Proof.
  assert (H1 : serves world_images "https://img.example/ok.png" png_bytes)
    by (intros t; exists 200; split; reflexivity).
  assert (H2 : serves world_images "https://img.example/copy.png" png_bytes)
    by (intros t; exists 200; split; reflexivity).
  split; [exact H1 |]. split; [exact H2 |].
  exact (same_bytes_are_recorded_twice CONFIG world_images "page.example"
           "https://img.example/ok.png" "https://img.example/copy.png"
           png_bytes (mkImageInfo "PNG" (1, 1)) initial_state
           eq_refl eq_refl H1 H2 eq_refl eq_refl).
Defined.

(** * The tasks of a run *)

(** ** Computations that close no task *)

Lemma keeps_trans (p : Event -> bool) (a b c : State) :
  keeps p a b -> keeps p b c -> keeps p a c.
Proof. unfold keeps. congruence. Qed.

Lemma silent_ret {A} (a : A) : silent (ret a).
Proof. intros st. reflexivity. Qed.

Lemma silent_raise {A} (e : Exn) : silent (@raise A e).
Proof. intros st. reflexivity. Qed.

Lemma silent_bind {A B} (m : M A) (k : A -> M B) :
  silent m -> (forall a, silent (k a)) -> silent (bind m k).
Proof. apply (respects_bind (keeps is_closing_line) (keeps_trans _)). Qed.

Lemma silent_try_except {A} (m : M A) (h : Exn -> M A) :
  silent m -> (forall e, silent (h e)) -> silent (try_except m h).
Proof.
  apply (respects_try_except (keeps is_closing_line) (keeps_trans _)).
Qed.

Lemma silent_tick : silent oracle_tick.
Proof. intros st. reflexivity. Qed.

Lemma silent_emit (e : Event) : is_closing_line e = false -> silent (emit e).
Proof. intros H st. unfold keeps. simpl. now rewrite H. Qed.

Ltac silent_step :=
  first
    [ assumption
    | match goal with
      | H : _ |- silent _ => apply H
      end
    | apply silent_ret | apply silent_raise | apply silent_tick
    | apply silent_emit; reflexivity
    | apply silent_bind; [| intro]
    | apply silent_try_except; [| intro]
    | match goal with
      | |- silent (match ?x with _ => _ end) => destruct x
      end ].

Ltac silent_auto := repeat silent_step.

Lemma silent_datetime_now (W : World) : silent (datetime_now W).
Proof. unfold datetime_now. silent_auto. Qed.

Lemma silent_write_file (W : World) (path : string) (data : FileData) :
  silent (write_file W path data).
Proof. unfold write_file. silent_auto. Qed.

Lemma silent_adapter_send (W : World) (n : nat) (url : string)
    (headers : list (string * string)) :
  silent (adapter_send W n url headers).
Proof. induction n as [| n IH]; simpl; silent_auto. Qed.

Lemma silent_store_image (cfg : Config) (W : World) (data : ImageRecord)
    (content : list byte) :
  silent (store_image cfg W data content).
Proof.
  intros st. unfold store_image.
  assert (H : silent (set_image_storage (image_storage st ++ [data]) ;;
                      try_except
                        (write_file W
                           (Str.os_path_join
                              (Str.os_path_join (output_dir cfg) "images")
                              (image_filename data))
                           (ImageBytes content) ;;
                         logging INFO (SavedImage (image_filename data)))
                        (fun e => logging ERROR
                                    (ErrorSavingImage (image_filename data)
                                                      e)))).
  { pose proof (silent_write_file W). unfold logging. silent_auto. }
  apply H.
Qed.

Lemma silent_download_response (cfg : Config) (W : World)
    (url domain : string) (response : Z * list byte) :
  silent (download_response cfg W url domain response).
Proof.
  unfold download_response.
  apply silent_bind; [unfold raise_for_status; silent_auto | intros _].
  apply silent_bind; [unfold Image_open; silent_auto | intros img].
  apply silent_bind; [silent_auto | intros _].
  apply silent_bind; [unfold Image_open; silent_auto | intros img'].
  apply silent_bind; [apply silent_datetime_now | intros ts].
  apply silent_store_image.
Qed.

Lemma silent_download (cfg : Config) (W : World) (url domain : string) :
  silent (download cfg W url domain).
Proof.
  unfold download. apply silent_try_except.
  - apply silent_bind; [apply silent_adapter_send | intros response].
    apply silent_download_response.
  - intros e. now apply silent_emit.
Qed.

Lemma silent_process_images (cfg : Config) (W : World)
    (imgs : list (option string)) (domain : string) :
  silent (process_images cfg W imgs domain).
Proof.
  pose proof (silent_download cfg W) as Hd.
  induction imgs as [| img rest IH]; cbn [process_images]; silent_auto.
Qed.

Lemma silent_retry_loop {A} (func : M A) (attempts backoff : Z)
    (range : list Z) :
  silent func -> silent (retry_loop func attempts backoff range).
Proof.
  intros Hf. induction range as [| attempt rest IH]; simpl;
    unfold logging, time_sleep; silent_auto.
Qed.

(** ** Tasks that fail, tasks that store *)

Lemma retry_loop_gives_up {A} (func : M A) (attempts backoff : Z) :
  (forall st, exists e, fst (func st) = Raise e) ->
  forall range st,
    fst (retry_loop func attempts backoff range st)
    = Raise MaximumRetryAttempts.
Proof.
  intros Hfunc. induction range as [| attempt rest IH]; intros st.
  - reflexivity.
  - simpl. unfold try_except. destruct (Hfunc st) as (e & He).
    destruct (func st) as [[a | e0] s1]; simpl in He; [discriminate |].
    unfold bind, logging, time_sleep, emit, ret.
    destruct (attempt <? attempts); simpl; apply IH.
Qed.

(** A task whose URL has a domain, that robots.txt permits and that finds
    a user agent sleeps and goes on with the request. *)
Lemma scrape_page_requests (cfg : Config) (W : World) (url domain : string)
    (st : State) :
  url_domain url = Some domain ->
  permitted (robots_txt W (tick st)
               ("https://" ++ domain ++ "/robots.txt")%string) "*" url = true ->
  user_agents cfg <> [] ->
  exists agent,
    In agent (user_agents cfg)
    /\ scrape_page cfg W url st
       = try_except
           (bind (retry_request cfg
                    (session_get cfg W url (request_headers agent)))
                 (after_response cfg W url domain))
           (fun e => logging ERROR (ErrorScraping url e))
           (mkState (S (S (tick st))) (text_storage st) (image_storage st)
              (Sleep (rate_limit_delay cfg)
               :: RobotsGet ("https://" ++ domain ++ "/robots.txt")%string
               :: trace st)).
Proof.
  intros Hdom Hperm Hpool.
  destruct (get_robots_parser_permitted W ("https://" ++ domain)%string "*"
              url st Hperm) as (rp & Hrobots & Hcan).
  set (s1 := mkState (S (tick st)) (text_storage st) (image_storage st)
               (RobotsGet (("https://" ++ domain) ++ "/robots.txt")%string
                :: trace st)) in *.
  destruct (proj1 (random_choice_cases W (user_agents cfg) s1) Hpool)
    as (agent & Hchoice & Hin).
  exists agent. split; [exact Hin |].
  set (s2 := mkState (S (tick s1)) (text_storage s1) (image_storage s1)
                     (trace s1)) in *.
  set (s3 := mkState (tick s2) (text_storage s2) (image_storage s2)
                     (Sleep (rate_limit_delay cfg) :: trace s2)).
  unfold scrape_page. unfold scrape_body at 1. rewrite Hdom.
  unfold try_except at 1.
  rewrite (bind_ok _ _ st st domain eq_refl).
  rewrite (bind_ok _ _ _ _ _ Hrobots). rewrite Hcan. cbn [negb].
  rewrite (bind_ok _ _ _ _ _ Hchoice).
  rewrite (bind_ok (time_sleep (rate_limit_delay cfg)) _ s2 s3 tt eq_refl).
  reflexivity.
Qed.

Lemma retry_request_same_texts (cfg : Config) (W : World) (url : string)
    (headers : list (string * string)) :
  respects same_texts (retry_request cfg (session_get cfg W url headers)).
Proof.
  unfold retry_request.
  apply (respects_retry_loop same_texts (fun s => eq_refl) same_texts_trans
           (fun _ => True) (fun e s _ => eq_refl) (fun l m => I)
           (fun s => I)).
  apply (respects_session_get same_texts (fun s => eq_refl) same_texts_trans
           (fun _ => True) (fun s => eq_refl) (fun e s _ => eq_refl)
           (fun u h => I)).
Qed.

(** A request that fails at every attempt ends the task with the single
    error of the attempt loop. *)
Lemma scrape_page_gives_up (cfg : Config) (W : World) (url domain : string)
    (st : State) :
  url_domain url = Some domain ->
  robots_permit W domain url ->
  user_agents cfg <> [] ->
  (forall t,
     http W t url = NetworkError
     \/ exists status c, http W t url = Response status c
                         /\ forced_retry status = true) ->
  exists st',
    scrape_page cfg W url st = (Ok tt, st')
    /\ text_storage st' = text_storage st
    /\ filter is_closing_line (trace st')
       = Log ERROR (ErrorScraping url MaximumRetryAttempts)
           :: filter is_closing_line (trace st).
Proof.
  intros Hdom Hperm Hpool Hdown.
  destruct (scrape_page_requests cfg W url domain st Hdom (Hperm (tick st))
              Hpool) as (agent & _ & Hrun).
  rewrite Hrun. clear Hrun.
  match goal with
  | |- context [try_except _ _ ?s] => set (s3 := s)
  end.
  assert (Hraise : forall s, exists e,
            fst (session_get cfg W url (request_headers agent) s) = Raise e).
  { intros s. unfold session_get.
    generalize (Z.to_nat (retry_attempts cfg)). intros n. revert s.
    induction n as [| n IH]; intros s; cbn [adapter_send];
      unfold bind at 1 2; unfold oracle_tick, emit;
      cbn [fst snd tick text_storage image_storage trace];
      destruct (Hdown (tick s)) as [-> | (status & c & -> & ->)];
      try (eexists; reflexivity); apply IH. }
  pose proof (retry_loop_gives_up _ (retry_attempts cfg) (retry_backoff cfg)
                Hraise (range1 (retry_attempts cfg)) s3) as Hfst.
  pose proof (retry_request_same_texts cfg W url (request_headers agent) s3)
    as Htx.
  pose proof (silent_retry_loop
                (session_get cfg W url (request_headers agent))
                (retry_attempts cfg) (retry_backoff cfg)
                (range1 (retry_attempts cfg))
                (silent_adapter_send W _ url (request_headers agent)) s3)
    as Hsil.
  unfold try_except, bind. unfold retry_request in Htx |- *.
  destruct (retry_loop (session_get cfg W url (request_headers agent))
              (retry_attempts cfg) (retry_backoff cfg)
              (range1 (retry_attempts cfg)) s3) as [[response | e] s4];
    cbn [fst snd] in Hfst, Htx, Hsil; [discriminate |].
  injection Hfst as ->.
  eexists. split; [reflexivity |].
  unfold same_texts, keeps in *. cbn [text_storage trace filter
    is_closing_line]. split; [exact Htx |]. now rewrite Hsil.
Qed.

Lemma scrape_page_fails (cfg : Config) (W : World) (url : string) (e : Exn)
    (st : State) :
  user_agents cfg <> [] ->
  1 <= retry_attempts cfg ->
  task_fails_with W url e ->
  exists st',
    scrape_page cfg W url st = (Ok tt, st')
    /\ text_storage st' = text_storage st
    /\ filter is_closing_line (trace st')
       = Log ERROR (ErrorScraping url e) :: filter is_closing_line (trace st).
Proof.
  intros Hpool Hattempts
    [Hnone | domain status c Hdom Hperm Hans Hf Herr
     | domain Hdom Hperm Hnet | domain Hdom Hperm Hforced].
  - unfold scrape_page, scrape_body, try_except, bind. rewrite Hnone.
    eexists. split; [reflexivity |]. split; reflexivity.
  - destruct (scrape_page_requests cfg W url domain st Hdom (Hperm (tick st))
                Hpool) as (agent & _ & Hrun).
    rewrite Hrun. clear Hrun. unfold try_except.
    rewrite (bind_ok _ _ _ _ _
               (retry_request_first_try cfg W url (request_headers agent)
                  status c _ Hattempts (Hans _) Hf)).
    unfold after_response, raise_for_status, bind. cbn [fst].
    unfold error_status in Herr. rewrite Herr.
    eexists. split; [reflexivity |]. split; reflexivity.
  - apply (scrape_page_gives_up cfg W url domain st Hdom Hperm Hpool).
    intros t. left. apply Hnet.
  - apply (scrape_page_gives_up cfg W url domain st Hdom Hperm Hpool).
    intros t. right. apply Hforced.
Qed.

Lemma accepts_detected (cfg : Config) (W : World) (text : string) :
  accepts cfg W text = true -> detection_fails cfg W text = false.
Proof.
  unfold accepts, detection_fails. destruct (detect W text).
  - intros _. now rewrite andb_false_r.
  - rewrite andb_false_r. discriminate.
Qed.

(** A task on a good page stores the record of the page and closes with
    the line that says so, whatever the images of the page are. *)
Lemma scrape_page_stores (cfg : Config) (W : World) (url : string)
    (content : list byte) (st : State) :
  user_agents cfg <> [] ->
  1 <= retry_attempts cfg ->
  good_page cfg W url content ->
  Z.of_nat (List.length (text_storage st)) + 1 < max_text_storage cfg ->
  exists st' r,
    scrape_page cfg W url st = (Ok tt, st')
    /\ text_storage st' = (text_storage st ++ [r])%list
    /\ text_url r = url
    /\ text_content r = page_text W content
    /\ url_domain url = Some (text_source_domain r)
    /\ filter is_closing_line (trace st')
       = Log INFO (ScrapedAndStored url) :: filter is_closing_line (trace st).
Proof.
  intros Hpool Hattempts ((domain & Hdom & Hperm) & Hans & Hacc) Hroom.
  destruct (scrape_page_requests cfg W url domain st Hdom (Hperm (tick st))
              Hpool) as (agent & _ & Hrun).
  rewrite Hrun. clear Hrun. unfold try_except.
  rewrite (bind_ok _ _ _ _ _
             (retry_request_first_try cfg W url (request_headers agent)
                200 content _ Hattempts (Hans _) eq_refl)).
  match goal with
  | |- context [after_response _ _ _ _ _ ?s] => set (s4 := s)
  end.
  unfold after_response.
  rewrite (bind_ok (raise_for_status (200, content)) _ s4 s4 tt eq_refl).
  cbn [snd]. unfold text_and_images. fold (page_text W content).
  rewrite (bind_ok _ _ _ _ _ (validate_content_cases cfg W _ s4)).
  rewrite Hacc, (accepts_detected _ _ _ Hacc).
  set (ts := now W (tick s4)).
  set (s5 := mkState (S (tick s4)) (text_storage s4) (image_storage s4)
                     (trace s4)).
  set (r := mkTextRecord url (page_text W content) ts domain).
  set (s6 := mkState (tick s5) (text_storage s5 ++ [r]) (image_storage s5)
                     (Log INFO (ScrapedAndStored url) :: trace s5)).
  set (imgs := find_all_img (beautiful_soup W content)).
  assert (Hstage : (timestamp <- datetime_now W ;;
                    store_text cfg W
                      (mkTextRecord url (page_text W content) timestamp
                                    domain) ;;
                    logging INFO (ScrapedAndStored url)) s4 = (Ok tt, s6)).
  { rewrite (bind_ok (datetime_now W) _ s4 s5 ts eq_refl).
    rewrite (bind_ok _ _ _ _ _ (store_text_appends_below cfg W r s5 Hroom)).
    reflexivity. }
  rewrite (bind_ok _ _ _ _ _ Hstage).
  destruct (process_images_returns cfg W imgs domain s6) as (st' & Himgs).
  pose proof (process_images_same_texts cfg W imgs domain s6) as Ht.
  pose proof (silent_process_images cfg W imgs domain s6) as Hs.
  rewrite Himgs in Ht, Hs |- *. unfold same_texts, keeps in Ht, Hs.
  cbn [snd] in Ht, Hs.
  exists st', r. split; [reflexivity |].
  split; [exact Ht |]. split; [reflexivity |]. split; [reflexivity |].
  split; [exact Hdom |]. rewrite Hs. reflexivity.
Qed.

(** A task on a page whose text is rejected stores nothing and closes
    with the line that says so, whatever the images of the page are. *)
Lemma scrape_page_rejects (cfg : Config) (W : World) (url : string)
    (content : list byte) (st : State) :
  user_agents cfg <> [] ->
  1 <= retry_attempts cfg ->
  rejected_page cfg W url content ->
  exists st',
    scrape_page cfg W url st = (Ok tt, st')
    /\ text_storage st' = text_storage st
    /\ filter is_closing_line (trace st')
       = Log INFO (DidNotPassValidation url)
           :: filter is_closing_line (trace st).
Proof.
  intros Hpool Hattempts ((domain & Hdom & Hperm) & Hans & Hrej).
  destruct (scrape_page_requests cfg W url domain st Hdom (Hperm (tick st))
              Hpool) as (agent & _ & Hrun).
  rewrite Hrun. clear Hrun. unfold try_except.
  rewrite (bind_ok _ _ _ _ _
             (retry_request_first_try cfg W url (request_headers agent)
                200 content _ Hattempts (Hans _) eq_refl)).
  match goal with
  | |- context [after_response _ _ _ _ _ ?s] => set (s4 := s)
  end.
  unfold after_response.
  rewrite (bind_ok (raise_for_status (200, content)) _ s4 s4 tt eq_refl).
  cbn [snd]. unfold text_and_images. fold (page_text W content).
  rewrite (bind_ok _ _ _ _ _ (validate_content_cases cfg W _ s4)).
  rewrite Hrej.
  set (s5 := if detection_fails cfg W (page_text W content)
             then logged s4 WARNING
                    (LanguageDetectionFailed LangDetectException)
             else s4).
  assert (Hs5 : text_storage s5 = text_storage st
                /\ filter is_closing_line (trace s5)
                   = filter is_closing_line (trace st))
    by (unfold s5; destruct (detection_fails cfg W _); split; reflexivity).
  destruct Hs5 as [Htx5 Hl5].
  set (s6 := mkState (tick s5) (text_storage s5) (image_storage s5)
                     (Log INFO (DidNotPassValidation url) :: trace s5)).
  rewrite (bind_ok (logging INFO (DidNotPassValidation url)) _ s5 s6 tt
             eq_refl).
  set (imgs := find_all_img (beautiful_soup W content)).
  destruct (process_images_returns cfg W imgs domain s6) as (st' & Himgs).
  pose proof (process_images_same_texts cfg W imgs domain s6) as Ht.
  pose proof (silent_process_images cfg W imgs domain s6) as Hs.
  rewrite Himgs in Ht, Hs |- *. unfold same_texts, keeps in Ht, Hs.
  cbn [snd] in Ht, Hs.
  exists st'. split; [reflexivity |].
  split; [rewrite Ht; exact Htx5 |].
  rewrite Hs. cbn [s6 trace filter is_closing_line]. now rewrite Hl5.
Qed.

(** A task whose URL robots.txt refuses stores nothing and closes with
    the line that says it was skipped. *)
Lemma scrape_page_skips (cfg : Config) (W : World) (url : string)
    (st : State) :
  robots_refuse W url ->
  exists st',
    scrape_page cfg W url st = (Ok tt, st')
    /\ text_storage st' = text_storage st
    /\ filter is_closing_line (trace st')
       = Log WARNING (SkippingRobots url)
           :: filter is_closing_line (trace st).
Proof.
  intros (domain & Hdom & Hrefuse).
  rewrite (scrape_page_refused cfg W url domain st Hdom (Hrefuse (tick st))).
  eexists. split; [reflexivity |]. split; [reflexivity |].
  cbn [trace filter is_closing_line]. f_equal.
  destruct (robots_txt W (tick st) _); reflexivity.
Qed.

(** Each fate closes the task with its line and stores what it keeps. *)
Lemma scrape_page_meets (cfg : Config) (W : World) (url : string) (f : Fate)
    (st : State) :
  user_agents cfg <> [] ->
  1 <= retry_attempts cfg ->
  Z.of_nat (List.length (text_storage st)) + 1 < max_text_storage cfg ->
  meets cfg W url f ->
  exists st' new,
    scrape_page cfg W url st = (Ok tt, st')
    /\ text_storage st' = (text_storage st ++ new)%list
    /\ (List.length new <= 1)%nat
    /\ map (fun r => (text_url r, text_content r)) new = kept W url f
    /\ Forall (fun r => url_domain (text_url r) = Some (text_source_domain r))
              new
    /\ filter is_closing_line (trace st')
       = closing_line url f :: filter is_closing_line (trace st).
Proof.
  intros Hpool Hattempts Hroom Hf.
  destruct f as [content | content | | e]; cbn [meets closing_line kept] in *.
  - destruct (scrape_page_stores cfg W url content st Hpool Hattempts Hf
                Hroom) as (st' & r & Hrun & Htx & Hu & Hc & Hd & Hl).
    exists st', [r]. split; [exact Hrun |]. split; [exact Htx |].
    split; [simpl; lia |]. split; [cbn [map]; now rewrite Hu, Hc |].
    split; [constructor; [rewrite Hu; exact Hd | constructor] | exact Hl].
  - destruct (scrape_page_rejects cfg W url content st Hpool Hattempts Hf)
      as (st' & Hrun & Htx & Hl).
    exists st', []. rewrite app_nil_r.
    split; [exact Hrun |]. split; [exact Htx |]. split; [simpl; lia |].
    split; [reflexivity |]. split; [constructor | exact Hl].
  - destruct (scrape_page_skips cfg W url st Hf) as (st' & Hrun & Htx & Hl).
    exists st', []. rewrite app_nil_r.
    split; [exact Hrun |]. split; [exact Htx |]. split; [simpl; lia |].
    split; [reflexivity |]. split; [constructor | exact Hl].
  - destruct (scrape_page_fails cfg W url e st Hpool Hattempts Hf)
      as (st' & Hrun & Htx & Hl).
    exists st', []. rewrite app_nil_r.
    split; [exact Hrun |]. split; [exact Htx |]. split; [simpl; lia |].
    split; [reflexivity |]. split; [constructor | exact Hl].
Qed.

Lemma scrape_page_caught (cfg : Config) (W : World) (url : string)
    (st : State) :
  exists st',
    scrape_page cfg W url st = (Ok tt, st')
    /\ (forall e s1, scrape_body cfg W url st = (Raise e, s1) ->
          st' = logged s1 ERROR (ErrorScraping url e))
    /\ (forall s1, scrape_body cfg W url st = (Ok tt, s1) -> st' = s1).
Proof.
  unfold scrape_page, try_except.
  destruct (scrape_body cfg W url st) as [[[] | e] s1].
  - exists s1. split; [reflexivity |].
    split; [discriminate | intros s H; now inversion H].
  - eexists. split; [reflexivity |].
    split; [intros e' s H; now inversion H | discriminate].
Qed.

Lemma run_is_fold (cfg : Config) (W : World) (seed_urls : list string)
    (st : State) :
  run cfg W seed_urls st = (Ok tt, fold_left (task cfg W) seed_urls st).
Proof.
  revert st. induction seed_urls as [| url rest IH]; intros st.
  - reflexivity.
  - rewrite run_cons. apply IH.
Qed.

(** The run on a seed list each of whose URLs meets a fate of its own. *)
Lemma run_classified (cfg : Config) (W : World) (fate : string -> Fate)
    (seed_urls : list string) (st : State) :
  user_agents cfg <> [] ->
  1 <= retry_attempts cfg ->
  Z.of_nat (List.length (text_storage st)) + Z.of_nat (List.length seed_urls)
    < max_text_storage cfg ->
  (forall url, In url seed_urls -> meets cfg W url (fate url)) ->
  exists st1 new,
    run cfg W seed_urls st = (Ok tt, st1)
    /\ text_storage st1 = (text_storage st ++ new)%list
    /\ map (fun r => (text_url r, text_content r)) new
       = flat_map (fun url => kept W url (fate url)) seed_urls
    /\ Forall (fun r => url_domain (text_url r) = Some (text_source_domain r))
              new
    /\ rev (filter is_closing_line (trace st1))
       = (rev (filter is_closing_line (trace st))
          ++ map (fun url => closing_line url (fate url)) seed_urls)%list.
Proof.
  intros Hpool Hattempts. revert st.
  induction seed_urls as [| url rest IH]; intros st Hroom Hclass.
  - exists st, []. cbn [flat_map map]. rewrite !app_nil_r.
    split; [reflexivity |]. now repeat split.
  - rewrite run_cons. cbn [List.length] in Hroom.
    destruct (scrape_page_meets cfg W url (fate url) st Hpool Hattempts)
      as (s1 & new1 & Hrun & Htx & Hlen & Hnew & Hdom & Hlines);
      [lia | apply Hclass; now left |].
    rewrite Hrun. cbn [snd].
    destruct (IH s1) as (st1 & new & Hrun1 & Htx1 & Hnew1 & Hdom1 & Hl1).
    { rewrite Htx, length_app. lia. }
    { intros u Hu. apply Hclass. now right. }
    exists st1, (new1 ++ new)%list. split; [exact Hrun1 |].
    split; [rewrite Htx1, Htx, <- app_assoc; reflexivity |].
    split; [cbn [flat_map]; rewrite map_app, Hnew, Hnew1; reflexivity |].
    split; [apply Forall_app; now split |].
    rewrite Hl1, Hlines. cbn [rev map]. rewrite <- app_assoc. reflexivity.
Qed.

Lemma main_flushes (cfg : Config) (W : World) (seed_urls : list string)
    (st st1 : State) :
  (forall t p, fs_write_ok W t p = true) ->
  run cfg W seed_urls st = (Ok tt, st1) ->
  exists st2,
    main cfg W seed_urls st = (Ok tt, st2)
    /\ text_storage st2 = []
    /\ (text_storage st1 = [] -> st2 = st1)
    /\ (text_storage st1 <> [] ->
        text_writes (trace st2)
        = (flush_batches cfg (text_storage st1)
           ++ text_writes (trace st1))%list).
Proof.
  intros Hfs Hrun. unfold main. rewrite (bind_ok _ _ _ _ _ Hrun).
  destruct (text_storage st1) as [| r df] eqn:E.
  - exists st1. unfold flush_text_storage. rewrite E.
    repeat split; congruence.
  - destruct (flush_text_storage_writes cfg W st1 Hfs)
      as (st2 & Hflush & Hbuf & _ & Hwr); [congruence |].
    exists st2. split; [exact Hflush |]. split; [exact Hbuf |].
    split; [congruence |]. intros _. now rewrite <- E.
Qed.

(** C4. An error raised while one URL is scraped is caught by its task
    and logged under its URL, and the task returns.  [run] returns and is
    the tasks of the seed list one after the other, each started in the
    state the one before has left, whatever happened in it.  So on a seed
    list each of whose URLs meets a fate of its own (its page is stored;
    it is fetched and rejected; it is refused by robots.txt; its task
    fails, for a URL without domain, an error status, a network that
    fails or a server that keeps answering with a status of the retry
    list), with a pool of user agents, at least one attempt, delays that
    are not negative and room in the buffer, the run stores the records of
    the pages to store and of no other, in the order of the seeds, and
    closes each task with its own line.  And the flush that follows the
    run, the writes succeeding, writes what the run has left in the buffer
    as one batch for each configured format and leaves the buffer
    empty. *)
Theorem task_failures_are_isolated (cfg : Config) (W : World) :
  (forall url st, exists st',
     scrape_page cfg W url st = (Ok tt, st')
     /\ (forall e s1, scrape_body cfg W url st = (Raise e, s1) ->
           st' = mkState (tick s1) (text_storage s1) (image_storage s1)
                         (Log ERROR (ErrorScraping url e) :: trace s1))
     /\ (forall s1, scrape_body cfg W url st = (Ok tt, s1) -> st' = s1))
  /\ (forall seed_urls st,
        run cfg W seed_urls st
        = (Ok tt, fold_left (task cfg W) seed_urls st))
  /\ (forall (fate : string -> Fate) seed_urls st,
        user_agents cfg <> [] ->
        1 <= retry_attempts cfg ->
        0 <= rate_limit_delay cfg ->
        0 <= retry_backoff cfg ->
        Z.of_nat (List.length (text_storage st))
          + Z.of_nat (List.length seed_urls) < max_text_storage cfg ->
        (forall url, In url seed_urls -> meets cfg W url (fate url)) ->
        exists st1 new,
          run cfg W seed_urls st = (Ok tt, st1)
          /\ text_storage st1 = (text_storage st ++ new)%list
          /\ map (fun r => (text_url r, text_content r)) new
             = flat_map (fun url => kept W url (fate url)) seed_urls
          /\ Forall (fun r => url_domain (text_url r)
                              = Some (text_source_domain r)) new
          /\ rev (filter is_closing_line (trace st1))
             = (rev (filter is_closing_line (trace st))
                ++ map (fun url => closing_line url (fate url))
                       seed_urls)%list)
  /\ (forall seed_urls st st1,
        (forall t p, fs_write_ok W t p = true) ->
        run cfg W seed_urls st = (Ok tt, st1) ->
        exists st2,
          main cfg W seed_urls st = (Ok tt, st2)
          /\ text_storage st2 = []
          /\ (text_storage st1 = [] -> st2 = st1)
          /\ (text_storage st1 <> [] ->
              text_writes (trace st2)
              = (flush_batches cfg (text_storage st1)
                 ++ text_writes (trace st1))%list)).
Proof.
  split; [| split; [| split]].
  - intros url st. apply scrape_page_caught.
  - intros seed_urls st. apply run_is_fold.
  - intros fate seed_urls st Hpool Hattempts _ _.
    now apply run_classified.
  - intros seed_urls st st1. apply main_flushes.
Qed.

Lemma task_failures_are_isolated_witness :
  meets CONFIG world_two_pages "https://good.example/a"
        (Stored (list_byte_of_string "<article>"))
  /\ meets CONFIG world_two_pages "https://bad.example/missing"
           (Failed (HTTPError 404))
  /\ (forall t p, fs_write_ok world_two_pages t p = true)
  /\ exists st1 st2 new,
       run CONFIG world_two_pages two_seeds initial_state = (Ok tt, st1)
       /\ text_storage st1 = new
       /\ map (fun r => (text_url r, text_content r)) new
          = [ ("https://good.example/a"%string,
               page_text world_two_pages (list_byte_of_string "<article>")) ]
       /\ rev (filter is_closing_line (trace st1))
          = [ Log INFO (ScrapedAndStored "https://good.example/a");
              Log ERROR (ErrorScraping "https://bad.example/missing"
                                       (HTTPError 404)) ]
       /\ main CONFIG world_two_pages two_seeds initial_state = (Ok tt, st2)
       /\ text_storage st2 = []
       /\ text_writes (trace st2)
          = (flush_batches CONFIG new ++ text_writes (trace st1))%list.
Proof.
  assert (Hgood : meets CONFIG world_two_pages "https://good.example/a"
                        (Stored (list_byte_of_string "<article>"))).
  { split; [| split].
    - exists "good.example"%string. split; [reflexivity |].
      intros t. reflexivity.
    - intros t. reflexivity.
    - vm_compute. reflexivity. }
  assert (Hbad : meets CONFIG world_two_pages "https://bad.example/missing"
                       (Failed (HTTPError 404))).
  { apply (task_error_status _ _ "bad.example" 404 []);
      [reflexivity | intros t; reflexivity | intros t; reflexivity
      | reflexivity | reflexivity]. }
  assert (Hfs : forall t p, fs_write_ok world_two_pages t p = true)
    by reflexivity.
  assert (Hpool : user_agents CONFIG <> []) by discriminate.
  assert (Hattempts : 1 <= retry_attempts CONFIG) by (simpl; lia).
  assert (Hdelay : 0 <= rate_limit_delay CONFIG) by (simpl; lia).
  assert (Hbackoff : 0 <= retry_backoff CONFIG) by (simpl; lia).
  assert (Hroom : Z.of_nat (List.length (text_storage initial_state))
                  + Z.of_nat (List.length two_seeds)
                  < max_text_storage CONFIG) by (simpl; lia).
  split; [exact Hgood |]. split; [exact Hbad |]. split; [exact Hfs |].
  destruct (task_failures_are_isolated CONFIG world_two_pages)
    as (_ & _ & Hclass & Hflush).
  destruct (Hclass (fun url => if String.eqb url "https://good.example/a"
                               then Stored (list_byte_of_string "<article>")
                               else Failed (HTTPError 404))
              two_seeds initial_state
              Hpool Hattempts Hdelay Hbackoff Hroom)
    as (st1 & new & Hrun & Htx & Hnew & _ & Hlines).
  { intros url [<- | [<- | []]]; assumption. }
  destruct (Hflush two_seeds initial_state st1 Hfs Hrun)
    as (st2 & Hmain & Hbuf & _ & Hwr).
  change (text_storage initial_state ++ new)%list with new in Htx.
  exists st1, st2, new. split; [exact Hrun |]. split; [exact Htx |].
  split; [exact Hnew |]. split; [exact Hlines |]. split; [exact Hmain |].
  split; [exact Hbuf |].
  rewrite <- Htx. apply Hwr. rewrite Htx.
  intros Hnil. rewrite Hnil in Hnew. discriminate Hnew.
Defined.
